(** * richtext.js: rich text editing sessions for three browser engines

    A shallow embedding of [src/richtext.js] (the colour converter
    [convertColor], the class [EditableBase], its three subclasses
    [EditableGecko], [EditableWebkit] and [EditableIE], and the global
    event handlers) together with the properties of the written
    specification that were checked against it, and with further
    properties of the code itself.

    Conventions of the embedding.
    - A JavaScript value is a [value]; numbers are integers ([Z]), the
      32-bit conversion of the bit operators is written out ([to_int32]),
      and so is the rounding of [parseInt] to a double ([to_double]).
    - A JavaScript string is a [string]; one [ascii] stands for one code
      unit, so [String.length] is the [length] property.
    - A method is a function in the monad [M T]: it reads and writes the
      receiver [this : T] and the host environment [World], and either
      returns or throws; the state reached at a throw is kept.
    - Calls into the host that have no result the code looks at (console
      output, focus, selection, document writing) are appended to the
      [trace] of the world, in call order; the calls that select also set
      the selection the host has, and a command run on the page's own
      document changes the selections and the text of the nodes as the
      engine decides.
    - A node hangs at a [place]; the document it is in is found by
      climbing its parents. A frame has a window only in a document that
      is displayed, and the live collections of the page hold what is in
      the page's own document when they are read.
    - A global variable that holds a session holds its identity, the
      field [self]; an event handler finds the session among the objects
      of its class ([call_on]). *)

From Stdlib Require Import ZArith String Ascii List Bool Lia.
From stdpp Require Import base option gmap strings list.

Local Open Scope string_scope.
Local Open Scope Z_scope.

(** ** JavaScript values *)

Inductive value :=
  | VUndef
  | VNull
  | VBool (b : bool)
  | VNum (n : Z)
  | VStr (s : string).

#[global] Instance value_eq_dec : EqDecision value.
Proof. solve_decision. Defined.

(** ** Number formatting: [Number.prototype.toString(radix)] on integers *)

Definition digit_char (d : Z) : ascii :=
  if d <? 10 then ascii_of_nat (Z.to_nat (48 + d))
  else ascii_of_nat (Z.to_nat (87 + d)).

Fixpoint digits_of (radix : Z) (fuel : nat) (d : Z) (acc : string) : string :=
  let acc' := String (digit_char (d mod radix)) acc in
  match fuel with
  | O => acc'
  | S fuel' =>
      if d / radix =? 0 then acc' else digits_of radix fuel' (d / radix) acc'
  end.

(** [d.toString(radix)], for an integer [d] and [2 <= radix]; the binary
    length of [d] bounds the number of digits in every radix. *)
Definition number_toString (radix : Z) (d : Z) : string :=
  if d <? 0
  then "-" ++ digits_of radix (Z.to_nat (Z.log2 (- d))) (- d) ""
  else digits_of radix (Z.to_nat (Z.log2 d)) d "".

(** ** [convertColor] (richtext.js, lines 22-52) *)

(** The inner function [hex]: two digits for one byte. *)
Definition hex (d : Z) : string :=
  if d <? 16 then "0" ++ number_toString 16 d else number_toString 16 d.

(** [ToInt32], applied by [&] and [>>] to their operands. *)
Definition to_int32 (v : Z) : Z := (v + 2 ^ 31) mod 2 ^ 32 - 2 ^ 31.

(** Character classes of the regular expression. [\s] on the code units
    below 256: tab, line feed, vertical tab, form feed, carriage return,
    space and no-break space. *)
Definition is_space (c : ascii) : bool :=
  let n := nat_of_ascii c in
  ((9 <=? n) && (n <=? 13))%nat || (n =? 32)%nat || (n =? 160)%nat.

Definition is_digit (c : ascii) : bool :=
  let n := nat_of_ascii c in ((48 <=? n) && (n <=? 57))%nat.

(** [\s*]: greedy; what follows it in the expression is never a space. *)
Fixpoint skip_spaces (s : string) : string :=
  match s with
  | String c s' => if is_space c then skip_spaces s' else s
  | EmptyString => s
  end.

(** [([0-9]+)]: greedy; returns the group and the rest, [None] when there
    is no digit. What follows it in the expression is never a digit. *)
Fixpoint span_digits (s : string) : string * string :=
  match s with
  | String c s' =>
      if is_digit c
      then let '(ds, rest) := span_digits s' in (String c ds, rest)
      else (EmptyString, s)
  | EmptyString => (EmptyString, s)
  end.

Definition digits1 (s : string) : option (string * string) :=
  match span_digits s with
  | (EmptyString, _) => None
  | (ds, rest) => Some (ds, rest)
  end.

(** One literal character. *)
Definition expect (c : ascii) (s : string) : option string :=
  match s with
  | String c' s' => if Ascii.eqb c c' then Some s' else None
  | EmptyString => None
  end.

Definition strip_prefix (p s : string) : option string :=
  if String.prefix p s
  then Some (String.substring (String.length p) (String.length s - String.length p) s)
  else None.

(** The expression [/rgb\s*\(\s*([0-9]+)\s*,\s*([0-9]+)\s*,\s*([0-9]+)\s*\)/]
    tried at the start of [s]; the three groups on success. *)
Definition match_rgb_here (s : string) : option (string * string * string) :=
  s ← strip_prefix "rgb" s;
  s ← expect "(" (skip_spaces s);
  '(g1, s) ← digits1 (skip_spaces s);
  s ← expect "," (skip_spaces s);
  '(g2, s) ← digits1 (skip_spaces s);
  s ← expect "," (skip_spaces s);
  '(g3, s) ← digits1 (skip_spaces s);
  _ ← expect ")" (skip_spaces s);
  Some (g1, g2, g3).

(** [v.match(re)]: the expression is not anchored, so every start
    position is tried, leftmost first. *)
Fixpoint match_rgb (s : string) : option (string * string * string) :=
  match match_rgb_here s with
  | Some g => Some g
  | None =>
      match s with
      | String _ s' => match_rgb s'
      | EmptyString => None
      end
  end.

(** [parseInt] on a group of the expression, that is on decimal digits. *)
Fixpoint parseInt_digits (acc : Z) (s : string) : Z :=
  match s with
  | String c s' => parseInt_digits (10 * acc + (Z.of_nat (nat_of_ascii c) - 48)) s'
  | EmptyString => acc
  end.

(** The double nearest to a natural number, ties to even; [None] is
    [Infinity]. Below 2^53 every integer is a double. *)
Definition to_double (n : Z) : option Z :=
  if n <? 2 ^ 53 then Some n
  else
    let k := Z.log2 n - 52 in
    let q := n / 2 ^ k in
    let r := n mod 2 ^ k in
    let q' :=
      if (2 ^ (k - 1) <? r) || ((2 ^ (k - 1) =? r) && Z.odd q) then q + 1 else q in
    if q' * 2 ^ k <? 2 ^ 1024 then Some (q' * 2 ^ k) else None.

(** [parseInt] gives a number, that is a double: the one nearest to the
    integer that the digits write. *)
Definition parseInt (s : string) : option Z := to_double (parseInt_digits 0 s).

(** The inner function [hex] on what [parseInt] gives: [Infinity] is not
    below 16, and [Infinity.toString(16)] is "Infinity". *)
Definition hex_number (d : option Z) : string :=
  match d with
  | Some d => hex d
  | None => "Infinity"
  end.

(** Exceptions. [TypeError] is the one the code can run into; [BadRef]
    marks a reference that names no object of the modelled heap, which no
    JavaScript run produces. *)
Inductive exn :=
  | TypeError (msg : string)
  | BadRef.

Definition convertColor (v : value) : exn + value :=
  match v with
  | VNum v =>
      let r := Z.land (to_int32 v) 255 in
      let g := Z.land (Z.shiftr (to_int32 v) 8) 255 in
      let b := Z.land (Z.shiftr (to_int32 v) 16) 255 in
      inr (VStr ("#" ++ hex r ++ hex g ++ hex b))
  | VStr v =>
      if String.eqb (String.substring 0 3 v) "rgb" then
        match match_rgb v with
        | Some (g1, g2, g3) =>
            let r := parseInt g1 in
            let g := parseInt g2 in
            let b := parseInt g3 in
            inr (VStr ("#" ++ hex_number r ++ hex_number g ++ hex_number b))
        | None => inr VNull
        end
      else if String.eqb (String.substring 0 1 v) "#" then inr (VStr v)
      else inr VNull
  | VUndef | VNull => inl (TypeError "v is null or undefined")
  | VBool _ => inl (TypeError "v.substr is not a function")
  end.

(** ** JavaScript conversions used by the classes *)

(** [ToBoolean]. *)
Definition truthy (v : value) : bool :=
  match v with
  | VUndef | VNull => false
  | VBool b => b
  | VNum n => negb (n =? 0)
  | VStr s => negb (String.eqb s "")
  end.

(** [ToString], as applied by [+] with a string operand. *)
Definition to_string (v : value) : string :=
  match v with
  | VUndef => "undefined"
  | VNull => "null"
  | VBool true => "true"
  | VBool false => "false"
  | VNum n => number_toString 10 n
  | VStr s => s
  end.

(** [ToNumber] on the integers of the model; [None] is a number that is
    no integer: [NaN], or [Infinity] for digits beyond the doubles, which
    [==] tells apart from every integer alike. A string converts when it
    is empty (to 0) or a run of decimal digits. *)
Definition to_number (v : value) : option Z :=
  match v with
  | VUndef => None
  | VNull => Some 0
  | VBool b => Some (if b then 1 else 0)
  | VNum n => Some n
  | VStr s =>
      match span_digits s with
      | (ds, EmptyString) => parseInt ds
      | _ => None
      end
  end.

(** The operator [==]. *)
Definition loose_eq (a b : value) : bool :=
  match a, b with
  | (VUndef | VNull), (VUndef | VNull) => true
  | (VUndef | VNull), _ | _, (VUndef | VNull) => false
  | VStr s, VStr t => String.eqb s t
  | _, _ =>
      match to_number a, to_number b with
      | Some x, Some y => x =? y
      | _, _ => false
      end
  end.

(** [s.search(/color/) >= 0]. *)
Definition search_color (s : string) : bool :=
  match String.index 0 "color" s with
  | Some _ => true
  | None => false
  end.

(** ** The host environment *)

(** Objects of the document tree are kept in a heap and named by
    reference, as in the program: [this.node] of the in-place strategies is
    the very node of the page. *)
Definition ref := nat.

(** Node type constants (lines 8-19). *)
Definition ELEMENT_NODE : Z := 1.
Definition TEXT_NODE : Z := 3.

(** The inline style properties the code reads or writes. *)
Module Style.
Record t := mk {
  width : string;
  height : string;
  top : string;
  left : string;
  position : string;
  border : string;
  lineHeight : string;
  verticalAlign : string;
}.
Definition empty : t := mk "" "" "" "" "" "" "" "".
Definition set_width (v : string) (s : t) : t :=
  mk v (height s) (top s) (left s) (position s) (border s) (lineHeight s) (verticalAlign s).
Definition set_height (v : string) (s : t) : t :=
  mk (width s) v (top s) (left s) (position s) (border s) (lineHeight s) (verticalAlign s).
Definition set_top (v : string) (s : t) : t :=
  mk (width s) (height s) v (left s) (position s) (border s) (lineHeight s) (verticalAlign s).
Definition set_left (v : string) (s : t) : t :=
  mk (width s) (height s) (top s) v (position s) (border s) (lineHeight s) (verticalAlign s).
Definition set_position (v : string) (s : t) : t :=
  mk (width s) (height s) (top s) (left s) v (border s) (lineHeight s) (verticalAlign s).
Definition set_border (v : string) (s : t) : t :=
  mk (width s) (height s) (top s) (left s) (position s) v (lineHeight s) (verticalAlign s).
Definition set_lineHeight (v : string) (s : t) : t :=
  mk (width s) (height s) (top s) (left s) (position s) (border s) v (verticalAlign s).
Definition set_verticalAlign (v : string) (s : t) : t :=
  mk (width s) (height s) (top s) (left s) (position s) (border s) (lineHeight s) v.
End Style.

(** The three event handlers the file defines (lines 414, 529, 646). *)
Inductive handler := mozSignalIframeChange | webkitCacheSelection | iECacheSelection.

#[global] Instance handler_eq_dec : EqDecision handler.
Proof. solve_decision. Defined.

(** A registration made by [addEventListener(type, handler, capture)] or by
    [attachEvent(type, handler)]. *)
Inductive listener :=
  | Listening (type : string) (h : handler) (capture : bool)
  | Attached (type : string) (h : handler).

#[global] Instance listener_eq_dec : EqDecision listener.
Proof. solve_decision. Defined.

(** [addEventListener] does not register the same triple twice;
    [attachEvent] appends; removing or detaching takes out one matching
    registration and is silent when there is none. *)
Definition add_listener (l : listener) (ls : list listener) : list listener :=
  if bool_decide (l ∈ ls) then ls else ls ++ [l].

Fixpoint remove_listener (l : listener) (ls : list listener) : list listener :=
  match ls with
  | [] => []
  | l' :: ls' => if bool_decide (l = l') then ls' else l' :: remove_listener l ls'
  end.

(** What a document answers to the command queries, and the rendered
    height of its body. [queryCommandValue] gives a string, or a number
    (the packed colour of one host). *)
Inductive hostval := HNum (n : Z) | HStr (s : string).

Definition of_hostval (h : hostval) : value :=
  match h with HNum n => VNum n | HStr s => VStr s end.

Record DocState := mkDocState {
  queryCommandState : string -> bool;
  queryCommandValue : string -> hostval;
  body_offsetHeight : Z;
}.

(** The window of an [iframe] and its document. *)
Record Frame := mkFrame {
  designMode : string;
  frame_doc : DocState;
  written : list string;
  head_links : list (option string);
  doc_listeners : list listener;
  win_listeners : list listener;
}.

(** Where a node hangs: nowhere, in the page's own document itself (as
    its root element does, and what the model does not keep as a node of
    its own, such as the head), under an element, or in the body of the
    document of a frame. *)
Inductive place :=
  | Detached
  | InDocument
  | Under (parent : ref)
  | InBody (frame : ref).

Record Element := mkElement {
  nodeType : Z;
  tagName : string;
  style : Style.t;
  offsetHeight : Z;
  parentNode : place;
  contentEditable : value;
  listeners : list listener;
  innerText : string;
  scrolling : string;
  contentWindow : option Frame;
}.

Definition set_style (f : Style.t -> Style.t) (e : Element) : Element :=
  mkElement (nodeType e) (tagName e) (f (style e)) (offsetHeight e) (parentNode e)
    (contentEditable e) (listeners e) (innerText e) (scrolling e) (contentWindow e).
Definition set_parentNode (p : place) (e : Element) : Element :=
  mkElement (nodeType e) (tagName e) (style e) (offsetHeight e) p
    (contentEditable e) (listeners e) (innerText e) (scrolling e) (contentWindow e).
Definition set_contentEditable (v : value) (e : Element) : Element :=
  mkElement (nodeType e) (tagName e) (style e) (offsetHeight e) (parentNode e)
    v (listeners e) (innerText e) (scrolling e) (contentWindow e).
Definition set_listeners (f : list listener -> list listener) (e : Element) : Element :=
  mkElement (nodeType e) (tagName e) (style e) (offsetHeight e) (parentNode e)
    (contentEditable e) (f (listeners e)) (innerText e) (scrolling e) (contentWindow e).
Definition set_scrolling (v : string) (e : Element) : Element :=
  mkElement (nodeType e) (tagName e) (style e) (offsetHeight e) (parentNode e)
    (contentEditable e) (listeners e) (innerText e) v (contentWindow e).
Definition set_contentWindow (f : option Frame) (e : Element) : Element :=
  mkElement (nodeType e) (tagName e) (style e) (offsetHeight e) (parentNode e)
    (contentEditable e) (listeners e) (innerText e) (scrolling e) f.
Definition set_innerText (v : string) (e : Element) : Element :=
  mkElement (nodeType e) (tagName e) (style e) (offsetHeight e) (parentNode e)
    (contentEditable e) (listeners e) v (scrolling e) (contentWindow e).

(** A document the session can hold in [this.doc]: the page's own
    [document], or the document of a frame. *)
Inductive docref :=
  | TopDocument
  | FrameDocument (iframe : ref).

(** The document a place belongs to: the parents are followed up to a
    node that hangs in a document, or nowhere. [fuel] bounds the number of
    parents; a chain of parents is no longer than the number of nodes. *)
Fixpoint climb (h : gmap ref Element) (fuel : nat) (parent : ref) : option docref :=
  match fuel with
  | O => None
  | S fuel' =>
      match h !! parent with
      | Some e =>
          match parentNode e with
          | Detached => None
          | InDocument => Some TopDocument
          | InBody fr => Some (FrameDocument fr)
          | Under p => climb h fuel' p
          end
      | None => None
      end
  end.

Definition owner (h : gmap ref Element) (fuel : nat) (p : place) : option docref :=
  match p with
  | Detached => None
  | InDocument => Some TopDocument
  | InBody fr => Some (FrameDocument fr)
  | Under parent => climb h fuel parent
  end.

(** The proprietary text range of the Trident host. Its [text] is what the
    code reads; [range_start] counts the characters its start was moved. *)
Record Range := mkRange {
  range_start : Z;
  text : string;
}.

(** The selection object of [window.getSelection()]. *)
Record Selection := mkSelection {
  sel_baseNode : option ref;
  sel_baseOffset : option Z;
  sel_extentNode : option ref;
  sel_extentOffset : option Z;
}.

(** A snapshot of the command states: the array [commandArray] with its
    named properties, in the order they were first assigned. *)
Definition Snapshot := list (string * value).

Fixpoint snapshot_get (a : Snapshot) (k : string) : value :=
  match a with
  | [] => VUndef
  | (k', v) :: a' => if String.eqb k k' then v else snapshot_get a' k
  end.

Fixpoint snapshot_set (a : Snapshot) (k : string) (v : value) : Snapshot :=
  match a with
  | [] => [(k, v)]
  | (k', v') :: a' =>
      if String.eqb k k' then (k', v) :: a' else (k', v') :: snapshot_set a' k v
  end.

(** What [getCommandState] returns: [false] or the array. *)
Inductive cmdstate :=
  | NoState
  | States (a : Snapshot).

(** A function registered as change callback, named by its identity. *)
Definition callback := nat.

(** Calls into the host, in the order they are made. *)
Inductive event :=
  | ConsoleLog (message : string)
  | ExecCommand (d : docref) (command : string) (showUI val : value) (result : bool)
  | StateChangeCallback (f : callback) (arg : cmdstate)
  | WindowFocus (iframe : ref)
  | DocumentOpen (iframe : ref)
  | DocumentWrite (iframe : ref) (html : string)
  | DocumentClose (iframe : ref)
  | SetBaseAndExtent (baseNode : option ref) (baseOffset : option Z)
      (extentNode : option ref) (extentOffset : option Z)
  | MoveStart (r : Range) (unit : string) (count : Z)
  | RangeSelect (r : Range).

(** What the engine decides: the effect and result of
    [execCommand(name, showUI, value)] on a document, the document a new
    frame starts with, where [moveStart] leaves a range, and what a command
    run on the page's own document makes of the selection of the window,
    of the selection of the document and of the text of each node. *)
Record Engine := mkEngine {
  engine_execCommand : string -> DocState -> bool * DocState;
  engine_blank : DocState;
  engine_moveStart : string -> Z -> Range -> Range;
  engine_select : string -> Selection -> Selection;
  engine_range : string -> Range -> Range;
  engine_text : string -> ref -> string -> string;
}.

(** The host environment: the engine, the objects of the tree and the
    allocator, the state of the page's own document, its [style] elements
    (where each hangs, and its [innerHTML]) and its style sheets (where the
    owner of each hangs, and its [href]) in document order, the selection
    of the document and of the window, the three global variables of the
    file, and the trace. *)
Record World := mkWorld {
  engine : Engine;
  heap : gmap ref Element;
  next_ref : ref;
  document : DocState;
  styleElements : list (place * string);
  styleSheets : list (place * option string);
  document_selection : option Range;
  window_selection : Selection;
  EditableGeckoRef : option nat;
  editableWebkitRef : option nat;
  editableIERef : option nat;
  trace : list event;
}.

Definition set_heap (f : gmap ref Element -> gmap ref Element) (w : World) : World :=
  mkWorld (engine w) (f (heap w)) (next_ref w) (document w) (styleElements w) (styleSheets w)
    (document_selection w) (window_selection w) (EditableGeckoRef w)
    (editableWebkitRef w) (editableIERef w) (trace w).
Definition set_next_ref (n : ref) (w : World) : World :=
  mkWorld (engine w) (heap w) n (document w) (styleElements w) (styleSheets w)
    (document_selection w) (window_selection w) (EditableGeckoRef w)
    (editableWebkitRef w) (editableIERef w) (trace w).
Definition set_document (d : DocState) (w : World) : World :=
  mkWorld (engine w) (heap w) (next_ref w) d (styleElements w) (styleSheets w)
    (document_selection w) (window_selection w) (EditableGeckoRef w)
    (editableWebkitRef w) (editableIERef w) (trace w).
Definition set_window_selection (s : Selection) (w : World) : World :=
  mkWorld (engine w) (heap w) (next_ref w) (document w) (styleElements w) (styleSheets w)
    (document_selection w) s (EditableGeckoRef w)
    (editableWebkitRef w) (editableIERef w) (trace w).
Definition set_EditableGeckoRef (o : option nat) (w : World) : World :=
  mkWorld (engine w) (heap w) (next_ref w) (document w) (styleElements w) (styleSheets w)
    (document_selection w) (window_selection w) o
    (editableWebkitRef w) (editableIERef w) (trace w).
Definition set_editableWebkitRef (o : option nat) (w : World) : World :=
  mkWorld (engine w) (heap w) (next_ref w) (document w) (styleElements w) (styleSheets w)
    (document_selection w) (window_selection w) (EditableGeckoRef w)
    o (editableIERef w) (trace w).
Definition set_editableIERef (o : option nat) (w : World) : World :=
  mkWorld (engine w) (heap w) (next_ref w) (document w) (styleElements w) (styleSheets w)
    (document_selection w) (window_selection w) (EditableGeckoRef w)
    (editableWebkitRef w) o (trace w).

(** What the calls into the host leave selected: [select()] makes its
    range the selection of the document, [setBaseAndExtent] sets the
    selection of the window. *)
Definition range_after (es : list event) (s : option Range) : option Range :=
  fold_left (fun s e => match e with RangeSelect r => Some r | _ => s end) es s.
Definition selection_after (es : list event) (s : Selection) : Selection :=
  fold_left
    (fun s e =>
       match e with
       | SetBaseAndExtent a b c d => mkSelection a b c d
       | _ => s
       end) es s.

(** The calls [es] are made: they join the trace, and the host has the
    selection they leave. *)
Definition add_trace (es : list event) (w : World) : World :=
  mkWorld (engine w) (heap w) (next_ref w) (document w) (styleElements w) (styleSheets w)
    (range_after es (document_selection w)) (selection_after es (window_selection w))
    (EditableGeckoRef w) (editableWebkitRef w) (editableIERef w) (trace w ++ es).
Definition emit (e : event) (w : World) : World := add_trace [e] w.

(** The document a place belongs to, in the world [w], and whether an
    [iframe] put there gets a window: it does in the page's own document,
    and in the document of a frame that has its window. *)
Definition document_of (w : World) (p : place) : option docref :=
  owner (heap w) (next_ref w) p.

Definition in_page (w : World) (p : place) : bool :=
  match document_of w p with
  | Some TopDocument => true
  | _ => false
  end.

Definition browsing (w : World) (p : place) : bool :=
  match document_of w p with
  | Some TopDocument => true
  | Some (FrameDocument fr) =>
      match heap w !! fr with
      | Some f => match contentWindow f with Some _ => true | None => false end
      | None => false
      end
  | None => false
  end.

(** A live collection of the page's own document
    ([getElementsByTagName], [styleSheets]): the entries whose element is
    in the document now, in document order. *)
Definition live {A} (w : World) (l : list (place * A)) : list A :=
  List.map snd (List.filter (fun s => in_page w (fst s)) l).

(** What a command run on the page's own document leaves of its
    selections and of the text of its nodes. *)
Definition edit_page (command : string) (w : World) : World :=
  mkWorld (engine w)
    (map_imap
       (fun r e => Some (set_innerText (engine_text (engine w) command r (innerText e)) e))
       (heap w))
    (next_ref w) (document w) (styleElements w) (styleSheets w)
    (engine_range (engine w) command <$> document_selection w)
    (engine_select (engine w) command (window_selection w))
    (EditableGeckoRef w) (editableWebkitRef w) (editableIERef w) (trace w).

(** ** Methods as state transformers *)

Inductive outcome (T A : Type) :=
  | Ret (a : A) (this : T) (w : World)
  | Throw (e : exn) (this : T) (w : World).
Arguments Ret {T A} a this w.
Arguments Throw {T A} e this w.

Definition M (T A : Type) : Type := T -> World -> outcome T A.

Definition ret {T A} (a : A) : M T A := fun this w => Ret a this w.
Definition throw {T A} (e : exn) : M T A := fun this w => Throw e this w.
Definition bind {T A B} (m : M T A) (k : A -> M T B) : M T B :=
  fun this w =>
    match m this w with
    | Ret a this' w' => k a this' w'
    | Throw e this' w' => Throw e this' w'
    end.

Declare Scope js_scope.
Delimit Scope js_scope with js.
Notation "'let*' x := m 'in' k" := (bind m (fun x => k))
  (at level 10, x name, m at level 100, k at level 200) : js_scope.
Notation "m ;; k" := (bind m (fun _ => k))
  (at level 100, k at level 200, right associativity) : js_scope.
Local Open Scope js_scope.

Definition get_this {T} : M T T := fun this w => Ret this this w.
Definition set_this {T} (f : T -> T) : M T unit := fun this w => Ret tt (f this) w.
Definition get_world {T} : M T World := fun this w => Ret w this w.
Definition set_world {T} (f : World -> World) : M T unit := fun this w => Ret tt this (f w).

(** [debug(message, level)] (lines 55-58). *)
Definition debug {T} (message : string) : M T unit := set_world (emit (ConsoleLog message)).

(** Reading and writing an object of the heap. *)
Definition deref {T} (r : ref) : M T Element :=
  let* w := get_world in
  match heap w !! r with
  | Some e => ret e
  | None => throw BadRef
  end.

Definition modify {T} (r : ref) (f : Element -> Element) : M T unit :=
  let* e := deref r in set_world (set_heap (insert r (f e))).

(** A new object of the heap. *)
Definition alloc {T} (e : Element) : M T ref :=
  let* w := get_world in
  let r := next_ref w in
  set_world (fun w => set_next_ref (S r) (set_heap (insert r e) w));;
  ret r.

Definition of_sum {T A} (r : exn + A) : M T A :=
  match r with
  | inl e => throw e
  | inr a => ret a
  end.

(** A loop over a list with a loop-carried variable. *)
Fixpoint for_each {T A B} (l : list A) (acc : B) (body : B -> A -> M T B) : M T B :=
  match l with
  | [] => ret acc
  | x :: l' => let* acc' := body acc x in for_each l' acc' body
  end.

(** Reading a member of a field that may hold [null]. *)
Definition not_null {T A} (o : option A) (what : string) : M T A :=
  match o with
  | Some a => ret a
  | None => throw (TypeError (what ++ " is null"))
  end.

(** The state of the document behind a [docref]. *)
Definition doc_state {T} (d : docref) : M T DocState :=
  match d with
  | TopDocument => let* w := get_world in ret (document w)
  | FrameDocument r =>
      let* e := deref r in
      match contentWindow e with
      | Some f => ret (frame_doc f)
      | None => throw BadRef
      end
  end.

Definition set_frame_doc (d : DocState) (f : Frame) : Frame :=
  mkFrame (designMode f) d (written f) (head_links f) (doc_listeners f) (win_listeners f).

Definition put_doc_state {T} (d : docref) (ds : DocState) : M T unit :=
  match d with
  | TopDocument => set_world (set_document ds)
  | FrameDocument r =>
      modify r (fun e => set_contentWindow (set_frame_doc ds <$> contentWindow e) e)
  end.

(** [d.execCommand(command, false, false)]. On the page's own document
    the command also acts on the selections and on the text of the nodes,
    which the in-place strategies read back; of a frame the code reads back
    the state of its document only. *)
Definition doc_execCommand {T} (d : docref) (command : string) : M T bool :=
  let* ds := doc_state d in
  let* w := get_world in
  let '(result, ds') := engine_execCommand (engine w) command ds in
  put_doc_state d ds';;
  (match d with
   | TopDocument => set_world (edit_page command)
   | FrameDocument _ => ret tt
   end);;
  set_world (emit (ExecCommand d command (VBool false) (VBool false) result));;
  ret result.

(** ** Class [EditableBase] (lines 65-213) *)

Record EditableBase := mkEditableBase {
  self : nat;
  doc : option docref;
  node : option ref;
  cachedCommandArray : option cmdstate;
  stateChangeCallback : option callback;
}.

(** [new EditableBase]; [self] is the identity of the new object. *)
Definition new_EditableBase (self : nat) : EditableBase :=
  mkEditableBase self None None None None.

Definition set_doc (d : option docref) (b : EditableBase) : EditableBase :=
  mkEditableBase (self b) d (node b) (cachedCommandArray b) (stateChangeCallback b).
Definition set_node (n : option ref) (b : EditableBase) : EditableBase :=
  mkEditableBase (self b) (doc b) n (cachedCommandArray b) (stateChangeCallback b).
Definition set_cachedCommandArray (c : option cmdstate) (b : EditableBase) : EditableBase :=
  mkEditableBase (self b) (doc b) (node b) c (stateChangeCallback b).
Definition set_stateChangeCallback (f : option callback) (b : EditableBase) : EditableBase :=
  mkEditableBase (self b) (doc b) (node b) (cachedCommandArray b) f.

(** [this.commands] (lines 80-87). *)
Definition commands : list (string * string) :=
  [("bold", "state"); ("italic", "state"); ("underline", "state");
   ("fontname", "value"); ("fontsize", "value"); ("forecolor", "value")].

(** The property [commandArray] of the object: no statement of the file
    assigns it, so reading [this.commandArray] yields [undefined]. *)
Definition this_commandArray (this : EditableBase) : option Snapshot := None.

(** [checkNodeType] (lines 109-116). *)
Definition checkNodeType (node : option ref) : M EditableBase bool :=
  let* is_element :=
    match node with
    | None => ret false
    | Some r =>
        let* e := deref r in
        ret (truthy (VNum (nodeType e)) && (ELEMENT_NODE =? nodeType e))
    end in
  if is_element : bool then ret true
  else
    debug "checkNodeType() : Incorrect element type";;
    ret false.

(** [setStateChangeCallBack] (lines 146-149). *)
Definition setStateChangeCallBack (callBack : option callback) : M EditableBase unit :=
  set_this (set_stateChangeCallback callBack).

(** The body of the loop of [getCommandState] (lines 160-177), for the
    entry [c] of [this.commands]. *)
Definition getCommandState_step (d : docref) (commandArray : Snapshot)
    (c : string * string) : M EditableBase Snapshot :=
  let command := fst c in
  let type := snd c in
  let* ds := doc_state d in
  let commandArray :=
    if String.eqb type "state"
    then snapshot_set commandArray command (VBool (queryCommandState ds command))
    else if String.eqb type "value"
    then snapshot_set commandArray command (of_hostval (queryCommandValue ds command))
    else snapshot_set commandArray command (VBool false) in
  let* commandArray :=
    if truthy (VStr command) && search_color command
       && truthy (snapshot_get commandArray command)
    then
      let* c := of_sum (convertColor (snapshot_get commandArray command)) in
      ret (snapshot_set commandArray command c)
    else ret commandArray in
  debug ("getCommandState() command=" ++ command ++ " state/value="
         ++ to_string (snapshot_get commandArray command));;
  ret commandArray.

(** [getCommandState] (lines 152-179). *)
Definition getCommandState : M EditableBase cmdstate :=
  let* this := get_this in
  match doc this, node this with
  | Some d, Some _ =>
      let* commandArray := for_each commands ([] : Snapshot) (getCommandState_step d) in
      ret (States commandArray)
  | _, _ => ret NoState
  end.

(** [checkCommandState] (lines 182-212). *)
Definition checkCommandState : M EditableBase value :=
  debug "checkCommandState()";;
  let* commandArray := getCommandState in
  let* this := get_this in
  let* makeCallback :=
    match cachedCommandArray this with
    | Some (States cached) =>
        for_each (map fst cached) false (fun makeCallback i =>
          match this_commandArray this with
          | None => throw (TypeError "this.commandArray is undefined")
          | Some other =>
              if negb (loose_eq (snapshot_get cached i) (snapshot_get other i))
              then
                debug "checkCommandState() - Command Change";;
                ret true
              else ret makeCallback
          end)
    | Some NoState | None => ret true
    end in
  (match makeCallback, stateChangeCallback this with
   | true, Some f =>
       set_this (set_cachedCommandArray (Some commandArray));;
       set_world (emit (StateChangeCallback f commandArray))
   | _, _ => ret tt
   end);;
  ret (VBool true).

(** *** Subclassing *)

(** A subclass holds the fields of [EditableBase] and its own. *)
Class Extends (T : Type) := {
  base : T -> EditableBase;
  with_base : EditableBase -> T -> T;
}.

(** A method of [EditableBase] called on an object of a subclass. *)
Definition inherited {T} `{Extends T} {A} (m : M EditableBase A) : M T A :=
  fun this w =>
    match m (base this) w with
    | Ret a b w' => Ret a (with_base b this) w'
    | Throw e b w' => Throw e (with_base b this) w'
    end.

(** The methods a subclass overrides. *)
Class Editable (T : Type) := {
  Editable_Extends :: Extends T;
  editableOn : option ref -> M T value;
  editableOff : M T value;
  preExecCommand : M T unit;
  postExecCommand : M T unit;
}.

(** [execCommand] (lines 119-137). *)
Definition execCommand {T} `{Editable T} (command : string) : M T value :=
  let* this := get_this in
  match doc (base this) with
  | None => ret (VBool false)
  | Some _ =>
      preExecCommand;;
      let* this := get_this in
      let* d := not_null (doc (base this)) "this.doc" in
      let* r := doc_execCommand d command in
      postExecCommand;;
      inherited checkCommandState;;
      ret (VBool r)
  end.

(** The methods of [EditableBase] itself (lines 93-106, 140, 143). *)
Module Base.
Definition editableOn (node : option ref) : M EditableBase value :=
  let* ok := checkNodeType node in
  if negb ok then ret (VBool false)
  else
    debug "editableOn() : Node was not made editable, no browser specific method overridden";;
    ret (VBool false).

Definition editableOff : M EditableBase value :=
  debug "editableOff() : Node was not made uneditable, no browser specific method overridden";;
  ret (VBool false).

Definition preExecCommand : M EditableBase unit := ret tt.
Definition postExecCommand : M EditableBase unit := ret tt.
End Base.

#[global] Instance EditableBase_Extends : Extends EditableBase :=
  {| base := fun b => b; with_base := fun b _ => b |}.

#[global] Instance EditableBase_Editable : Editable EditableBase :=
  {| editableOn := Base.editableOn;
     editableOff := Base.editableOff;
     preExecCommand := Base.preExecCommand;
     postExecCommand := Base.postExecCommand |}.

(** ** Document operations the subclasses call *)

Definition blank_element (tag : string) : Element :=
  mkElement ELEMENT_NODE tag Style.empty 0 Detached (VStr "inherit") [] "" "" None.

(** [document.createElement(tag)]. *)
Definition createElement {T} (tag : string) : M T ref := alloc (blank_element tag).

(** [node.cloneNode(true)]: a copy with its attributes and content, out of
    the tree, without the listeners and without a window. *)
Definition cloneNode {T} (r : ref) : M T ref :=
  let* e := deref r in
  alloc (mkElement (nodeType e) (tagName e) (style e) (offsetHeight e) Detached
           (contentEditable e) [] (innerText e) (scrolling e) None).

Definition blank_frame (d : DocState) : Frame := mkFrame "off" d [] [] [] [].

(** [parent.replaceChild(newChild, oldChild)], [parent] being where
    [oldChild] hangs: [newChild] takes the place, [oldChild] leaves the
    tree. A frame gets its window when it enters a document that is
    displayed, and loses it when it leaves. *)
Definition replaceChild {T} (newChild oldChild : ref) : M T unit :=
  let* old := deref oldChild in
  let* w := get_world in
  modify newChild (fun e =>
    set_parentNode (parentNode old)
      (if String.eqb (tagName e) "iframe" && browsing w (parentNode old)
       then set_contentWindow (Some (blank_frame (engine_blank (engine w)))) e
       else e));;
  modify oldChild (fun e => set_parentNode Detached (set_contentWindow None e)).

(** [iframe.contentWindow], read for a member. *)
Definition window_of {T} (iframe : ref) : M T Frame :=
  let* e := deref iframe in
  match contentWindow e with
  | Some f => ret f
  | None => throw (TypeError "contentWindow is null")
  end.

Definition modify_window {T} (iframe : ref) (g : Frame -> Frame) : M T unit :=
  let* f := window_of iframe in
  modify iframe (set_contentWindow (Some (g f))).

Definition set_designMode (v : string) (f : Frame) : Frame :=
  mkFrame v (frame_doc f) (written f) (head_links f) (doc_listeners f) (win_listeners f).
Definition set_written (v : list string) (f : Frame) : Frame :=
  mkFrame (designMode f) (frame_doc f) v (head_links f) (doc_listeners f) (win_listeners f).
Definition set_head_links (v : list (option string)) (f : Frame) : Frame :=
  mkFrame (designMode f) (frame_doc f) (written f) v (doc_listeners f) (win_listeners f).
Definition set_doc_listeners (g : list listener -> list listener) (f : Frame) : Frame :=
  mkFrame (designMode f) (frame_doc f) (written f) (head_links f) (g (doc_listeners f)) (win_listeners f).
Definition set_win_listeners (g : list listener -> list listener) (f : Frame) : Frame :=
  mkFrame (designMode f) (frame_doc f) (written f) (head_links f) (doc_listeners f) (g (win_listeners f)).

Definition nl : string := String "010"%char EmptyString.

(** The stub document written into the frame (lines 272-323). *)
Definition stub_html (styleText : string) : string :=
  "<html>" ++
  "<head>" ++
  "<style type='text/css'>" ++ nl ++
  "body,html {" ++ nl ++
  "   background:transparent;" ++ nl ++
  "   padding:0;" ++ nl ++
  "   margin:0;" ++ nl ++
  "}" ++ nl ++
  "body {" ++ nl ++
  "   top:0;" ++ nl ++
  "   left:0;" ++ nl ++
  "   right:0;" ++ nl ++
  "   position:fixed;" ++ nl ++
  "}" ++ nl ++
  "body,div,dl,dt,dd,ul,ol,li,h1,h2,h3,h4,h5,h6,pre,form,fieldset,input,textarea,p,blockquote,th,td {" ++ nl ++
  "   margin:0;" ++ nl ++
  "   padding:0;" ++ nl ++
  "}" ++ nl ++
  "table {" ++ nl ++
  "   border-collapse:collapse;" ++ nl ++
  "   border-spacing:0;" ++ nl ++
  "}" ++ nl ++
  "fieldset,img {" ++ nl ++
  "   border:0;" ++ nl ++
  "}" ++ nl ++
  "address,caption,cite,code,dfn,em,strong,th,var {" ++ nl ++
  "   font-style:normal;" ++ nl ++
  "   font-weight:normal;" ++ nl ++
  "}" ++ nl ++
  "ol,ul {" ++ nl ++
  "   list-style:none;" ++ nl ++
  "}" ++ nl ++
  "caption,th {" ++ nl ++
  "   text-align:left;" ++ nl ++
  "}" ++ nl ++
  "h1,h2,h3,h4,h5,h6 {" ++ nl ++
  "   font-size:100%;" ++ nl ++
  "   font-weight:normal;" ++ nl ++
  "}" ++ nl ++
  "q:before,q:after {" ++ nl ++
  "   content:'';" ++ nl ++
  "}" ++ nl ++
  "abbr,acronym {" ++ nl ++
  "   border:0;" ++ nl ++
  "}" ++ nl ++
  styleText ++
  "</style>" ++
  "</head>" ++
  "<body><div></div></body>" ++
  "</html>".

(** ** Class [EditableGecko] (lines 225-408) *)

Record EditableGecko := mkEditableGecko {
  gecko_base : EditableBase;
  iframe : option ref;
  originalNode : option ref;
}.

(** [new EditableGecko]. *)
Definition new_EditableGecko (self : nat) : EditableGecko :=
  mkEditableGecko (new_EditableBase self) None None.

#[global] Instance EditableGecko_Extends : Extends EditableGecko :=
  {| base := gecko_base;
     with_base := fun b g => mkEditableGecko b (iframe g) (originalNode g) |}.

Definition set_base {T} `{Extends T} (f : EditableBase -> EditableBase) : M T unit :=
  set_this (fun this => with_base (f (base this)) this).

Module Gecko.
Definition set_iframe (r : option ref) : M EditableGecko unit :=
  set_this (fun g => mkEditableGecko (gecko_base g) r (originalNode g)).
Definition set_originalNode (r : option ref) : M EditableGecko unit :=
  set_this (fun g => mkEditableGecko (gecko_base g) (iframe g) r).

(** [update] (lines 389-393). *)
Definition update : M EditableGecko unit :=
  inherited checkCommandState;;
  let* this := get_this in
  let* fr := not_null (iframe this) "this.iframe" in
  let* d := not_null (doc (base this)) "this.doc" in
  let* ds := doc_state d in
  modify fr (set_style (Style.set_height (to_string (VNum (body_offsetHeight ds)) ++ "px"))).

(** [editableOn] (lines 237-356). *)
Definition editableOn (node : option ref) : M EditableGecko value :=
  let* ok := inherited (checkNodeType node) in
  if negb ok then ret (VBool false)
  else
    let* node := not_null node "node" in
    let* fr := createElement "iframe" in
    set_iframe (Some fr);;
    let* n := deref node in
    modify fr (set_style (Style.set_width
      (if truthy (VStr (Style.width (style n))) then Style.width (style n) else "100%")));;
    modify fr (set_style (Style.set_height
      (if truthy (VStr (Style.height (style n))) then Style.height (style n)
       else to_string (VNum (offsetHeight n)) ++ "px")));;
    modify fr (fun f => set_style (Style.set_top
      (if truthy (VStr (Style.top (style n))) then Style.top (style n)
       else Style.top (style f))) f);;
    modify fr (fun f => set_style (Style.set_left
      (if truthy (VStr (Style.left (style n))) then Style.left (style n)
       else Style.left (style f))) f);;
    (if truthy (VStr (Style.position (style n)))
     then
       modify fr (set_style (Style.set_position (Style.position (style n))));;
       modify node (set_style (Style.set_position "static"))
     else ret tt);;
    modify fr (set_style (Style.set_border "none"));;
    modify fr (set_style (Style.set_lineHeight "0"));;
    modify fr (set_style (Style.set_verticalAlign "bottom"));;
    modify fr (set_scrolling "no");;
    let* clone := cloneNode node in
    let* original := cloneNode node in
    set_originalNode (Some original);;
    let* n := deref node in
    (match parentNode n with
     | Detached => throw (TypeError "node.parentNode is null")
     | _ => replaceChild fr node
     end);;
    window_of fr;;
    set_world (emit (DocumentOpen fr));;
    modify_window fr (set_written []);;
    let* w := get_world in
    let* styleText :=
      match live w (styleElements w) with
      | first :: _ => ret (nl ++ nl ++ first ++ nl ++ nl)
      | [] => throw (TypeError "document.getElementsByTagName('style')[0] is undefined")
      end in
    let html := stub_html styleText in
    modify_window fr (fun f => set_written (written f ++ [html]) f);;
    set_world (emit (DocumentWrite fr html));;
    window_of fr;;
    set_world (emit (DocumentClose fr));;
    modify clone (set_parentNode (InBody fr));;
    set_base (set_node (Some clone));;
    for_each (rev (live w (styleSheets w))) tt (fun _ href =>
      modify_window fr (fun f => set_head_links (head_links f ++ [href]) f));;
    modify_window fr (set_designMode "on");;
    set_base (set_doc (Some (FrameDocument fr)));;
    let* this := get_this in
    set_world (set_EditableGeckoRef (Some (self (base this))));;
    modify_window fr (set_doc_listeners (add_listener (Listening "keyup" mozSignalIframeChange true)));;
    modify_window fr (set_doc_listeners (add_listener (Listening "mouseup" mozSignalIframeChange true)));;
    modify_window fr (set_win_listeners (add_listener (Listening "resize" mozSignalIframeChange true)));;
    update;;
    ret VUndef.

(** [editableOff] (lines 359-386). *)
Definition editableOff : M EditableGecko value :=
  let* this := get_this in
  match iframe this with
  | Some fr =>
      modify_window fr (set_doc_listeners (remove_listener (Listening "keyup" mozSignalIframeChange true)));;
      modify_window fr (set_doc_listeners (remove_listener (Listening "mouseup" mozSignalIframeChange true)));;
      modify_window fr (set_win_listeners (remove_listener (Listening "resize" mozSignalIframeChange true)));;
      modify_window fr (set_designMode "off");;
      let* node := not_null (node (base this)) "this.node" in
      let* original := not_null (originalNode this) "this.originalNode" in
      let* o := deref original in
      let* f := deref fr in
      modify node (set_style (Style.set_width
        (if truthy (VStr (Style.width (style o))) then Style.width (style f)
         else Style.width (style o))));;
      modify node (set_style (Style.set_height
        (if truthy (VStr (Style.height (style o))) then Style.height (style f)
         else Style.height (style o))));;
      modify node (set_style (Style.set_position (Style.position (style f))));;
      modify node (set_style (Style.set_top (Style.top (style f))));;
      modify node (set_style (Style.set_left (Style.left (style f))));;
      (match parentNode f with
       | Detached => throw (TypeError "this.iframe.parentNode is null")
       | _ => replaceChild node fr
       end);;
      set_iframe None;;
      set_base (set_node None);;
      set_base (set_doc None);;
      ret VUndef
  | None => ret VUndef
  end.

(** [preExecCommand] (lines 396-400). *)
Definition preExecCommand : M EditableGecko unit :=
  let* this := get_this in
  match iframe this with
  | Some fr =>
      window_of fr;;
      set_world (emit (WindowFocus fr))
  | None => ret tt
  end.

(** [postExecCommand] (lines 403-406). *)
Definition postExecCommand : M EditableGecko unit := update.
End Gecko.

#[global] Instance EditableGecko_Editable : Editable EditableGecko :=
  {| editableOn := Gecko.editableOn;
     editableOff := Gecko.editableOff;
     preExecCommand := Gecko.preExecCommand;
     postExecCommand := Gecko.postExecCommand |}.

(** ** Class [EditableWebkit] (lines 435-523) *)

Record EditableWebkit := mkEditableWebkit {
  webkit_base : EditableBase;
  baseNode : option ref;
  baseOffset : option Z;
  extentNode : option ref;
  extentOffset : option Z;
}.

(** [new EditableWebkit]. *)
Definition new_EditableWebkit (self : nat) : EditableWebkit :=
  mkEditableWebkit (new_EditableBase self) None None None None.

#[global] Instance EditableWebkit_Extends : Extends EditableWebkit :=
  {| base := webkit_base;
     with_base := fun b k =>
       mkEditableWebkit b (baseNode k) (baseOffset k) (extentNode k) (extentOffset k) |}.

Module Webkit.
(** [editableOn] (lines 447-467). *)
Definition editableOn (node : option ref) : M EditableWebkit value :=
  let* ok := inherited (checkNodeType node) in
  if negb ok then ret (VBool false)
  else
    set_base (set_node node);;
    let* n := not_null node "this.node" in
    modify n (set_contentEditable (VBool true));;
    modify n (set_listeners (add_listener (Listening "keypress" webkitCacheSelection true)));;
    modify n (set_listeners (add_listener (Listening "mouseup" webkitCacheSelection true)));;
    set_base (set_doc (Some TopDocument));;
    let* this := get_this in
    set_world (set_editableWebkitRef (Some (self (base this))));;
    ret VUndef.

(** [editableOff] (lines 470-482). *)
Definition editableOff : M EditableWebkit value :=
  let* this := get_this in
  let* n := not_null (node (base this)) "this.node" in
  modify n (set_listeners (remove_listener (Listening "keypress" webkitCacheSelection true)));;
  modify n (set_listeners (remove_listener (Listening "mouseup" webkitCacheSelection true)));;
  modify n (set_contentEditable (VBool false));;
  set_base (set_node None);;
  set_base (set_doc None);;
  ret VUndef.

(** [cacheSelection] (lines 485-493). *)
Definition cacheSelection : M EditableWebkit unit :=
  let* w := get_world in
  let selection := window_selection w in
  set_this (fun k =>
    mkEditableWebkit (webkit_base k) (sel_baseNode selection) (sel_baseOffset selection)
      (sel_extentNode selection) (sel_extentOffset selection)).

(** [highlightSelection] (lines 496-502). *)
Definition highlightSelection : M EditableWebkit unit :=
  let* this := get_this in
  set_world (emit (SetBaseAndExtent (baseNode this) (baseOffset this)
                     (extentNode this) (extentOffset this))).

(** [update] (lines 505-509). *)
Definition update : M EditableWebkit unit :=
  cacheSelection;;
  inherited checkCommandState;;
  ret tt.

(** [preExecCommand] (lines 512-515) and [postExecCommand] (518-521). *)
Definition preExecCommand : M EditableWebkit unit := highlightSelection.
Definition postExecCommand : M EditableWebkit unit := update.
End Webkit.

#[global] Instance EditableWebkit_Editable : Editable EditableWebkit :=
  {| editableOn := Webkit.editableOn;
     editableOff := Webkit.editableOff;
     preExecCommand := Webkit.preExecCommand;
     postExecCommand := Webkit.postExecCommand |}.

(** ** Class [EditableIE] (lines 544-640) *)

Record EditableIE := mkEditableIE {
  ie_base : EditableBase;
  cachedRange : option Range;
  cachedInnerText : option string;
}.

(** [new EditableIE]. *)
Definition new_EditableIE (self : nat) : EditableIE :=
  mkEditableIE (new_EditableBase self) None None.

#[global] Instance EditableIE_Extends : Extends EditableIE :=
  {| base := ie_base;
     with_base := fun b i => mkEditableIE b (cachedRange i) (cachedInnerText i) |}.

(** [a != b] for a cached text ([null] or a string) and a string. *)
Definition text_differs (cached : option string) (live : string) : bool :=
  match cached with
  | Some s => negb (String.eqb s live)
  | None => true
  end.

(** [s.length]. *)
Definition string_length (s : string) : Z := Z.of_nat (String.length s).

Module IE.
Definition set_cachedRange (r : option Range) : M EditableIE unit :=
  set_this (fun i => mkEditableIE (ie_base i) r (cachedInnerText i)).
Definition set_cachedInnerText (s : option string) : M EditableIE unit :=
  set_this (fun i => mkEditableIE (ie_base i) (cachedRange i) s).

(** [editableOn] (lines 556-576). *)
Definition editableOn (node : option ref) : M EditableIE value :=
  let* ok := inherited (checkNodeType node) in
  if negb ok then ret (VBool false)
  else
    set_base (set_node node);;
    let* n := not_null node "this.node" in
    modify n (set_contentEditable (VBool true));;
    modify n (set_listeners (fun ls => (ls ++ [Attached "onkeypress" iECacheSelection])%list));;
    modify n (set_listeners (fun ls => (ls ++ [Attached "onmouseup" iECacheSelection])%list));;
    set_base (set_doc (Some TopDocument));;
    let* this := get_this in
    set_world (set_editableIERef (Some (self (base this))));;
    ret VUndef.

(** [editableOff] (lines 579-591). *)
Definition editableOff : M EditableIE value :=
  let* this := get_this in
  let* n := not_null (node (base this)) "this.node" in
  modify n (set_listeners (remove_listener (Attached "onkeypress" iECacheSelection)));;
  modify n (set_listeners (remove_listener (Attached "onmouseup" iECacheSelection)));;
  modify n (set_contentEditable (VBool false));;
  set_base (set_node None);;
  set_base (set_doc None);;
  ret VUndef.

(** [cacheSelection] (lines 594-601). Only the page's own document has
    the [selection] object. *)
Definition cacheSelection : M EditableIE unit :=
  let* w := get_world in
  match document_selection w with
  | Some range =>
      let* this := get_this in
      let* d := not_null (doc (base this)) "this.doc" in
      (match d with
       | TopDocument => set_cachedRange (Some range)
       | FrameDocument _ => throw (TypeError "this.doc.selection is undefined")
       end);;
      let* n := not_null (node (base this)) "this.node" in
      let* e := deref n in
      set_cachedInnerText (Some (innerText e))
  | None => ret tt
  end.

(** [range.moveStart(unit, count)]. *)
Definition range_moveStart (r : Range) (unit : string) (count : Z) : M EditableIE Range :=
  let* w := get_world in
  set_world (emit (MoveStart r unit count));;
  ret (engine_moveStart (engine w) unit count r).

(** [highlightSelection] (lines 604-619). *)
Definition highlightSelection : M EditableIE unit :=
  let* this := get_this in
  let* n := not_null (node (base this)) "this.node" in
  let* e := deref n in
  (match cachedRange this with
   | Some range =>
       if text_differs (cachedInnerText this) (innerText e)
          && (0 <=? string_length (text range))
       then
         let* moved := range_moveStart range "character" (string_length (text range)) in
         set_cachedRange (Some moved)
       else ret tt
   | None => ret tt
   end);;
  let* this := get_this in
  match cachedRange this with
  | Some range => set_world (emit (RangeSelect range))
  | None => ret tt
  end.

(** [update] (lines 622-626). *)
Definition update : M EditableIE unit :=
  cacheSelection;;
  inherited checkCommandState;;
  ret tt.

(** [preExecCommand] (lines 629-632) and [postExecCommand] (635-638). *)
Definition preExecCommand : M EditableIE unit := highlightSelection.
Definition postExecCommand : M EditableIE unit := update.
End IE.

#[global] Instance EditableIE_Editable : Editable EditableIE :=
  {| editableOn := IE.editableOn;
     editableOff := IE.editableOff;
     preExecCommand := IE.preExecCommand;
     postExecCommand := IE.postExecCommand |}.

(** ** The global event handlers (lines 414-424, 529-533, 646-650) *)

(** The sessions of one class, by identity: what a global variable that
    holds a session refers to. [call_on id m] is the call of the method [m]
    on the object [id]. *)
Definition call_on {T A} (id : nat) (m : M T A) : M (gmap nat T) A :=
  fun objects w =>
    match objects !! id with
    | Some this =>
        match m this w with
        | Ret a this' w' => Ret a (<[id := this']> objects) w'
        | Throw e this' w' => Throw e (<[id := this']> objects) w'
        end
    | None => Throw BadRef objects w
    end.

Module Window.
(** [geckoReceiveIframeChange] (lines 420-424). *)
Definition geckoReceiveIframeChange : M (gmap nat EditableGecko) unit :=
  let* w := get_world in
  match EditableGeckoRef w with
  | Some id => call_on id Gecko.update
  | None => ret tt
  end.

(** [mozSignalIframeChange] (lines 414-417), which runs in the frame and
    calls the function of the parent window. *)
Definition mozSignalIframeChange : M (gmap nat EditableGecko) unit :=
  geckoReceiveIframeChange.

(** [webkitCacheSelection] (lines 529-533). *)
Definition webkitCacheSelection : M (gmap nat EditableWebkit) unit :=
  let* w := get_world in
  match editableWebkitRef w with
  | Some id => call_on id Webkit.update
  | None => ret tt
  end.

(** [iECacheSelection] (lines 646-650). *)
Definition iECacheSelection : M (gmap nat EditableIE) unit :=
  let* w := get_world in
  match editableIERef w with
  | Some id => call_on id IE.update
  | None => ret tt
  end.
End Window.

(** ** Vocabulary of the properties *)




(** The shapes of a colour, as the specification names them. A string
    of decimal digits, a string of white space, and a number in a colour
    text: one decimal digit or more. *)
Fixpoint all_digits (s : string) : bool :=
  match s with
  | String c s' => is_digit c && all_digits s'
  | EmptyString => true
  end.






(** The result of a run, without the state. *)
Definition result_of {T A} (o : outcome T A) : exn + A :=
  match o with
  | Ret a _ _ => inr a
  | Throw e _ _ => inl e
  end.

Definition this_of {T A} (o : outcome T A) : T :=
  match o with
  | Ret _ this _ | Throw _ this _ => this
  end.

Definition world_of {T A} (o : outcome T A) : World :=
  match o with
  | Ret _ _ w | Throw _ _ w => w
  end.

(** [node] names an element of the heap of [w]: what [checkNodeType]
    accepts. *)
Definition is_element (w : World) (node : option ref) : Prop :=
  exists r e, node = Some r /\ heap w !! r = Some e /\ nodeType e = ELEMENT_NODE.

(** [node] is [null], or names a node that is not an element. *)
Definition non_element (w : World) (node : option ref) : Prop :=
  node = None
  \/ exists r e, node = Some r /\ heap w !! r = Some e /\ nodeType e <> ELEMENT_NODE.

(** What [doc_state] reads, when the document is there. *)
Definition read_doc (d : docref) (w : World) : option DocState :=
  match d with
  | TopDocument => Some (document w)
  | FrameDocument r => e ← heap w !! r; frame_doc <$> contentWindow e
  end.

(** The document of the session, when it has one, is there: a frame
    document has its frame in the heap, with its window. *)
Definition doc_ok (this : EditableBase) (w : World) : Prop :=
  match doc this with
  | Some d => is_Some (read_doc d w)
  | None => True
  end.

(** An entry of [this.commands] that is not the boolean state of a colour:
    [convertColor] is given what [queryCommandValue] answered. *)
Definition plain_entry (c : string * string) : bool :=
  String.eqb (snd c) "value" || negb (search_color (fst c)).

(** [n] calls in a row. *)
Fixpoint repeat_call {T A} (n : nat) (m : M T A) : M T unit :=
  match n with
  | O => ret tt
  | S n' => m;; repeat_call n' m
  end.

(** Every run of [m] that returns satisfies [Q]. *)
Definition ensures {T A} (Q : A -> T -> World -> Prop) (m : M T A) : Prop :=
  forall this w a this' w', m this w = Ret a this' w' -> Q a this' w'.


(** The style of the object [r] of the heap. *)
Definition style_of (w : World) (r : ref) : option Style.t := style <$> heap w !! r.

(** The host calls of a trace, without the console output. *)
Definition host_calls (w : World) : list event :=
  List.filter (fun e => match e with ConsoleLog _ => false | _ => true end) (trace w).

(** The object [r] of the heap, and the window of a frame. *)
Definition heap_at (w : World) (r : ref) : Element :=
  default (blank_element "") (heap w !! r).
Definition window_at (w : World) (r : ref) : Frame :=
  default (blank_frame (engine_blank (engine w))) (contentWindow (heap_at w r)).

(** The restored value as the specification words it: the snapshot's
    value, and the frame's current one only when the snapshot has none. *)
Definition claimed_restore (snapshot frame : string) : string :=
  if truthy (VStr snapshot) then snapshot else frame.

(** Console output only. *)
Definition logs_only (w w' : World) : Prop :=
  exists messages : list string, w' = add_trace (ConsoleLog <$> messages) w.

(** Every object of the heap was given out by the allocator. *)
Definition allocated (w : World) : Prop :=
  forall k e, heap w !! k = Some e -> (k < next_ref w)%nat.



(** The place [p] is inside the node [r]: [r] is among its ancestors or
    is its parent. *)
Fixpoint climb_to (h : gmap ref Element) (fuel : nat) (r parent : ref) : bool :=
  match fuel with
  | O => false
  | S fuel' =>
      if Nat.eqb parent r then true
      else
        match h !! parent with
        | Some e =>
            match parentNode e with
            | Under p => climb_to h fuel' r p
            | Detached | InDocument | InBody _ => false
            end
        | None => false
        end
  end.

Definition inside (w : World) (r : ref) (p : place) : bool :=
  match p with
  | Under parent => climb_to (heap w) (next_ref w) r parent
  | Detached | InDocument | InBody _ => false
  end.

(** The heap [h'] has the nodes of [h], each where it was in the tree;
    and the same but for the node [r]. *)
Definition keeps (h h' : gmap ref Element) : Prop :=
  forall k e, h !! k = Some e -> exists e', h' !! k = Some e' /\ parentNode e' = parentNode e.

Definition keeps_but (r : ref) (h h' : gmap ref Element) : Prop :=
  forall k e, k <> r -> h !! k = Some e ->
    exists e', h' !! k = Some e' /\ parentNode e' = parentNode e.

(** ** A small host, for running the methods *)

(** A document whose selection is in bold or not, in red, in font size 3,
    and whose body is [height] pixels high. *)
Definition toy_doc (bold : bool) (height : Z) : DocState :=
  mkDocState
    (fun c => if String.eqb c "bold" then bold else false)
    (fun c => if String.eqb c "forecolor" then HNum 255
              else if String.eqb c "fontsize" then HStr "3" else HStr "")
    height.

(** An engine that knows the command "bold", which toggles the state, and
    the command "delete", which collapses the selection to its start and
    empties the selected text and the text of the nodes, and refuses every
    other command; a new frame has a body of 18 pixels; [moveStart] moves
    by the characters asked for. *)
Definition toy_engine : Engine :=
  mkEngine
    (fun command d =>
       if String.eqb command "bold"
       then (true, mkDocState
                     (fun c => if String.eqb c "bold" then negb (queryCommandState d "bold")
                               else queryCommandState d c)
                     (queryCommandValue d) (body_offsetHeight d))
       else if String.eqb command "delete" then (true, d)
       else (false, d))
    (toy_doc false 18)
    (fun unit count r =>
       mkRange (range_start r + count)
         (String.substring (Z.to_nat count) (String.length (text r) - Z.to_nat count) (text r)))
    (fun command s =>
       if String.eqb command "delete"
       then mkSelection (sel_baseNode s) (sel_baseOffset s) (sel_baseNode s) (sel_baseOffset s)
       else s)
    (fun command r => if String.eqb command "delete" then mkRange (range_start r) "" else r)
    (fun command _ t => if String.eqb command "delete" then "" else t).

Definition toy_body : Element := set_parentNode InDocument (blank_element "body").
Definition toy_div (s : Style.t) : Element :=
  mkElement ELEMENT_NODE "div" s 40 (Under 0%nat) (VStr "inherit") [] "hello world" "" None.
Definition toy_text : Element :=
  mkElement TEXT_NODE "#text" Style.empty 0 (Under 1%nat) (VStr "inherit") [] "hello world" "" None.

(** The page of the examples: a [div] with inline style [s] (reference 1)
    under the body (reference 0), with a text node in it (reference 2); one
    [style] element, a linked and an inline style sheet, all three in the
    head of the document, outside the body; the text "hello" selected. *)
Definition page (s : Style.t) : World :=
  mkWorld toy_engine
    (<[2%nat := toy_text]> (<[1%nat := toy_div s]> (<[0%nat := toy_body]> ∅)))
    3%nat (toy_doc false 0) [(InDocument, "p { margin:0 }")]
    [(InDocument, Some "main.css"); (InDocument, None)]
    (Some (mkRange 0 "hello"))
    (mkSelection None None None None) None None None [].

(** An inline style with every geometry property set. *)
Definition boxed : Style.t := Style.mk "200px" "50px" "1px" "2px" "absolute" "" "" "".

(** The fields of an active in-place session on the [div], with the change
    callback 5 registered and nothing cached, and the same without a
    callback. *)
Definition active_base : EditableBase :=
  mkEditableBase 7 (Some TopDocument) (Some 1%nat) None (Some 5%nat).
Definition silent_base : EditableBase :=
  mkEditableBase 7 (Some TopDocument) (Some 1%nat) None None.

(** A Trident session whose cached text, "hello", is no longer the text
    of the node, "hello world"; the cached range has a text of length 5. *)
Definition drifted : EditableIE :=
  mkEditableIE silent_base (Some (mkRange 0 "hello")) (Some "hello").

(** The sessions and worlds reached by activating each strategy on the
    [div] of [page s], and then deactivating the Gecko one. *)
Definition gecko_activated (s : Style.t) : outcome EditableGecko value :=
  Gecko.editableOn (Some 1%nat) (new_EditableGecko 7) (page s).
Definition gecko_deactivated (s : Style.t) : outcome EditableGecko value :=
  Gecko.editableOff (this_of (gecko_activated s)) (world_of (gecko_activated s)).

(** Each strategy activated on the [div] with the change callback 5
    registered beforehand. *)
Definition gecko_listening : outcome EditableGecko value :=
  (inherited (setStateChangeCallBack (Some 5%nat));; Gecko.editableOn (Some 1%nat))
    (new_EditableGecko 7) (page boxed).
Definition webkit_listening : outcome EditableWebkit value :=
  (inherited (setStateChangeCallBack (Some 5%nat));; Webkit.editableOn (Some 1%nat))
    (new_EditableWebkit 7) (page boxed).
Definition ie_listening : outcome EditableIE value :=
  (inherited (setStateChangeCallBack (Some 5%nat));; IE.editableOn (Some 1%nat))
    (new_EditableIE 7) (page boxed).

(** The snapshot of the command state of the page, the selection in bold
    or not. *)
Definition toy_snapshot (bold : bool) : cmdstate :=
  States [("bold", VBool bold); ("italic", VBool false); ("underline", VBool false);
          ("fontname", VStr ""); ("fontsize", VStr "3"); ("forecolor", VStr "#ff0000")].

(** ** Vocabulary of the further properties *)

(** The text one host gives for a colour: [rgb(r, g, b)], the components
    in decimal. *)
Definition rgb_text (r g b : Z) : string :=
  "rgb(" ++ number_toString 10 r ++ ", " ++ number_toString 10 g ++ ", "
  ++ number_toString 10 b ++ ")".

(** The console line of one entry of the snapshot (line 176). *)
Definition state_line (kv : string * value) : event :=
  ConsoleLog ("getCommandState() command=" ++ fst kv ++ " state/value="
              ++ to_string (snd kv)).

(** What [getCommandState] stores for a colour command whose host answer
    is [raw] (lines 172-174): a falsy answer as it is, any other one
    through [convertColor]. *)
Definition stored_color (raw color : value) : Prop :=
  if truthy raw then convertColor raw = inr color else color = raw.

(** The node handed to [Gecko.editableOn], as the method leaves its
    style: a node with an inline position is made static (lines 256-260). *)
Definition made_static (e : Element) : Element :=
  if truthy (VStr (Style.position (style e)))
  then set_style (Style.set_position "static") e
  else e.




(** * Properties *)

(** ** [convertColor] *)




Lemma hash_prefix_not_rgb (s : string) :
  String.eqb (String.substring 0 1 s) "#" = true ->
  String.eqb (String.substring 0 3 s) "rgb" = false.
Proof.
  destruct s as [|c s]; [done|]. intros H.
  assert (c = "#"%char) as ->.
  { simpl in H. destruct (Ascii.eqb c "#") eqn:E; [by apply Ascii.eqb_eq|done]. }
  reflexivity.
Qed.

Lemma to_int32_small (v : Z) : - 2 ^ 31 <= v < 2 ^ 31 -> to_int32 v = v.
Proof. intros Hv. unfold to_int32. rewrite Z.mod_small; lia. Qed.

Lemma land_255_mod (x : Z) : Z.land x 255 = x mod 256.
Proof. change 255 with (Z.ones 8). by rewrite Z.land_ones by lia. Qed.

(** ** Decimal text and [parseInt] *)

Lemma append_cons (c : ascii) (s t : string) : String c s ++ t = String c (s ++ t).
Proof. reflexivity. Qed.

Lemma append_nil (t : string) : "" ++ t = t.
Proof. reflexivity. Qed.

Lemma append_empty_r (s : string) : s ++ "" = s.
Proof. induction s as [|c s IH]; [done|]. by rewrite append_cons, IH. Qed.

Lemma append_assoc (s t u : string) : (s ++ t) ++ u = s ++ t ++ u.
Proof. induction s as [|c s IH]; [done|]. by rewrite !append_cons, IH. Qed.

Lemma length_append (s t : string) :
  String.length (s ++ t) = (String.length s + String.length t)%nat.
Proof. induction s as [|c s IH]; [done|]. rewrite append_cons. simpl. by rewrite IH. Qed.

Lemma parseInt_digits_app (a : Z) (s t : string) :
  parseInt_digits a (s ++ t) = parseInt_digits (parseInt_digits a s) t.
Proof.
  revert a. induction s as [|c s IH]; intros a; [done|].
  rewrite append_cons. simpl. apply IH.
Qed.

Lemma all_digits_app (s t : string) :
  all_digits (s ++ t) = all_digits s && all_digits t.
Proof.
  induction s as [|c s IH]; [done|].
  rewrite append_cons. simpl. by rewrite IH, andb_assoc.
Qed.

Lemma digit_char_decimal (d : Z) :
  0 <= d < 10 ->
  is_digit (digit_char d) = true /\ Z.of_nat (nat_of_ascii (digit_char d)) - 48 = d.
Proof.
  intros Hd.
  assert (d = 0 \/ d = 1 \/ d = 2 \/ d = 3 \/ d = 4 \/ d = 5 \/ d = 6 \/ d = 7 \/ d = 8 \/ d = 9)
    as Hcases by lia.
  repeat (destruct Hcases as [-> | Hcases]; [by vm_compute|]). by subst.
Qed.

(** With enough fuel, [digits_of] puts the decimal digits of [d] before the
    accumulator, and [parseInt] reads them back. *)
Lemma digits_of_decimal (fuel : nat) :
  forall d acc,
    0 <= d < 10 ^ Z.of_nat (S fuel) ->
    exists ds,
      digits_of 10 fuel d acc = ds ++ acc
      /\ all_digits ds = true /\ ds <> ""
      /\ forall a, parseInt_digits a ds = a * 10 ^ Z.of_nat (String.length ds) + d.
Proof.
  induction fuel as [|fuel IH]; intros d acc Hd.
  - change (10 ^ Z.of_nat 1) with 10 in Hd.
    assert (0 <= d mod 10 < 10) as Hmod by (apply Z.mod_pos_bound; lia).
    destruct (digit_char_decimal (d mod 10) Hmod) as [Hdig Hval].
    exists (String (digit_char (d mod 10)) "").
    simpl. rewrite Hdig. repeat split; try done.
    intros a. rewrite Hval. change (Z.pow_pos 10 1) with 10.
    rewrite Z.mod_small by lia. lia.
  - assert (0 <= d mod 10 < 10) as Hmod by (apply Z.mod_pos_bound; lia).
    destruct (digit_char_decimal (d mod 10) Hmod) as [Hdig Hval].
    simpl digits_of.
    destruct (d / 10 =? 0) eqn:Hq.
    + apply Z.eqb_eq in Hq.
      exists (String (digit_char (d mod 10)) "").
      simpl. rewrite Hdig. repeat split; try done.
      intros a. rewrite Hval. change (Z.pow_pos 10 1) with 10.
      pose proof (Z.div_mod d 10). lia.
    + assert (0 <= d / 10 < 10 ^ Z.of_nat (S fuel)) as Hq'.
      { split; [apply Z.div_pos; lia|].
        apply Z.div_lt_upper_bound; [lia|].
        rewrite <- Z.pow_succ_r by lia. rewrite <- Nat2Z.inj_succ. lia. }
      destruct (IH (d / 10) (String (digit_char (d mod 10)) acc) Hq')
        as (ds & Hrun & Hall & Hne & Hparse).
      exists (ds ++ String (digit_char (d mod 10)) "").
      rewrite Hrun. repeat split.
      * by rewrite append_assoc.
      * rewrite all_digits_app, Hall. simpl. by rewrite Hdig.
      * by destruct ds.
      * intros a. rewrite parseInt_digits_app, Hparse. simpl parseInt_digits. rewrite Hval.
        rewrite length_append. simpl String.length.
        rewrite Nat2Z.inj_add. change (Z.of_nat 1) with 1.
        rewrite Z.pow_add_r by lia. change (10 ^ 1) with 10.
        pose proof (Z.div_mod d 10). lia.
Qed.

Lemma to_double_exact (d : Z) : d < 2 ^ 53 -> to_double d = Some d.
Proof. intros Hd. unfold to_double. by assert ((d <? 2 ^ 53) = true) as -> by lia. Qed.

Lemma number_toString_decimal (d : Z) :
  0 <= d < 2 ^ 53 ->
  all_digits (number_toString 10 d) = true
  /\ number_toString 10 d <> ""
  /\ parseInt (number_toString 10 d) = Some d.
Proof.
  intros [Hd Hexact]. unfold number_toString.
  assert ((d <? 0) = false) as -> by lia.
  destruct (digits_of_decimal (Z.to_nat (Z.log2 d)) d "") as (ds & Hrun & Hall & Hne & Hparse).
  { split; [done|].
    rewrite Nat2Z.inj_succ, Z2Nat.id by apply Z.log2_nonneg.
    destruct (Z.eq_dec d 0) as [->|Hnz]; [by vm_compute|].
    pose proof (Z.log2_spec d). 
    assert (2 ^ Z.succ (Z.log2 d) <= 10 ^ Z.succ (Z.log2 d)).
    { apply Z.pow_le_mono_l. lia. }
    lia. }
  rewrite Hrun, append_empty_r. repeat split; try done.
  unfold parseInt. rewrite Hparse. apply to_double_exact. lia.
Qed.

(** ** The expression of [convertColor] on the text [rgb(r, g, b)] *)

Lemma digit_not_space (c : ascii) : is_digit c = true -> is_space c = false.
Proof.
  unfold is_digit, is_space. generalize (nat_of_ascii c). intros n H.
  apply andb_prop in H as [H1 H2].
  apply Nat.leb_le in H1. apply Nat.leb_le in H2.
  apply orb_false_iff. split; [apply orb_false_iff; split|].
  - apply andb_false_iff. right. apply Nat.leb_gt. lia.
  - apply Nat.eqb_neq. lia.
  - apply Nat.eqb_neq. lia.
Qed.

Lemma skip_spaces_digits (ds rest : string) :
  all_digits ds = true -> ds <> "" -> skip_spaces (ds ++ rest) = ds ++ rest.
Proof.
  destruct ds as [|c ds]; [done|]. intros H _. simpl in H.
  apply andb_prop in H as [H _].
  rewrite append_cons. simpl. by rewrite (digit_not_space c H).
Qed.

Lemma span_digits_app (ds : string) (c : ascii) (rest : string) :
  all_digits ds = true -> is_digit c = false ->
  span_digits (ds ++ String c rest) = (ds, String c rest).
Proof.
  intros Hds Hc. induction ds as [|d ds IH].
  - rewrite append_nil. simpl. by rewrite Hc.
  - simpl in Hds. apply andb_prop in Hds as [Hd Hds].
    rewrite append_cons. simpl. by rewrite Hd, (IH Hds).
Qed.

Lemma digits1_app (ds : string) (c : ascii) (rest : string) :
  all_digits ds = true -> ds <> "" -> is_digit c = false ->
  digits1 (ds ++ String c rest) = Some (ds, String c rest).
Proof.
  intros Hds Hne Hc. unfold digits1. rewrite span_digits_app by done.
  by destruct ds.
Qed.

Lemma substring_all (s : string) : String.substring 0 (String.length s) s = s.
Proof. induction s as [|c s IH]; [done|]. simpl. by rewrite IH. Qed.

Lemma strip_prefix_rgb (t : string) : strip_prefix "rgb" ("rgb" ++ t) = Some t.
Proof.
  unfold strip_prefix. rewrite !append_cons, append_nil. simpl.
  assert (String.prefix "" t = true) as -> by (by destruct t).
  by rewrite Nat.sub_0_r, substring_all.
Qed.

Lemma skip_spaces_other (c : ascii) (s : string) :
  is_space c = false -> skip_spaces (String c s) = String c s.
Proof. intros H. simpl. by rewrite H. Qed.

Lemma skip_spaces_space (c : ascii) (s : string) :
  is_space c = true -> skip_spaces (String c s) = skip_spaces s.
Proof. intros H. simpl. by rewrite H. Qed.

Lemma expect_same (c : ascii) (s : string) : expect c (String c s) = Some s.
Proof. simpl. by rewrite Ascii.eqb_refl. Qed.

Lemma match_rgb_here_text (d1 d2 d3 : string) :
  all_digits d1 = true -> d1 <> "" ->
  all_digits d2 = true -> d2 <> "" ->
  all_digits d3 = true -> d3 <> "" ->
  match_rgb_here ("rgb(" ++ d1 ++ ", " ++ d2 ++ ", " ++ d3 ++ ")") = Some (d1, d2, d3).
Proof.
  intros H1 N1 H2 N2 H3 N3. unfold match_rgb_here.
  change ("rgb(" ++ ?t) with ("rgb" ++ String "(" t).
  rewrite strip_prefix_rgb. rewrite !append_cons, !append_nil.
  cbn [mbind option_bind].
  rewrite (skip_spaces_other "(") by reflexivity. rewrite expect_same.
  cbn [mbind option_bind].
  rewrite skip_spaces_digits, digits1_app by done. cbn [mbind option_bind].
  rewrite (skip_spaces_other ",") by reflexivity. rewrite expect_same.
  cbn [mbind option_bind].
  rewrite (skip_spaces_space " ") by reflexivity.
  rewrite skip_spaces_digits, digits1_app by done. cbn [mbind option_bind].
  rewrite (skip_spaces_other ",") by reflexivity. rewrite expect_same.
  cbn [mbind option_bind].
  rewrite (skip_spaces_space " ") by reflexivity.
  rewrite skip_spaces_digits, digits1_app by done. cbn [mbind option_bind].
  rewrite (skip_spaces_other ")") by reflexivity. by rewrite expect_same.
Qed.

Lemma match_rgb_first (s : string) (g : string * string * string) :
  match_rgb_here s = Some g -> match_rgb s = Some g.
Proof. intros H. destruct s; cbn [match_rgb]; by rewrite H. Qed.

Lemma convertColor_rgb_groups (r g b : Z) :
  0 <= r < 2 ^ 53 -> 0 <= g < 2 ^ 53 -> 0 <= b < 2 ^ 53 ->
  convertColor (VStr (rgb_text r g b)) = inr (VStr ("#" ++ hex r ++ hex g ++ hex b)).
Proof.
  intros Hr Hg Hb.
  destruct (number_toString_decimal r Hr) as (Ar & Nr & Pr).
  destruct (number_toString_decimal g Hg) as (Ag & Ng & Pg).
  destruct (number_toString_decimal b Hb) as (Ab & Nb & Pb).
  unfold convertColor, rgb_text.
  rewrite (match_rgb_first _ _ (match_rgb_here_text _ _ _ Ar Nr Ag Ng Ab Nb)).
  rewrite Pr, Pg, Pb.
  by rewrite !append_cons.
Qed.

Lemma convertColor_packed (v : Z) :
  0 <= v < 2 ^ 24 ->
  convertColor (VNum v)
  = inr (VStr ("#" ++ hex (v mod 256) ++ hex (v / 256 mod 256) ++ hex (v / 65536))).
Proof.
  intros Hv. unfold convertColor.
  rewrite to_int32_small by lia.
  rewrite !land_255_mod, !Z.shiftr_div_pow2 by lia.
  change (2 ^ 8) with 256. change (2 ^ 16) with 65536.
  rewrite (Z.mod_small (v / 65536)); [done|].
  split; [apply Z.div_pos; lia|]. apply Z.div_lt_upper_bound; lia.
Qed.

(** ** The regular expression of [convertColor] and the shape it accepts *)



















(** ** The monad *)

(** How a sequence runs, by what its first statement does. *)
Section Monad.
Context {T A B : Type}.
Implicit Types (m : M T A) (k : A -> M T B).

Lemma bind_Ret m k this w a this1 w1 :
  m this w = Ret a this1 w1 -> bind m k this w = k a this1 w1.
Proof. unfold bind. by intros ->. Qed.

Lemma bind_Throw m k this w e this1 w1 :
  m this w = Throw e this1 w1 -> bind m k this w = Throw e this1 w1.
Proof. unfold bind. by intros ->. Qed.

Lemma bind_inv m k this w b this2 w2 :
  bind m k this w = Ret b this2 w2 ->
  exists a this1 w1, m this w = Ret a this1 w1 /\ k a this1 w1 = Ret b this2 w2.
Proof.
  unfold bind. destruct (m this w) as [a this1 w1|]; [|discriminate].
  intros Hk. by exists a, this1, w1.
Qed.
End Monad.

Lemma bind_Ret_Ret {T A B} (m : M T A) (k : A -> M T B) this w a this1 w1 b this2 w2 :
  m this w = Ret a this1 w1 -> k a this1 w1 = Ret b this2 w2 ->
  bind m k this w = Ret b this2 w2.
Proof. intros Hm Hk. by erewrite bind_Ret by exact Hm. Qed.

(** A first statement that returns whatever the heap holds. *)
Ltac step := erewrite bind_Ret by reflexivity.

(** The rules of [ensures] and of [completes]. *)
Lemma ensures_bind {T A B} (Q : B -> T -> World -> Prop) (m : M T A) (k : A -> M T B) :
  (forall a, ensures Q (k a)) -> ensures Q (bind m k).
Proof.
  intros Hk this w b this' w' Hrun.
  apply bind_inv in Hrun as (a & this1 & w1 & _ & Hrun). by eapply Hk.
Qed.




(** An inherited method runs on the fields of the base class. *)
Lemma inherited_Ret {T} `{Extends T} {A} (m : M EditableBase A) (this : T) w a b w' :
  m (base this) w = Ret a b w' -> inherited m this w = Ret a (with_base b this) w'.
Proof. unfold inherited. by intros ->. Qed.

Lemma inherited_Throw {T} `{Extends T} {A} (m : M EditableBase A) (this : T) w e b w' :
  m (base this) w = Throw e b w' -> inherited m this w = Throw e (with_base b this) w'.
Proof. unfold inherited. by intros ->. Qed.

(** Putting back the base fields just read changes nothing. *)
Lemma gecko_with_base (this : EditableGecko) : with_base (base this) this = this.
Proof. by destruct this. Qed.

Lemma webkit_with_base (this : EditableWebkit) : with_base (base this) this = this.
Proof. by destruct this. Qed.

Lemma ie_with_base (this : EditableIE) : with_base (base this) this = this.
Proof. by destruct this. Qed.

(** Traces only grow, and console output leaves the rest alone. *)
Lemma add_trace_nil w : add_trace [] w = w.
Proof. destruct w. unfold add_trace. simpl. by rewrite app_nil_r. Qed.

Lemma add_trace_app es1 es2 w :
  add_trace es2 (add_trace es1 w) = add_trace (es1 ++ es2) w.
Proof.
  unfold add_trace, range_after, selection_after. cbn.
  by rewrite !fold_left_app, app_assoc.
Qed.

Lemma range_after_logs (messages : list string) (s : option Range) :
  range_after (ConsoleLog <$> messages) s = s.
Proof. unfold range_after. revert s. induction messages as [|m ms IH]; intros s; cbn; auto. Qed.

Lemma selection_after_logs (messages : list string) (s : Selection) :
  selection_after (ConsoleLog <$> messages) s = s.
Proof.
  unfold selection_after. revert s. induction messages as [|m ms IH]; intros s; cbn; auto.
Qed.

Lemma logs_only_refl w : logs_only w w.
Proof. exists []. by rewrite add_trace_nil. Qed.

Lemma logs_only_trans w1 w2 w3 : logs_only w1 w2 -> logs_only w2 w3 -> logs_only w1 w3.
Proof.
  intros [m1 ->] [m2 ->]. exists (m1 ++ m2)%list.
  by rewrite add_trace_app, fmap_app.
Qed.

Lemma logs_only_emit w message : logs_only w (emit (ConsoleLog message) w).
Proof. by exists [message]. Qed.

(** ** The heap and the documents *)

(** The operations on a reference the heap knows. *)
Lemma deref_Ret {T} (r : ref) (this : T) w e :
  heap w !! r = Some e -> deref r this w = Ret e this w.
Proof. intros He. unfold deref, bind, get_world, ret. by rewrite He. Qed.

Lemma modify_Ret {T} (r : ref) f (this : T) w e :
  heap w !! r = Some e ->
  modify r f this w = Ret tt this (set_heap (insert r (f e)) w).
Proof. intros He. unfold modify. by erewrite bind_Ret by by apply deref_Ret. Qed.

Lemma not_null_Ret {T A} (o : option A) what (this : T) w a :
  o = Some a -> not_null o what this w = Ret a this w.
Proof. by intros ->. Qed.

Lemma window_of_Ret {T} (r : ref) (this : T) w e f :
  heap w !! r = Some e -> contentWindow e = Some f -> window_of r this w = Ret f this w.
Proof.
  intros He Hf. unfold window_of. erewrite bind_Ret by by apply deref_Ret. by rewrite Hf.
Qed.

Lemma modify_window_Ret {T} (r : ref) g (this : T) w e f :
  heap w !! r = Some e -> contentWindow e = Some f ->
  modify_window r g this w
  = Ret tt this (set_heap (insert r (set_contentWindow (Some (g f)) e)) w).
Proof.
  intros He Hf. unfold modify_window, window_of.
  erewrite bind_Ret; cycle 1.
  { erewrite bind_Ret by by apply deref_Ret. by rewrite Hf. }
  by apply modify_Ret.
Qed.

Lemma createElement_Ret {T} tag (this : T) w :
  createElement tag this w
  = Ret (next_ref w) this
      (set_next_ref (S (next_ref w)) (set_heap (insert (next_ref w) (blank_element tag)) w)).
Proof. reflexivity. Qed.

Lemma cloneNode_Ret {T} (r : ref) (this : T) w e :
  heap w !! r = Some e ->
  cloneNode r this w
  = Ret (next_ref w) this
      (set_next_ref (S (next_ref w))
         (set_heap (insert (next_ref w)
                      (mkElement (nodeType e) (tagName e) (style e) (offsetHeight e) Detached
                         (contentEditable e) [] (innerText e) (scrolling e) None)) w)).
Proof. intros He. unfold cloneNode. by erewrite bind_Ret by by apply deref_Ret. Qed.

(** Where a node is in the tree: what the rest of the heap may change. *)
Lemma keeps_refl h : keeps h h.
Proof. intros k e He. by exists e. Qed.

Lemma keeps_insert h h' k x :
  keeps h h' -> (forall e, h !! k = Some e -> parentNode x = parentNode e) ->
  keeps h (<[k:=x]> h').
Proof.
  intros Hk Hx j e He. destruct (decide (j = k)) as [->|Hne].
  - exists x. split; [apply lookup_insert_eq|by apply Hx].
  - rewrite lookup_insert_ne by done. by apply Hk.
Qed.

Lemma keeps_keeps_but r h h' : keeps h h' -> keeps_but r h h'.
Proof. intros Hk j e _ He. by apply Hk. Qed.

Lemma keeps_but_insert r h h' k x :
  keeps_but r h h' -> (k <> r -> forall e, h !! k = Some e -> parentNode x = parentNode e) ->
  keeps_but r h (<[k:=x]> h').
Proof.
  intros Hk Hx j e Hj He. destruct (decide (j = k)) as [->|Hne].
  - exists x. split; [apply lookup_insert_eq|by apply Hx].
  - rewrite lookup_insert_ne by done. by apply Hk.
Qed.

Lemma allocated_fresh w k : allocated w -> (next_ref w <= k)%nat -> heap w !! k = None.
Proof.
  intros Hw Hk. destruct (heap w !! k) as [e|] eqn:He; [|done].
  apply Hw in He. lia.
Qed.

Lemma climb_kept h h' n m p d :
  keeps h h' -> (n <= m)%nat -> climb h n p = Some d -> climb h' m p = Some d.
Proof.
  intros Hk. revert m p. induction n as [|n IH]; intros m p Hle; [done|].
  destruct m as [|m]; [lia|]. simpl.
  destruct (h !! p) as [e|] eqn:Hp; [|done].
  destruct (Hk _ _ Hp) as (e' & -> & ->).
  destruct (parentNode e); try done. apply IH. lia.
Qed.


(** A place of the page is still in the page, and displayed, when the
    heap has grown and its nodes are where they were. *)
Lemma in_page_kept w w' p :
  keeps (heap w) (heap w') -> (next_ref w <= next_ref w')%nat ->
  in_page w p = true -> in_page w' p = true.
Proof.
  intros Hk Hle. unfold in_page, document_of.
  destruct p as [| |parent|fr]; simpl; try done.
  destruct (climb (heap w) (next_ref w) parent) as [[|fr]|] eqn:Hc; try done.
  by rewrite (climb_kept _ _ _ _ _ _ Hk Hle Hc).
Qed.

Lemma in_page_browsing w p : in_page w p = true -> browsing w p = true.
Proof. unfold in_page, browsing. by destruct (document_of w p) as [[|fr]|]. Qed.

Lemma in_page_attached w p : in_page w p = true -> p <> Detached.
Proof. by intros Hp ->. Qed.

Lemma browsing_kept w w' p :
  in_page w p = true -> keeps (heap w) (heap w') -> (next_ref w <= next_ref w')%nat ->
  browsing w' p = true.
Proof. intros Hp Hk Hle. by apply in_page_browsing, (in_page_kept w). Qed.


(** A place inside the node [r] is in no document once [r] is out of
    the tree. *)
Lemma climb_to_out h h' r er n m p :
  keeps_but r h h' -> h' !! r = Some er -> parentNode er = Detached ->
  climb_to h n r p = true -> climb h' m p = None.
Proof.
  intros Hk Hr Her. revert m p. induction n as [|n IH]; intros m p; [done|].
  destruct m as [|m]; [done|]. simpl.
  destruct (Nat.eqb_spec p r) as [->|Hne]; [by rewrite Hr, Her|].
  destruct (h !! p) as [e|] eqn:Hp; [|done].
  destruct (Hk _ _ Hne Hp) as (e' & -> & ->).
  destruct (parentNode e); try done. apply IH.
Qed.

Lemma inside_out_of_page w w' r er p :
  keeps_but r (heap w) (heap w') -> heap w' !! r = Some er -> parentNode er = Detached ->
  inside w r p = true -> in_page w' p = false.
Proof.
  intros Hk Hr Her. unfold in_page, document_of, inside.
  destruct p as [| |parent|fr]; simpl; try done.
  intros Hc. by rewrite (climb_to_out _ _ _ _ _ _ _ Hk Hr Her Hc).
Qed.

Lemma live_inside {A} w w' r er (l : list (place * A)) :
  keeps_but r (heap w) (heap w') -> heap w' !! r = Some er -> parentNode er = Detached ->
  List.Forall (fun s => inside w r (fst s) = true) l ->
  live w' l = [].
Proof.
  intros Hk Hr Her Hl. unfold live. induction Hl as [|s l Hs Hl IH]; [done|].
  simpl. by rewrite (inside_out_of_page _ _ _ _ _ Hk Hr Her Hs).
Qed.



(** A node that hangs in the tree passes the parent test. *)
Lemma attached_match {T A} (p : place) (m : M T A) (e : exn) :
  p <> Detached ->
  match p with
  | Detached => throw e
  | _ => m
  end = m.
Proof. by destruct p. Qed.

(** [replaceChild] leaves the style of the node it places. *)
Lemma style_placed (p : place) (o : option Frame) (c : bool) (e : Element) :
  style (set_parentNode p (if c then set_contentWindow o e else e)) = style e.
Proof. by destruct c. Qed.

Lemma parentNode_placed (p : place) (o : option Frame) (c : bool) (e : Element) :
  parentNode (set_parentNode p (if c then set_contentWindow o e else e)) = p.
Proof. by destruct c. Qed.

(** Reading and running a command on a document that is there. *)
Lemma read_doc_logs d w w' : logs_only w w' -> read_doc d w' = read_doc d w.
Proof. by intros [ms ->]. Qed.

Lemma doc_state_read {T} d (this : T) w ds :
  read_doc d w = Some ds -> doc_state d this w = Ret ds this w.
Proof.
  destruct d as [|r]; simpl.
  - by intros [= <-].
  - unfold doc_state, deref, bind, get_world, ret, throw.
    destruct (heap w !! r) as [e|]; simpl; [|done].
    destruct (contentWindow e); simpl; [|done]. by intros [= <-].
Qed.

(** The nodes after a command on the page's own document: the same
    nodes, with the text the engine gives them. *)
Lemma heap_edit_page (command : string) (w : World) (r : ref) (e : Element) :
  heap w !! r = Some e ->
  heap (edit_page command w) !! r
  = Some (set_innerText (engine_text (engine w) command r (innerText e)) e).
Proof. intros He. cbn [heap edit_page]. by rewrite map_lookup_imap, He. Qed.

Lemma doc_execCommand_top {T} (this : T) w command :
  exists r ds,
    doc_execCommand TopDocument command this w
    = Ret r this
        (emit (ExecCommand TopDocument command (VBool false) (VBool false) r)
           (edit_page command (set_document ds w))).
Proof.
  unfold doc_execCommand. step. step.
  destruct (engine_execCommand (engine w) command (document w)) as [r ds].
  by exists r, ds.
Qed.

Lemma doc_execCommand_frame {T} (this : T) w fr ef win command :
  heap w !! fr = Some ef -> contentWindow ef = Some win ->
  exists r ds,
    doc_execCommand (FrameDocument fr) command this w
    = Ret r this
        (emit (ExecCommand (FrameDocument fr) command (VBool false) (VBool false) r)
           (set_heap (insert fr (set_contentWindow (Some (set_frame_doc ds win)) ef)) w)).
Proof.
  intros Hef Hwin. unfold doc_execCommand.
  erewrite bind_Ret by (apply doc_state_read; simpl; rewrite Hef; simpl; by rewrite Hwin).
  step.
  destruct (engine_execCommand (engine w) command (frame_doc win)) as [r ds].
  exists r, ds.
  erewrite bind_Ret by (simpl; erewrite modify_Ret by exact Hef; by rewrite Hwin).
  reflexivity.
Qed.

(** One statement of a method on a node whose heap entry is known. *)
Ltac step_heap H :=
  erewrite bind_Ret
    by (first [ apply modify_Ret | apply deref_Ret ]; simpl;
        first [ exact H | apply lookup_insert_eq ]).

(** The fields of a world built with the setters. *)
Ltac world_nf :=
  cbn [heap next_ref engine document styleElements styleSheets document_selection
       window_selection EditableGeckoRef editableWebkitRef editableIERef trace
       set_heap set_next_ref add_trace emit set_EditableGeckoRef set_document].

(** A lookup after insertions: the references differ by arithmetic. *)
Ltac lookup :=
  world_nf;
  rewrite ?lookup_insert_ne by lia;
  first [ apply lookup_insert_eq | eassumption ].

(** The first statement returns: the lemma is chosen by its head. *)
Ltac run_step :=
  lazymatch goal with
  | |- bind _ _ _ _ = _ => eapply bind_Ret_Ret; [ run_step | cbv beta; run_step ]
  | |- replaceChild _ _ _ _ = _ => unfold replaceChild; run_step
  | |- modify _ _ _ _ = _ => apply modify_Ret; lookup
  | |- deref _ _ _ = _ => apply deref_Ret; lookup
  | |- modify_window _ _ _ _ = _ => eapply modify_window_Ret; [lookup | reflexivity]
  | |- window_of _ _ _ = _ => eapply window_of_Ret; [lookup | reflexivity]
  | |- cloneNode _ _ _ = _ => apply cloneNode_Ret; lookup
  | |- createElement _ _ _ = _ => apply createElement_Ret
  | |- not_null _ _ _ _ = _ => apply not_null_Ret; reflexivity
  | |- doc_state _ _ _ = _ =>
      apply doc_state_read; cbn [read_doc]; world_nf;
      rewrite ?lookup_insert_ne by lia; rewrite lookup_insert_eq; reflexivity
  | |- _ => reflexivity
  end.


(** ** [getCommandState] *)

(** The array of named properties. *)
Lemma snapshot_set_nonempty a k v : snapshot_set a k v <> [].
Proof. destruct a as [|[k' v'] a]; simpl; [done|]. by destruct (String.eqb k k'). Qed.

Lemma snapshot_get_set a k v : snapshot_get (snapshot_set a k v) k = v.
Proof.
  induction a as [|[k' v'] a IH]; simpl.
  - by rewrite String.eqb_refl.
  - destruct (String.eqb k k') eqn:E; simpl; by rewrite E.
Qed.

(** [convertColor] does not throw on what [queryCommandValue] answers. *)
Lemma convertColor_hostval h : exists c, convertColor (of_hostval h) = inr c.
Proof.
  destruct h as [n|s]; simpl; [by eexists|].
  destruct (String.eqb (substring 0 3 s) "rgb").
  - destruct (match_rgb s) as [[[g1 g2] g3]|]; by eexists.
  - destruct (String.eqb (substring 0 1 s) "#"); by eexists.
Qed.

(** No entry of [this.commands] asks for the boolean state of a colour. *)
Lemma commands_plain : forallb plain_entry commands = true.
Proof. vm_compute. reflexivity. Qed.

(** One turn of the loop returns, with one line of console output. *)
Lemma getCommandState_step_returns d ds a c this w :
  read_doc d w = Some ds ->
  plain_entry c = true ->
  exists a' message,
    getCommandState_step d a c this w = Ret a' this (emit (ConsoleLog message) w)
    /\ a' <> [].
Proof.
  intros Hd Hc. destruct c as [command type]. unfold getCommandState_step. simpl in *.
  erewrite bind_Ret by (by apply doc_state_read).
  unfold plain_entry in Hc. simpl in Hc.
  destruct (String.eqb type "state") eqn:Estate.
  - (* a boolean state: a colour command would have type "value" *)
    assert (String.eqb type "value" = false) as Evalue.
    { apply String.eqb_eq in Estate. by subst type. }
    rewrite Evalue in Hc. simpl in Hc. apply negb_true_iff in Hc.
    rewrite Hc, andb_false_r. simpl.
    unfold bind, ret, debug, set_world. simpl.
    eexists _, _. split; [reflexivity|]. apply snapshot_set_nonempty.
  - destruct (String.eqb type "value") eqn:Evalue.
    + rewrite snapshot_get_set.
      match goal with |- context [if ?c then bind _ _ else _] => destruct c end.
      * destruct (convertColor_hostval (queryCommandValue ds command)) as [col Hcol].
        rewrite Hcol. unfold bind, ret, debug, set_world, of_sum. simpl.
        eexists _, _. split; [reflexivity|]. apply snapshot_set_nonempty.
      * unfold bind, ret, debug, set_world. simpl.
        eexists _, _. split; [reflexivity|]. apply snapshot_set_nonempty.
    + simpl in Hc. apply negb_true_iff in Hc.
      rewrite Hc, andb_false_r. simpl.
      unfold bind, ret, debug, set_world. simpl.
      eexists _, _. split; [reflexivity|]. apply snapshot_set_nonempty.
Qed.

Lemma getCommandState_loop d ds l :
  forallb plain_entry l = true ->
  forall a this w,
    read_doc d w = Some ds ->
    exists a' w',
      for_each l a (getCommandState_step d) this w = Ret a' this w'
      /\ logs_only w w' /\ (a <> [] \/ l <> [] -> a' <> []).
Proof.
  induction l as [|c l IH]; intros Hl a this w Hd; simpl in *.
  - exists a, w. split; [done|]. split; [apply logs_only_refl|]. by intros [?|?].
  - apply andb_prop in Hl as [Hc Hl].
    destruct (getCommandState_step_returns d ds a c this w Hd Hc) as (a1 & msg & Hstep & Hne).
    erewrite bind_Ret by exact Hstep.
    destruct (IH Hl a1 this (emit (ConsoleLog msg) w)) as (a' & w' & Hrun & Hlogs & Ha'); [done|].
    exists a', w'. split; [done|]. split.
    + eapply logs_only_trans; [apply logs_only_emit|done].
    + intros _. apply Ha'. by left.
Qed.

(** An active session gets an array with entries; an inactive one [false]. *)
Lemma getCommandState_active this w d n ds :
  doc this = Some d -> node this = Some n -> read_doc d w = Some ds ->
  exists a w',
    getCommandState this w = Ret (States a) this w' /\ logs_only w w' /\ a <> [].
Proof.
  intros Hdoc Hnode Hd. unfold getCommandState.
  unfold bind at 1. unfold get_this. rewrite Hdoc, Hnode.
  destruct (getCommandState_loop d ds commands commands_plain [] this w Hd)
    as (a & w' & Hrun & Hlogs & Ha).
  erewrite bind_Ret by exact Hrun.
  exists a, w'. split; [done|]. split; [done|]. apply Ha. by right.
Qed.

Lemma getCommandState_inactive this w :
  doc this = None \/ node this = None -> getCommandState this w = Ret NoState this w.
Proof.
  unfold getCommandState, bind, get_this, ret.
  intros [H|H]; rewrite H; [done|]. by destruct (doc this).
Qed.

Lemma getCommandState_returns this w :
  doc_ok this w ->
  exists st w',
    getCommandState this w = Ret st this w' /\ logs_only w w'
    /\ (is_Some (doc this) -> is_Some (node this) -> exists a, st = States a /\ a <> []).
Proof.
  unfold doc_ok. intros Hok.
  destruct (doc this) as [d|] eqn:Hdoc; [destruct (node this) as [n|] eqn:Hnode|].
  - destruct Hok as [ds Hd].
    destruct (getCommandState_active this w d n ds Hdoc Hnode Hd) as (a & w' & ? & ? & ?).
    exists (States a), w'. repeat split; try done. by exists a.
  - exists NoState, w. rewrite getCommandState_inactive by auto.
    repeat split; [apply logs_only_refl|]. by intros _ [? ?].
  - exists NoState, w. rewrite getCommandState_inactive by auto.
    repeat split; [apply logs_only_refl|]. by intros [? ?].
Qed.

(** ** [checkCommandState] *)

(** Console output and trace events leave the documents where they are. *)
Lemma doc_ok_logs this w w' : logs_only w w' -> doc_ok this w -> doc_ok this w'.
Proof.
  unfold doc_ok. intros Hlogs. destruct (doc this); [|done].
  by rewrite (read_doc_logs _ _ _ Hlogs).
Qed.

Lemma doc_ok_add_trace this es w : doc_ok this (add_trace es w) <-> doc_ok this w.
Proof. done. Qed.

(** The shape of every run: console output, then the snapshot. *)
Lemma checkCommandState_prefix this w :
  doc_ok this w ->
  exists st w1,
    getCommandState this (emit (ConsoleLog "checkCommandState()") w) = Ret st this w1
    /\ logs_only w w1
    /\ (is_Some (doc this) -> is_Some (node this) -> exists a, st = States a /\ a <> []).
Proof.
  intros Hok.
  destruct (getCommandState_returns this (emit (ConsoleLog "checkCommandState()") w))
    as (st & w1 & Hget & Hlogs & Hst); [done|].
  exists st, w1. split; [done|]. split; [|done].
  eapply logs_only_trans; [apply logs_only_emit|done].
Qed.

(** No usable cache ([null] or [false]): a first observation. *)
Lemma checkCommandState_first this w st w1 :
  cachedCommandArray this = None \/ cachedCommandArray this = Some NoState ->
  getCommandState this (emit (ConsoleLog "checkCommandState()") w) = Ret st this w1 ->
  checkCommandState this w =
    match stateChangeCallback this with
    | Some f =>
        Ret (VBool true) (set_cachedCommandArray (Some st) this)
          (emit (StateChangeCallback f st) w1)
    | None => Ret (VBool true) this w1
    end.
Proof.
  intros Hcache Hget. unfold checkCommandState.
  erewrite bind_Ret by reflexivity.
  erewrite bind_Ret by exact Hget.
  erewrite bind_Ret by reflexivity.
  assert (forall k : bool -> M EditableBase value,
            bind (match cachedCommandArray this with
                  | Some (States cached) =>
                      for_each (map fst cached) false (fun makeCallback i =>
                        match this_commandArray this with
                        | None => throw (TypeError "this.commandArray is undefined")
                        | Some other =>
                            if negb (loose_eq (snapshot_get cached i) (snapshot_get other i))
                            then debug "checkCommandState() - Command Change";; ret true
                            else ret makeCallback
                        end)
                  | Some NoState | None => ret true
                  end) k this w1 = k true this w1) as ->.
  { intros k. by destruct Hcache as [-> | ->]. }
  by destruct (stateChangeCallback this).
Qed.

(** A cached array with an entry: the comparison reads a member of
    [this.commandArray], which is [undefined]. *)
Lemma checkCommandState_cached_throws this w kv a st w1 :
  cachedCommandArray this = Some (States (kv :: a)) ->
  getCommandState this (emit (ConsoleLog "checkCommandState()") w) = Ret st this w1 ->
  checkCommandState this w = Throw (TypeError "this.commandArray is undefined") this w1.
Proof.
  intros Hcache Hget. unfold checkCommandState.
  erewrite bind_Ret by reflexivity.
  erewrite bind_Ret by exact Hget.
  erewrite bind_Ret by reflexivity.
  rewrite Hcache. simpl.
  erewrite bind_Throw; [reflexivity|].
  by erewrite bind_Throw.
Qed.

(** A cached array without entries: nothing to compare, nothing fired. *)
Lemma checkCommandState_cached_empty this w st w1 :
  cachedCommandArray this = Some (States []) ->
  getCommandState this (emit (ConsoleLog "checkCommandState()") w) = Ret st this w1 ->
  checkCommandState this w = Ret (VBool true) this w1.
Proof.
  intros Hcache Hget. unfold checkCommandState.
  erewrite bind_Ret by reflexivity.
  erewrite bind_Ret by exact Hget.
  erewrite bind_Ret by reflexivity.
  by rewrite Hcache.
Qed.


(** First observation with a callback, then any later call. *)
Lemma checkCommandState_fires_then_throws this w d n f :
  doc this = Some d -> node this = Some n -> doc_ok this w ->
  stateChangeCallback this = Some f ->
  cachedCommandArray this = None \/ cachedCommandArray this = Some NoState ->
  exists a w1,
    let this1 := set_cachedCommandArray (Some (States a)) this in
    let w1' := emit (StateChangeCallback f (States a)) w1 in
    checkCommandState this w = Ret (VBool true) this1 w1'
    /\ logs_only w w1
    /\ doc_ok this1 w1'
    /\ forall w2 : World,
         doc_ok this1 w2 ->
         exists w3,
           checkCommandState this1 w2
           = Throw (TypeError "this.commandArray is undefined") this1 w3
           /\ logs_only w2 w3.
Proof.
  intros Hdoc Hnode Hok Hf Hcache.
  destruct (checkCommandState_prefix this w Hok) as (st & w1 & Hget & Hlogs & Hst).
  destruct Hst as (a & -> & Ha); [by rewrite Hdoc | by rewrite Hnode |].
  exists a, w1. cbv zeta. split; [|split; [done|split]].
  - rewrite (checkCommandState_first this w (States a) w1) by auto. by rewrite Hf.
  - apply (doc_ok_add_trace this [StateChangeCallback f (States a)] w1).
    by eapply doc_ok_logs.
  - intros w2 Hok2.
    destruct (checkCommandState_prefix _ w2 Hok2) as (st2 & w3 & Hget2 & Hlogs2 & _).
    destruct a as [|kv a]; [done|].
    exists w3. split; [|done]. by eapply checkCommandState_cached_throws.
Qed.

(** C1. The code departs from the claim. For an active session with a
    registered change callback and no cached snapshot, the first call of
    [checkCommandState] fires the callback and caches the snapshot; the
    next call, whatever the command state is by then, throws a TypeError
    (the comparison reads [this.commandArray], which no statement assigns)
    instead of firing the callback exactly when an entry differs. *)
Theorem checkCommandState_second_call_throws this w d n f :
  doc this = Some d -> node this = Some n -> doc_ok this w ->
  stateChangeCallback this = Some f -> cachedCommandArray this = None ->
  exists a w1,
    let this1 := set_cachedCommandArray (Some (States a)) this in
    let w1' := emit (StateChangeCallback f (States a)) w1 in
    checkCommandState this w = Ret (VBool true) this1 w1'
    /\ doc_ok this1 w1'
    /\ forall w2 : World,
         doc_ok this1 w2 ->
         exists w3,
           checkCommandState this1 w2
           = Throw (TypeError "this.commandArray is undefined") this1 w3.
Proof.
  intros Hdoc Hnode Hok Hf Hcache.
  destruct (checkCommandState_fires_then_throws this w d n f Hdoc Hnode Hok Hf
              (or_introl Hcache)) as (a & w1 & Hfirst & _ & Hok1 & Hnext).
  exists a, w1. cbv zeta. split; [done|]. split; [done|].
  intros w2 Hok2. destruct (Hnext w2 Hok2) as (w3 & Hthrow & _). by exists w3.
Qed.

Lemma checkCommandState_second_call_throws_witness :
  exists a w1,
    let this1 := set_cachedCommandArray (Some (States a)) active_base in
    let w1' := emit (StateChangeCallback 5%nat (States a)) w1 in
    checkCommandState active_base (page Style.empty) = Ret (VBool true) this1 w1'
    /\ doc_ok this1 w1'
    /\ forall w2 : World,
         doc_ok this1 w2 ->
         exists w3,
           checkCommandState this1 w2
           = Throw (TypeError "this.commandArray is undefined") this1 w3.
Proof.
  apply (checkCommandState_second_call_throws active_base (page Style.empty)
           TopDocument 1%nat 5%nat); try reflexivity.
  unfold doc_ok. simpl. eauto.
Defined.

(** C10. [checkCommandState] writes the cached snapshot only where it
    also calls the change callback. With no callback registered and
    nothing cached, a call, and any number of calls in a row, leave the
    session as it was (the cache stays [null]), so each one is again a
    first observation; once a callback is registered, the next check calls
    it with the fresh snapshot and caches that, whatever the command state
    is. *)
Theorem checkCommandState_caches_only_when_firing this w :
  doc_ok this w ->
  (forall v this' w',
      checkCommandState this w = Ret v this' w' ->
      (this' = this /\ logs_only w w')
      \/ exists f st w1,
           stateChangeCallback this = Some f
           /\ this' = set_cachedCommandArray (Some st) this
           /\ logs_only w w1
           /\ w' = emit (StateChangeCallback f st) w1)
  /\ (stateChangeCallback this = None -> cachedCommandArray this = None ->
      forall n : nat,
      exists w',
        repeat_call n checkCommandState this w = Ret tt this w' /\ logs_only w w')
  /\ (forall f : callback,
      cachedCommandArray this = None ->
      exists st w1,
        (setStateChangeCallBack (Some f);; checkCommandState) this w
        = Ret (VBool true)
            (set_cachedCommandArray (Some st) (set_stateChangeCallback (Some f) this))
            (emit (StateChangeCallback f st) w1)
        /\ getCommandState (set_stateChangeCallback (Some f) this)
             (emit (ConsoleLog "checkCommandState()") w)
           = Ret st (set_stateChangeCallback (Some f) this) w1
        /\ logs_only w w1).
Proof.
  intros Hok. split; [|split].
  - intros v this' w' Hrun.
    destruct (checkCommandState_prefix this w Hok) as (st & w1 & Hget & Hlogs & _).
    destruct (cachedCommandArray this) as [[|[|kv a]]|] eqn:Hcache.
    + rewrite (checkCommandState_first this w st w1) in Hrun by auto.
      destruct (stateChangeCallback this) as [f|] eqn:Hf; injection Hrun as <- <- <-.
      * right. by exists f, st, w1.
      * by left.
    + rewrite (checkCommandState_cached_empty this w st w1) in Hrun by auto.
      injection Hrun as <- <- <-. by left.
    + by rewrite (checkCommandState_cached_throws this w kv a st w1) in Hrun.
    + rewrite (checkCommandState_first this w st w1) in Hrun by auto.
      destruct (stateChangeCallback this) as [f|] eqn:Hf; injection Hrun as <- <- <-.
      * right. by exists f, st, w1.
      * by left.
  - intros Hf Hcache n. revert w Hok.
    induction n as [|n IH]; intros w Hok; simpl.
    + exists w. split; [done|apply logs_only_refl].
    + destruct (checkCommandState_prefix this w Hok) as (st & w1 & Hget & Hlogs & _).
      erewrite bind_Ret; cycle 1.
      { rewrite (checkCommandState_first this w st w1) by auto. by rewrite Hf. }
      destruct (IH w1) as (w' & Hrun & Hlogs'); [by eapply doc_ok_logs|].
      exists w'. split; [done|]. by eapply logs_only_trans.
  - intros f Hcache.
    assert (doc_ok (set_stateChangeCallback (Some f) this) w) as Hok1 by done.
    destruct (checkCommandState_prefix _ w Hok1) as (st & w1 & Hget & Hlogs & _).
    exists st, w1. split; [|by split].
    erewrite bind_Ret by reflexivity.
    by rewrite (checkCommandState_first _ w st w1) by auto.
Qed.

Lemma checkCommandState_caches_only_when_firing_witness :
  exists w',
    repeat_call 3 checkCommandState silent_base (page Style.empty) = Ret tt silent_base w'
    /\ logs_only (page Style.empty) w'.
Proof.
  assert (doc_ok silent_base (page Style.empty)) as Hok.
  { unfold doc_ok. simpl. eauto. }
  exact (proj1 (proj2 (checkCommandState_caches_only_when_firing
                         silent_base (page Style.empty) Hok))
           eq_refl eq_refl 3%nat).
Defined.

(** ** [execCommand] on an inactive session *)

(** C8. For every session without a host context ([this.doc] is [null]),
    of any strategy, and every command, [execCommand] returns [false] and
    changes neither the session nor the host environment: no call of a
    hook or of the change callback is made. *)
Theorem execCommand_inactive {T} `{Editable T} (this : T) (w : World) (command : string) :
  doc (base this) = None ->
  execCommand command this w = Ret (VBool false) this w.
Proof.
  intros Hdoc. unfold execCommand.
  erewrite bind_Ret by reflexivity. by rewrite Hdoc.
Qed.

Lemma execCommand_inactive_witness :
  execCommand "bold" (new_EditableIE 7) (page Style.empty)
  = Ret (VBool false) (new_EditableIE 7) (page Style.empty).
Proof. apply (execCommand_inactive (new_EditableIE 7)). reflexivity. Defined.

(** ** Activation *)

(** [checkNodeType] decides between [non_element] and [is_element]. *)
Lemma checkNodeType_non_element node this w :
  non_element w node ->
  checkNodeType node this w
  = Ret false this (emit (ConsoleLog "checkNodeType() : Incorrect element type") w).
Proof.
  unfold checkNodeType. intros [-> | (r & e & -> & He & Hty)].
  - reflexivity.
  - unfold bind at 1. unfold bind at 1. unfold deref, bind, get_world, ret.
    rewrite He.
    assert ((ELEMENT_NODE =? nodeType e) = false) as ->.
    { apply Z.eqb_neq. congruence. }
    by rewrite andb_false_r.
Qed.

Lemma checkNodeType_element node this w :
  is_element w node -> checkNodeType node this w = Ret true this w.
Proof.
  unfold checkNodeType. intros (r & e & -> & He & Hty).
  unfold bind at 1. unfold bind at 1. unfold deref, bind, get_world, ret.
  rewrite He, Hty. reflexivity.
Qed.




(** C9. For every strategy and every node that is not an element ([null],
    a text node, ...), [editableOn] returns [false]; the session is the
    one before the call and so is the host environment (heap, listeners,
    documents), but for the diagnostic written to the console. *)
Theorem editableOn_non_element (node : option ref) (w : World) :
  non_element w node ->
  let w' := emit (ConsoleLog "checkNodeType() : Incorrect element type") w in
  (forall this : EditableGecko, Gecko.editableOn node this w = Ret (VBool false) this w')
  /\ (forall this : EditableWebkit, Webkit.editableOn node this w = Ret (VBool false) this w')
  /\ (forall this : EditableIE, IE.editableOn node this w = Ret (VBool false) this w')
  /\ (forall this : EditableBase, Base.editableOn node this w = Ret (VBool false) this w').
Proof.
  intros Hnode w'. repeat split; intros this.
  - unfold Gecko.editableOn.
    erewrite bind_Ret
      by (apply inherited_Ret, checkNodeType_non_element, Hnode).
    by rewrite gecko_with_base.
  - unfold Webkit.editableOn.
    erewrite bind_Ret
      by (apply inherited_Ret, checkNodeType_non_element, Hnode).
    by rewrite webkit_with_base.
  - unfold IE.editableOn.
    erewrite bind_Ret
      by (apply inherited_Ret, checkNodeType_non_element, Hnode).
    by rewrite ie_with_base.
  - unfold Base.editableOn.
    by erewrite bind_Ret by (apply checkNodeType_non_element, Hnode).
Qed.

Lemma editableOn_non_element_witness :
  let w' := emit (ConsoleLog "checkNodeType() : Incorrect element type") (page Style.empty) in
  Gecko.editableOn (Some 2%nat) (new_EditableGecko 7) (page Style.empty)
  = Ret (VBool false) (new_EditableGecko 7) w'
  /\ Webkit.editableOn (Some 2%nat) (new_EditableWebkit 7) (page Style.empty)
     = Ret (VBool false) (new_EditableWebkit 7) w'
  /\ IE.editableOn (Some 2%nat) (new_EditableIE 7) (page Style.empty)
     = Ret (VBool false) (new_EditableIE 7) w'
  /\ Base.editableOn None (new_EditableBase 7) (page Style.empty)
     = Ret (VBool false) (new_EditableBase 7) w'.
Proof.
  assert (non_element (page Style.empty) (Some 2%nat)) as Htext.
  { right. exists 2%nat, toy_text.
    split; [reflexivity|]. split; [reflexivity|].
    unfold toy_text, ELEMENT_NODE, TEXT_NODE. simpl. lia. }
  assert (non_element (page Style.empty) None) as Hnull by (by left).
  pose proof (editableOn_non_element (Some 2%nat) (page Style.empty) Htext)
    as (Hgecko & Hwebkit & Hie & _).
  pose proof (editableOn_non_element None (page Style.empty) Hnull) as (_ & _ & _ & Hbase).
  intros w'. split; [apply Hgecko|]. split; [apply Hwebkit|]. split; [apply Hie|apply Hbase].
Defined.





(** The nodes of the heap are where they were after insertions that
    leave the place of a node alone. *)
Ltac kept He Hw :=
  world_nf;
  repeat first
    [ apply keeps_refl
    | apply keeps_insert;
        [ | let x := fresh in
            intros x;
            first [ rewrite (allocated_fresh _ _ Hw) by lia; discriminate
                  | rewrite He; intros [= <-]; reflexivity ] ]
    | apply keeps_but_insert;
        [ | let x := fresh in let Hne := fresh in
            intros Hne x;
            first [ rewrite (allocated_fresh _ _ Hw) by lia; discriminate
                  | by destruct Hne
                  | rewrite He; intros [= <-]; reflexivity ] ]
    | apply keeps_keeps_but ].





Lemma page_allocated s : allocated (page s).
Proof.
  intros k e. unfold page. cbn [heap next_ref].
  destruct k as [|[|[|k]]]; [lia..|].
  rewrite !lookup_insert_ne by lia. by rewrite lookup_empty.
Qed.



(** ** Deactivation *)

(** Without a frame, [Gecko.editableOff] does nothing. *)
Lemma gecko_editableOff_inactive (this : EditableGecko) w :
  iframe this = None -> Gecko.editableOff this w = Ret VUndef this w.
Proof.
  intros Hframe. unfold Gecko.editableOff.
  erewrite bind_Ret by reflexivity. by rewrite Hframe.
Qed.

(** A completed [Gecko.editableOff] leaves the session without a frame. *)
Lemma gecko_editableOff_clears :
  ensures (fun v this' _ => v = VUndef /\ iframe this' = None) Gecko.editableOff.
Proof.
  intros this w v this' w'. unfold Gecko.editableOff.
  erewrite bind_Ret by reflexivity.
  destruct (iframe this) as [fr|] eqn:Hframe.
  - intros Hrun.
    match type of Hrun with
    | ?m _ _ = _ =>
        assert (ensures (fun v this' _ => v = VUndef /\ iframe this' = None) m) as Hens
    end.
    { do 14 (apply ensures_bind; intros ?).
      intros this0 w0 v0 this1 w1 [= <- <- <-]. by split. }
    exact (Hens _ _ _ _ _ Hrun).
  - by intros [= <- <- <-].
Qed.

(** C2, as the code has it. For the Gecko strategy, [editableOff] on an
    inactive session (no frame held) is a no-op: it returns no value
    ([undefined]), writes no diagnostic, changes nothing and does not
    throw; and after any completed [editableOff], so after an activation
    and deactivation, a second [editableOff] is such a no-op. *)
Theorem gecko_editableOff_twice (this : EditableGecko) (w : World) :
  (iframe this = None -> Gecko.editableOff this w = Ret VUndef this w)
  /\ (forall v this' w',
        Gecko.editableOff this w = Ret v this' w' ->
        v = VUndef /\ Gecko.editableOff this' w' = Ret VUndef this' w').
Proof.
  split.
  - apply gecko_editableOff_inactive.
  - intros v this' w' Hrun.
    destruct (gecko_editableOff_clears _ _ _ _ _ Hrun) as [-> Hframe].
    split; [done|]. by apply gecko_editableOff_inactive.
Qed.

Lemma gecko_editableOff_twice_witness :
  Gecko.editableOff (new_EditableGecko 7) (page boxed)
  = Ret VUndef (new_EditableGecko 7) (page boxed)
  /\ Gecko.editableOff (this_of (gecko_deactivated boxed)) (world_of (gecko_deactivated boxed))
     = Ret VUndef (this_of (gecko_deactivated boxed)) (world_of (gecko_deactivated boxed)).
Proof.
  split.
  - apply (proj1 (gecko_editableOff_twice (new_EditableGecko 7) (page boxed))).
    reflexivity.
  - apply (proj2 (gecko_editableOff_twice (this_of (gecko_activated boxed))
                    (world_of (gecko_activated boxed))) VUndef).
    vm_compute. reflexivity.
Defined.

(** C2, as the claim states it, fails. On a session that was never
    activated, [editableOff] of the Webkit and of the Trident strategy
    throws a TypeError ([this.node] is [null]); that of the Gecko strategy
    returns [undefined], not [false], and writes nothing to the console.
    The same happens at a second [editableOff] after an activation and a
    deactivation. *)
Lemma editableOff_inactive_counterexample :
  result_of (Webkit.editableOff (new_EditableWebkit 7) (page boxed))
  = inl (TypeError "this.node is null")
  /\ result_of (IE.editableOff (new_EditableIE 7) (page boxed))
     = inl (TypeError "this.node is null")
  /\ result_of ((Webkit.editableOn (Some 1%nat);; Webkit.editableOff;; Webkit.editableOff)
                  (new_EditableWebkit 7) (page boxed))
     = inl (TypeError "this.node is null")
  /\ Gecko.editableOff (new_EditableGecko 7) (page boxed)
     = Ret VUndef (new_EditableGecko 7) (page boxed)
  /\ VUndef <> VBool false
  /\ trace (page boxed) = [].
Proof. repeat split; try (vm_compute; reflexivity). discriminate. Qed.

(** ** Geometry put back by [Gecko.editableOff] *)

(** C4, as the code has it. When the Gecko strategy deactivates a session
    holding the frame [fr], the node [n] and the snapshot [o] of the
    original node, [editableOff] completes and puts [n] where the frame
    was. Its width and its height are the frame's current value when the
    snapshot has an inline value for that property, and the snapshot's own,
    empty, value when it has none; position, top and left are the frame's. *)
Theorem gecko_editableOff_geometry (this : EditableGecko) (w : World)
    (fr n o : ref) (ef en eo : Element) (win : Frame) :
  iframe this = Some fr -> node (base this) = Some n -> originalNode this = Some o ->
  heap w !! fr = Some ef -> heap w !! n = Some en -> heap w !! o = Some eo ->
  contentWindow ef = Some win -> parentNode ef <> Detached ->
  n <> fr -> o <> fr ->
  exists w' en',
    Gecko.editableOff this w
    = Ret VUndef
        (mkEditableGecko (set_doc None (set_node None (gecko_base this))) None (Some o)) w'
    /\ heap w' !! n = Some en'
    /\ parentNode en' = parentNode ef
    /\ (Style.width (style eo) <> "" -> Style.width (style en') = Style.width (style ef))
    /\ (Style.width (style eo) = "" -> Style.width (style en') = "")
    /\ (Style.height (style eo) <> "" -> Style.height (style en') = Style.height (style ef))
    /\ (Style.height (style eo) = "" -> Style.height (style en') = "")
    /\ Style.position (style en') = Style.position (style ef)
    /\ Style.top (style en') = Style.top (style ef)
    /\ Style.left (style en') = Style.left (style ef).
Proof.
  intros Hframe Hnode Horig Hef Hen Heo Hwin Hparent Hn Ho.
  eexists _, _. split.
  - unfold Gecko.editableOff.
    step. rewrite Hframe.
    erewrite bind_Ret by (by eapply modify_window_Ret).
    do 3 (erewrite bind_Ret
            by (eapply modify_window_Ret; [simpl; apply lookup_insert_eq | reflexivity])).
    erewrite bind_Ret by (by apply not_null_Ret).
    erewrite bind_Ret by (by apply not_null_Ret).
    erewrite bind_Ret
      by (apply deref_Ret; simpl; rewrite !lookup_insert_ne by done; exact Heo).
    erewrite bind_Ret by (apply deref_Ret; simpl; apply lookup_insert_eq).
    erewrite bind_Ret
      by (apply modify_Ret; simpl; rewrite !lookup_insert_ne by done; exact Hen).
    do 4 (erewrite bind_Ret by (apply modify_Ret; simpl; apply lookup_insert_eq)).
    erewrite bind_Ret; cycle 1.
    { cbn [parentNode set_contentWindow].
      destruct (parentNode ef) eqn:Hp; [done| | |].
      all: unfold replaceChild.
      all: erewrite bind_Ret
             by (apply deref_Ret; simpl; rewrite !lookup_insert_ne by done;
                 apply lookup_insert_eq).
      all: erewrite bind_Ret by reflexivity.
      all: erewrite bind_Ret by (apply modify_Ret; simpl; apply lookup_insert_eq).
      all: apply modify_Ret; simpl; rewrite lookup_insert_ne by done.
      all: rewrite !lookup_insert_ne by done; apply lookup_insert_eq. }
    step. step. step.
    unfold ret. cbn [with_base base EditableGecko_Extends gecko_base iframe originalNode].
    rewrite Horig. reflexivity.
  - simpl heap. rewrite lookup_insert_ne by done. rewrite lookup_insert_eq.
    split; [reflexivity|].
    rewrite parentNode_placed, style_placed. simpl.
    split; [reflexivity|].
    unfold truthy.
    repeat split.
    + intros Hw. apply String.eqb_neq in Hw. by rewrite Hw.
    + intros Hw. rewrite Hw. reflexivity.
    + intros Hh. apply String.eqb_neq in Hh. by rewrite Hh.
    + intros Hh. rewrite Hh. reflexivity.
Qed.

Lemma gecko_editableOff_geometry_witness :
  exists w' en',
    Gecko.editableOff (this_of (gecko_activated boxed)) (world_of (gecko_activated boxed))
    = Ret VUndef (mkEditableGecko (new_EditableBase 7) None (Some 5%nat)) w'
    /\ heap w' !! 4%nat = Some en'
    /\ parentNode en' = Under 0%nat
    /\ Style.width (style en') = "200px"
    /\ Style.height (style en') = "18px".
Proof.
  pose (w := world_of (gecko_activated boxed)).
  pose proof (gecko_editableOff_geometry (this_of (gecko_activated boxed)) w
                3%nat 4%nat 5%nat (heap_at w 3%nat) (heap_at w 4%nat) (heap_at w 5%nat)
                (window_at w 3%nat)) as H.
  do 7 (specialize (H ltac:(vm_compute; reflexivity))).
  do 3 (specialize (H ltac:(vm_compute; discriminate))).
  destruct H as (w' & en' & Hrun & Hen' & Hparent & Hwidth & _ & Hheight & _).
  exists w', en'.
  split; [exact Hrun|]. split; [exact Hen'|].
  split; [rewrite Hparent; vm_compute; reflexivity|]. split.
  - rewrite Hwidth; [vm_compute; reflexivity | vm_compute; discriminate].
  - rewrite Hheight; [vm_compute; reflexivity | vm_compute; discriminate].
Defined.

(** C4, as the claim states it, fails. A [div] without inline width and
    height is activated and deactivated: the snapshot has neither, the
    frame has the width 100% and the height 18px, and the node put back
    under the body has neither, not the frame's values. A [div] with the
    inline height 50px: the snapshot has 50px, the frame has by then the
    height of its body, 18px, and the node put back has the frame's 18px,
    not the snapshot's 50px. *)
Lemma gecko_restore_counterexample :
  let v := world_of (gecko_activated Style.empty) in
  let v' := world_of (gecko_deactivated Style.empty) in
  let w := world_of (gecko_activated boxed) in
  let w' := world_of (gecko_deactivated boxed) in
  this_of (gecko_activated Style.empty)
  = mkEditableGecko
      (mkEditableBase 7 (Some (FrameDocument 3%nat)) (Some 4%nat) None None)
      (Some 3%nat) (Some 5%nat)
  /\ result_of (gecko_deactivated Style.empty) = inr VUndef
  /\ Style.width <$> style_of v 5%nat = Some ""
  /\ Style.width <$> style_of v 3%nat = Some "100%"
  /\ Style.height <$> style_of v 5%nat = Some ""
  /\ Style.height <$> style_of v 3%nat = Some "18px"
  /\ parentNode <$> heap v' !! 4%nat = Some (Under 0%nat)
  /\ Style.width <$> style_of v' 4%nat = Some ""
  /\ Style.width <$> style_of v' 4%nat <> Some (claimed_restore "" "100%")
  /\ Style.height <$> style_of v' 4%nat = Some ""
  /\ Style.height <$> style_of v' 4%nat <> Some (claimed_restore "" "18px")
  /\ this_of (gecko_activated boxed) = this_of (gecko_activated Style.empty)
  /\ result_of (gecko_deactivated boxed) = inr VUndef
  /\ Style.height <$> style_of w 5%nat = Some "50px"
  /\ Style.height <$> style_of w 3%nat = Some "18px"
  /\ parentNode <$> heap w' !! 4%nat = Some (Under 0%nat)
  /\ Style.height <$> style_of w' 4%nat = Some "18px"
  /\ Style.height <$> style_of w' 4%nat <> Some (claimed_restore "50px" "18px").
Proof.
  cbv zeta.
  repeat match goal with |- _ /\ _ => split end;
    first [ vm_compute; reflexivity | vm_compute; discriminate ].
Qed.

(** ** Selection restore of the Trident strategy *)

(** C6. In [highlightSelection] of [EditableIE], with a node and a cached
    range: when the cached text differs from the live text of the node,
    the start of the range is moved forward by exactly the length of the
    text of the cached range ([moveStart("character", length)]) and the
    moved range is then selected; when the cached text is the live text,
    the cached range is selected as it is. A text length is never
    negative, so the third test of the condition always holds. *)
Theorem highlightSelection_moves_start (this : EditableIE) (w : World)
    (n : ref) (e : Element) (range : Range) :
  node (base this) = Some n -> heap w !! n = Some e ->
  cachedRange this = Some range ->
  0 <= string_length (text range)
  /\ (text_differs (cachedInnerText this) (innerText e) = true ->
      let count := string_length (text range) in
      let moved := engine_moveStart (engine w) "character" count range in
      IE.highlightSelection this w
      = Ret tt (mkEditableIE (ie_base this) (Some moved) (cachedInnerText this))
          (add_trace [MoveStart range "character" count; RangeSelect moved] w))
  /\ (cachedInnerText this = Some (innerText e) ->
      IE.highlightSelection this w = Ret tt this (emit (RangeSelect range) w)).
Proof.
  intros Hnode He Hrange.
  assert (0 <= string_length (text range)) as Hlen by (unfold string_length; lia).
  split; [done|]. split.
  - intros Hdiff. cbv zeta. unfold IE.highlightSelection.
    erewrite bind_Ret by reflexivity.
    rewrite Hnode.
    erewrite bind_Ret by reflexivity.
    erewrite bind_Ret by (unfold deref, bind, get_world; rewrite He; reflexivity).
    rewrite Hrange, Hdiff.
    apply Z.leb_le in Hlen. rewrite Hlen. simpl.
    unfold bind, IE.range_moveStart, IE.set_cachedRange, get_world, set_world,
      set_this, get_this, ret, emit. simpl.
    by rewrite add_trace_app.
  - intros Htext. unfold IE.highlightSelection.
    erewrite bind_Ret by reflexivity.
    rewrite Hnode.
    erewrite bind_Ret by reflexivity.
    erewrite bind_Ret by (unfold deref, bind, get_world; rewrite He; reflexivity).
    rewrite Hrange, Htext. unfold text_differs. rewrite String.eqb_refl. simpl.
    erewrite bind_Ret by reflexivity.
    erewrite bind_Ret by reflexivity.
    by rewrite Hrange.
Qed.

Lemma highlightSelection_moves_start_witness :
  IE.highlightSelection drifted (page Style.empty)
  = Ret tt
      (mkEditableIE (ie_base drifted) (Some (mkRange 5 "")) (Some "hello"))
      (add_trace [MoveStart (mkRange 0 "hello") "character" 5; RangeSelect (mkRange 5 "")]
         (page Style.empty)).
Proof.
  apply (proj1 (proj2 (highlightSelection_moves_start drifted (page Style.empty)
                         1%nat (toy_div Style.empty) (mkRange 0 "hello")
                         eq_refl eq_refl eq_refl))).
  reflexivity.
Defined.

(** ** [execCommand] on an active session *)

(** The hooks of the Trident strategy return on a session with its node. *)
Lemma ie_highlightSelection_returns (this : EditableIE) w n e :
  node (base this) = Some n -> heap w !! n = Some e ->
  exists range es,
    IE.highlightSelection this w
    = Ret tt (mkEditableIE (ie_base this) range (cachedInnerText this)) (add_trace es w).
Proof.
  intros Hnode He. unfold IE.highlightSelection.
  step. rewrite Hnode. step. erewrite bind_Ret by (by apply deref_Ret).
  destruct this as [b [range|] cached]; simpl.
  - destruct (text_differs cached (innerText e) && (0 <=? string_length (text range))).
    + eexists _, [_; _]. unfold bind, IE.range_moveStart, IE.set_cachedRange, get_world,
        set_world, set_this, get_this, ret, emit. simpl.
      by rewrite add_trace_app.
    + by eexists _, [_].
  - exists None, []. by rewrite add_trace_nil.
Qed.

Lemma ie_cacheSelection_returns (this : EditableIE) w n e :
  doc (base this) = Some TopDocument -> node (base this) = Some n -> heap w !! n = Some e ->
  exists range cached,
    IE.cacheSelection this w = Ret tt (mkEditableIE (ie_base this) range cached) w.
Proof.
  intros Hdoc Hnode He. unfold IE.cacheSelection.
  step. destruct (document_selection w) as [range|].
  - step. rewrite Hdoc. step. cbv beta iota.
    step. cbn [base EditableIE_Extends ie_base]. simpl in Hnode. rewrite Hnode.
    step. erewrite bind_Ret by (by apply deref_Ret).
    by eexists _, _.
  - exists (cachedRange this), (cachedInnerText this). by destruct this.
Qed.

(** With a callback registered, [execCommand] ends in the TypeError of the
    command-state check, for each strategy. *)
Lemma ie_execCommand_throws (this : EditableIE) w n e f command :
  doc (base this) = Some TopDocument -> node (base this) = Some n ->
  heap w !! n = Some e ->
  stateChangeCallback (base this) = Some f ->
  cachedCommandArray (base this) = None \/ cachedCommandArray (base this) = Some NoState ->
  exists this' w' a,
    execCommand command this w = Throw (TypeError "this.commandArray is undefined") this' w'
    /\ cachedCommandArray (base this') = Some (States a).
Proof.
  intros Hdoc Hnode He Hf Hcache. simpl in Hdoc, Hnode, Hf, Hcache.
  unfold execCommand. step. cbv beta.
  cbn [base Editable_Extends EditableIE_Editable EditableIE_Extends ie_base]. rewrite Hdoc.
  destruct (ie_highlightSelection_returns this w n e Hnode He) as (range & es & Hpre).
  erewrite bind_Ret by exact Hpre.
  step. cbv beta.
  cbn [base Editable_Extends EditableIE_Editable EditableIE_Extends ie_base].
  rewrite Hdoc. step.
  match goal with
  | |- context [doc_execCommand TopDocument command] =>
      destruct (doc_execCommand_top
                  (mkEditableIE (ie_base this) range (cachedInnerText this))
                  (add_trace es w) command) as (r & ds & Hexec)
  end.
  erewrite bind_Ret by exact Hexec.
  pose proof (heap_edit_page command (set_document ds (add_trace es w)) n e He) as He'.
  match type of Hexec with
  | _ = Ret _ ?t ?W =>
      destruct (ie_cacheSelection_returns t W n _ Hdoc Hnode He') as (range' & cached' & Hcs);
      destruct (checkCommandState_fires_then_throws (ie_base this) W TopDocument n f
                  Hdoc Hnode ltac:(unfold doc_ok; rewrite Hdoc; by eexists) Hf Hcache)
        as (a & w1 & Hfirst & _ & Hok1 & Hnext)
  end.
  erewrite bind_Ret; cycle 1.
  { change (@postExecCommand EditableIE _) with IE.update. unfold IE.update.
    erewrite bind_Ret by exact Hcs.
    erewrite bind_Ret by (apply inherited_Ret; exact Hfirst).
    reflexivity. }
  cbv zeta in Hok1.
  destruct (Hnext _ Hok1) as (w3 & Hthrow & _).
  eexists _, _, a. split.
  - erewrite bind_Throw; [reflexivity|].
    apply inherited_Throw. exact Hthrow.
  - reflexivity.
Qed.

Lemma webkit_execCommand_throws (this : EditableWebkit) w n f command :
  doc (base this) = Some TopDocument -> node (base this) = Some n ->
  stateChangeCallback (base this) = Some f ->
  cachedCommandArray (base this) = None \/ cachedCommandArray (base this) = Some NoState ->
  exists this' w' a,
    execCommand command this w = Throw (TypeError "this.commandArray is undefined") this' w'
    /\ cachedCommandArray (base this') = Some (States a).
Proof.
  intros Hdoc Hnode Hf Hcache. simpl in Hdoc, Hnode, Hf, Hcache.
  unfold execCommand. step. cbv beta.
  cbn [base Editable_Extends EditableWebkit_Editable EditableWebkit_Extends webkit_base].
  rewrite Hdoc.
  step. step. cbv beta.
  cbn [base Editable_Extends EditableWebkit_Editable EditableWebkit_Extends webkit_base].
  rewrite Hdoc. step.
  match goal with
  | |- context [bind (doc_execCommand TopDocument command) _ ?t ?W] =>
      destruct (doc_execCommand_top t W command) as (r & ds & Hexec)
  end.
  erewrite bind_Ret by exact Hexec.
  match type of Hexec with
  | _ = Ret _ _ ?W =>
      destruct (checkCommandState_fires_then_throws (webkit_base this) W TopDocument n f
                  Hdoc Hnode ltac:(unfold doc_ok; rewrite Hdoc; by eexists) Hf Hcache)
        as (a & w1 & Hfirst & _ & Hok1 & Hnext)
  end.
  erewrite bind_Ret; cycle 1.
  { change (@postExecCommand EditableWebkit _) with Webkit.update.
    unfold Webkit.update, Webkit.cacheSelection.
    erewrite bind_Ret by (erewrite bind_Ret by reflexivity; reflexivity).
    erewrite bind_Ret by (apply inherited_Ret; exact Hfirst).
    reflexivity. }
  cbv zeta in Hok1.
  destruct (Hnext _ Hok1) as (w3 & Hthrow & _).
  eexists _, _, a. split.
  - erewrite bind_Throw; [reflexivity|].
    apply inherited_Throw. exact Hthrow.
  - reflexivity.
Qed.

Lemma gecko_execCommand_throws (this : EditableGecko) w fr ef win n kv a command :
  iframe this = Some fr -> doc (base this) = Some (FrameDocument fr) ->
  node (base this) = Some n ->
  heap w !! fr = Some ef -> contentWindow ef = Some win ->
  cachedCommandArray (base this) = Some (States (kv :: a)) ->
  exists w',
    execCommand command this w = Throw (TypeError "this.commandArray is undefined") this w'.
Proof.
  intros Hframe Hdoc Hnode Hef Hwin Hcache. simpl in Hdoc, Hnode, Hcache.
  unfold execCommand. step. cbv beta.
  cbn [base Editable_Extends EditableGecko_Editable EditableGecko_Extends gecko_base].
  rewrite Hdoc.
  erewrite bind_Ret; cycle 1.
  { change (@preExecCommand EditableGecko _) with Gecko.preExecCommand.
    unfold Gecko.preExecCommand. step. rewrite Hframe.
    erewrite bind_Ret by (by eapply window_of_Ret). reflexivity. }
  step. cbv beta.
  cbn [base Editable_Extends EditableGecko_Editable EditableGecko_Extends gecko_base].
  rewrite Hdoc. step.
  match goal with
  | |- context [bind (doc_execCommand _ command) _ ?t ?W] =>
      destruct (doc_execCommand_frame t W fr ef win command Hef Hwin) as (r & ds & Hexec)
  end.
  erewrite bind_Ret by exact Hexec.
  match type of Hexec with
  | _ = Ret _ _ ?W =>
      assert (doc_ok (gecko_base this) W) as Hok
        by (unfold doc_ok; rewrite Hdoc; simpl; rewrite lookup_insert_eq; by eexists);
      destruct (checkCommandState_prefix _ W Hok) as (st & w1 & Hget & _ & _)
  end.
  exists w1.
  erewrite bind_Throw; [reflexivity|].
  change (@postExecCommand EditableGecko _) with Gecko.update. unfold Gecko.update.
  erewrite bind_Throw
    by (apply inherited_Throw; by eapply checkCommandState_cached_throws).
  by rewrite gecko_with_base.
Qed.

(** The runs on the page of the examples, with their host calls: the host
    runs the command and reports its result, the callback is called, and no
    value is returned. For the in-place strategies the post-hook caches the
    snapshot and the re-check throws; for the Gecko strategy the activation
    cached it and the post-hook throws. *)
Lemma execCommand_with_callback_trace :
  let thrown : exn + value := inl (TypeError "this.commandArray is undefined") in
  let run {T} `{Editable T} (command : string) (o : outcome T value) :=
    execCommand command (this_of o) (world_of o) in
  result_of ie_listening = inr VUndef
  /\ result_of (run "bold" ie_listening) = thrown
  /\ host_calls (world_of (run "bold" ie_listening))
     = [ExecCommand TopDocument "bold" (VBool false) (VBool false) true;
        StateChangeCallback 5%nat (toy_snapshot true)]
  /\ result_of (run "zzz" ie_listening) = thrown
  /\ host_calls (world_of (run "zzz" ie_listening))
     = [ExecCommand TopDocument "zzz" (VBool false) (VBool false) false;
        StateChangeCallback 5%nat (toy_snapshot false)]
  /\ result_of webkit_listening = inr VUndef
  /\ result_of (run "bold" webkit_listening) = thrown
  /\ host_calls (world_of (run "bold" webkit_listening))
     = [SetBaseAndExtent None None None None;
        ExecCommand TopDocument "bold" (VBool false) (VBool false) true;
        StateChangeCallback 5%nat (toy_snapshot true)]
  /\ result_of gecko_listening = inr VUndef
  /\ result_of (run "bold" gecko_listening) = thrown
  /\ host_calls (world_of (run "bold" gecko_listening))
     = [DocumentOpen 3%nat; DocumentWrite 3%nat (stub_html (nl ++ nl ++ "p { margin:0 }" ++ nl ++ nl));
        DocumentClose 3%nat;
        StateChangeCallback 5%nat (toy_snapshot false);
        WindowFocus 3%nat;
        ExecCommand (FrameDocument 3%nat) "bold" (VBool false) (VBool false) true].
Proof.
  cbv zeta.
  repeat match goal with |- _ /\ _ => split end; vm_compute; reflexivity.
Qed.

(** C5. The code departs from the claim. On an active session with a
    change callback registered, of any of the three strategies and for
    every command, [execCommand] runs the pre-hook and the host's command
    but does not return what the host returned: the command-state check
    throws a TypeError (it reads [this.commandArray], which no statement
    assigns). For the in-place strategies, with nothing cached yet, the
    post-hook calls the callback and caches the snapshot, and the re-check
    throws; for the Gecko strategy, whose activation already cached the
    snapshot, the post-hook throws. *)
Theorem execCommand_throws_with_callback (command : string) (w : World) :
  (forall (this : EditableIE) n e f,
      doc (base this) = Some TopDocument -> node (base this) = Some n ->
      heap w !! n = Some e ->
      stateChangeCallback (base this) = Some f -> cachedCommandArray (base this) = None ->
      exists this' w' a,
        execCommand command this w
        = Throw (TypeError "this.commandArray is undefined") this' w'
        /\ cachedCommandArray (base this') = Some (States a))
  /\ (forall (this : EditableWebkit) n f,
      doc (base this) = Some TopDocument -> node (base this) = Some n ->
      stateChangeCallback (base this) = Some f -> cachedCommandArray (base this) = None ->
      exists this' w' a,
        execCommand command this w
        = Throw (TypeError "this.commandArray is undefined") this' w'
        /\ cachedCommandArray (base this') = Some (States a))
  /\ (forall (this : EditableGecko) fr ef win n kv a,
      iframe this = Some fr -> doc (base this) = Some (FrameDocument fr) ->
      node (base this) = Some n ->
      heap w !! fr = Some ef -> contentWindow ef = Some win ->
      cachedCommandArray (base this) = Some (States (kv :: a)) ->
      exists w',
        execCommand command this w
        = Throw (TypeError "this.commandArray is undefined") this w').
Proof.
  split; [|split].
  - intros this n e f Hdoc Hnode He Hf Hcache.
    by eapply ie_execCommand_throws; eauto.
  - intros this n f Hdoc Hnode Hf Hcache.
    by eapply webkit_execCommand_throws; eauto.
  - intros this fr ef win n kv a. apply gecko_execCommand_throws.
Qed.

Lemma execCommand_throws_with_callback_witness :
  (exists this' w' a,
      execCommand "bold" (this_of ie_listening) (world_of ie_listening)
      = Throw (TypeError "this.commandArray is undefined") this' w'
      /\ cachedCommandArray (base this') = Some (States a))
  /\ exists w',
       execCommand "bold" (this_of gecko_listening) (world_of gecko_listening)
       = Throw (TypeError "this.commandArray is undefined") (this_of gecko_listening) w'.
Proof.
  pose (w := world_of ie_listening).
  pose (v := world_of gecko_listening).
  split.
  - apply (proj1 (execCommand_throws_with_callback "bold" w)
             (this_of ie_listening) 1%nat (heap_at w 1%nat) 5%nat);
      vm_compute; reflexivity.
  - apply (proj2 (proj2 (execCommand_throws_with_callback "bold" v))
             (this_of gecko_listening) 3%nat (heap_at v 3%nat) (window_at v 3%nat) 4%nat
             ("bold", VBool false)
             [("italic", VBool false); ("underline", VBool false);
              ("fontname", VStr ""); ("fontsize", VStr "3"); ("forecolor", VStr "#ff0000")]);
      vm_compute; reflexivity.
Defined.
(** * Further properties *)

(** ** [convertColor] on its own results and on the two notations *)

(** X1. [convertColor] gives a string or [null], never another value. On
    a string it returned it is the identity; on the [null] it returned it
    throws. *)
Theorem convertColor_again (x out : value) :
  convertColor x = inr out ->
  (exists s, out = VStr s /\ convertColor out = inr out)
  \/ (out = VNull /\ convertColor out = inl (TypeError "v is null or undefined")).
Proof.
  intros H.
  assert (forall t, convertColor (VStr ("#" ++ t)) = inr (VStr ("#" ++ t))) as Hhash.
  { intros t. unfold convertColor.
    assert (String.eqb (substring 0 1 ("#" ++ t)) "#" = true) as Hone by (by destruct t).
    by rewrite (hash_prefix_not_rgb _ Hone), Hone. }
  destruct x as [| |bo|n|v]; try discriminate.
  - left. injection H as <-. eexists. split; [reflexivity|]. apply Hhash.
  - pose proof H as H0. unfold convertColor in H.
    destruct (String.eqb (substring 0 3 v) "rgb").
    + destruct (match_rgb v) as [[[g1 g2] g3]|]; injection H as <-.
      * left. eexists. split; [reflexivity|]. apply Hhash.
      * by right.
    + destruct (String.eqb (substring 0 1 v) "#"); injection H as <-.
      * left. by exists v.
      * by right.
Qed.

Lemma convertColor_again_witness :
  (exists s, VStr "#ff0000" = VStr s /\ convertColor (VStr "#ff0000") = inr (VStr "#ff0000"))
  \/ (VStr "#ff0000" = VNull
      /\ convertColor (VStr "#ff0000") = inl (TypeError "v is null or undefined")).
Proof. apply (convertColor_again (VStr "rgb(255, 0, 0)")). vm_compute. reflexivity. Defined.

Lemma convertColor_packed_bytes (r g b : Z) :
  0 <= r < 256 -> 0 <= g < 256 -> 0 <= b < 256 ->
  convertColor (VNum (r + 256 * g + 65536 * b)) = convertColor (VStr (rgb_text r g b)).
Proof.
  intros Hr Hg Hb.
  rewrite convertColor_rgb_groups by lia.
  rewrite convertColor_packed by lia.
  replace ((r + 256 * g + 65536 * b) mod 256) with r.
  2:{ replace (r + 256 * g + 65536 * b) with (r + (g + 256 * b) * 256) by lia.
      rewrite Z.mod_add by lia. by rewrite Z.mod_small. }
  replace ((r + 256 * g + 65536 * b) / 256) with (g + 256 * b).
  2:{ replace (r + 256 * g + 65536 * b) with (r + (g + 256 * b) * 256) by lia.
      rewrite Z.div_add by lia. rewrite Z.div_small; lia. }
  replace ((g + 256 * b) mod 256) with g.
  2:{ replace (g + 256 * b) with (g + b * 256) by lia.
      rewrite Z.mod_add by lia. by rewrite Z.mod_small. }
  replace ((r + 256 * g + 65536 * b) / 65536) with b; [done|].
  replace (r + 256 * g + 65536 * b) with ((r + 256 * g) + b * 65536) by lia.
  rewrite Z.div_add by lia. rewrite Z.div_small; lia.
Qed.

(** X2. The two notations of one colour agree: for three bytes, the text
    [rgb(r, g, b)] and the integer that packs [r] in its low byte, then
    [g], then [b], are converted to the same string, "#" followed by the
    three bytes in hexadecimal; [parseInt] reads back what the decimal
    notation wrote. *)
Theorem convertColor_rgb_text_and_packed (r g b : Z) :
  0 <= r < 256 -> 0 <= g < 256 -> 0 <= b < 256 ->
  convertColor (VStr (rgb_text r g b)) = inr (VStr ("#" ++ hex r ++ hex g ++ hex b))
  /\ convertColor (VNum (r + 256 * g + 65536 * b)) = convertColor (VStr (rgb_text r g b)).
Proof.
  intros Hr Hg Hb. split; [apply convertColor_rgb_groups; lia|].
  by apply convertColor_packed_bytes.
Qed.

Lemma convertColor_rgb_text_and_packed_witness :
  convertColor (VStr (rgb_text 18 52 86)) = inr (VStr ("#" ++ hex 18 ++ hex 52 ++ hex 86))
  /\ convertColor (VNum (18 + 256 * 52 + 65536 * 86)) = convertColor (VStr (rgb_text 18 52 86)).
Proof. apply (convertColor_rgb_text_and_packed 18 52 86); lia. Defined.

(** ** Components above one byte *)

Lemma digits_of_length (radix : Z) (fuel : nat) :
  forall d acc, (S (String.length acc) <= String.length (digits_of radix fuel d acc))%nat.
Proof.
  induction fuel as [|fuel IH]; intros d acc; simpl; [lia|].
  destruct (d / radix =? 0); simpl; [lia|].
  etransitivity; [|apply IH]. simpl. lia.
Qed.

Lemma hex_length (d : Z) : 0 <= d -> (2 <= String.length (hex d))%nat.
Proof.
  intros Hd. unfold hex. destruct (d <? 16) eqn:E.
  - rewrite append_cons, append_nil. unfold number_toString.
    assert ((d <? 0) = false) as -> by lia.
    pose proof (digits_of_length 16 (Z.to_nat (Z.log2 d)) d "") as H.
    cbn [String.length] in *. lia.
  - apply Z.ltb_ge in E. unfold number_toString.
    assert ((d <? 0) = false) as -> by lia.
    assert (4 <= Z.log2 d) by (apply Z.log2_le_pow2; [lia|]; simpl; lia).
    destruct (Z.to_nat (Z.log2 d)) as [|fuel] eqn:F; [lia|].
    simpl. assert ((d / 16 =? 0) = false) as ->.
    { apply Z.eqb_neq. pose proof (Z.div_le_lower_bound d 16 1). lia. }
    etransitivity; [|apply digits_of_length]. simpl. lia.
Qed.

Lemma hex_length_large (d : Z) : 256 <= d -> (3 <= String.length (hex d))%nat.
Proof.
  intros Hd. unfold hex. assert ((d <? 16) = false) as -> by lia.
  unfold number_toString. assert ((d <? 0) = false) as -> by lia.
  assert (8 <= Z.log2 d) by (apply Z.log2_le_pow2; [lia|]; simpl; lia).
  destruct (Z.to_nat (Z.log2 d)) as [|[|fuel]] eqn:F; [lia|lia|].
  simpl.
  assert (16 <= d / 16) by (apply Z.div_le_lower_bound; lia).
  assert ((d / 16 =? 0) = false) as -> by lia.
  assert ((d / 16 / 16 =? 0) = false) as ->.
  { apply Z.eqb_neq. pose proof (Z.div_le_lower_bound (d / 16) 16 1). lia. }
  etransitivity; [|apply digits_of_length]. simpl. lia.
Qed.

(** X3. A component of [rgb(r, g, b)] is not reduced to a byte: for
    components that a number holds exactly (below 2^53), [convertColor]
    returns "#" followed by the hexadecimal notation of each, and when one
    of the three is 256 or more that string is longer than the seven
    characters of "#rrggbb". *)
Theorem convertColor_rgb_not_clamped (r g b : Z) :
  0 <= r < 2 ^ 53 -> 0 <= g < 2 ^ 53 -> 0 <= b < 2 ^ 53 ->
  256 <= r \/ 256 <= g \/ 256 <= b ->
  convertColor (VStr (rgb_text r g b)) = inr (VStr ("#" ++ hex r ++ hex g ++ hex b))
  /\ (7 < String.length ("#" ++ hex r ++ hex g ++ hex b))%nat.
Proof.
  intros Hr Hg Hb Hbig. split; [by apply convertColor_rgb_groups|].
  rewrite append_cons, append_nil. simpl String.length. rewrite !length_append.
  pose proof (hex_length r (proj1 Hr)). pose proof (hex_length g (proj1 Hg)).
  pose proof (hex_length b (proj1 Hb)).
  destruct Hbig as [H256|[H256|H256]]; apply hex_length_large in H256; lia.
Qed.

Lemma convertColor_rgb_not_clamped_witness :
  convertColor (VStr (rgb_text 300 0 0)) = inr (VStr ("#" ++ hex 300 ++ hex 0 ++ hex 0))
  /\ (7 < String.length ("#" ++ hex 300 ++ hex 0 ++ hex 0))%nat.
Proof. apply (convertColor_rgb_not_clamped 300 0 0); lia. Defined.

(** ** The snapshot of [getCommandState] *)

Lemma snapshot_set_set a k x y :
  snapshot_set (snapshot_set a k x) k y = snapshot_set a k y.
Proof.
  induction a as [|[k' v] a IH]; simpl.
  - by rewrite String.eqb_refl.
  - destruct (String.eqb k k') eqn:E; simpl; rewrite E; [done|]. by rewrite IH.
Qed.

(** One turn of the loop for a command that is no colour. *)
Lemma getCommandState_step_plain d ds a command type this w :
  read_doc d w = Some ds ->
  search_color command = false ->
  let raw :=
    if String.eqb type "state" then VBool (queryCommandState ds command)
    else if String.eqb type "value" then of_hostval (queryCommandValue ds command)
    else VBool false in
  getCommandState_step d a (command, type) this w
  = Ret (snapshot_set a command raw) this (emit (state_line (command, raw)) w).
Proof.
  intros Hd Hcolor raw. unfold getCommandState_step. cbn [fst snd].
  erewrite bind_Ret by (by apply doc_state_read).
  rewrite Hcolor, andb_false_r. cbn [andb].
  assert ((if String.eqb type "state"
           then snapshot_set a command (VBool (queryCommandState ds command))
           else if String.eqb type "value"
                then snapshot_set a command (of_hostval (queryCommandValue ds command))
                else snapshot_set a command (VBool false))
          = snapshot_set a command raw) as ->.
  { subst raw. by repeat case_match. }
  step. unfold debug, state_line. cbn [fst snd].
  erewrite bind_Ret by reflexivity. by rewrite snapshot_get_set.
Qed.

(** One turn of the loop for a colour, whose type is "value". *)
Lemma getCommandState_step_color d ds a command color this w :
  read_doc d w = Some ds ->
  command <> "" ->
  search_color command = true ->
  stored_color (of_hostval (queryCommandValue ds command)) color ->
  getCommandState_step d a (command, "value") this w
  = Ret (snapshot_set a command color) this (emit (state_line (command, color)) w).
Proof.
  intros Hd Hne Hcolor Hstored. unfold getCommandState_step. cbn [fst snd].
  erewrite bind_Ret by (by apply doc_state_read).
  change (String.eqb "value" "state") with false.
  change (String.eqb "value" "value") with true. cbv iota.
  rewrite Hcolor, snapshot_get_set.
  assert (truthy (VStr command) = true) as ->.
  { simpl. apply negb_true_iff. by apply String.eqb_neq. }
  cbn [andb]. unfold stored_color in Hstored.
  destruct (truthy (of_hostval (queryCommandValue ds command))).
  - rewrite Hstored. unfold of_sum. step. step.
    unfold state_line. cbn [fst snd]. unfold ret.
    rewrite snapshot_get_set.
    by rewrite snapshot_set_set.
  - subst color. step. unfold debug, state_line. cbn [fst snd].
    erewrite bind_Ret by reflexivity. by rewrite snapshot_get_set.
Qed.

Lemma stored_color_hostval (h : hostval) : exists color, stored_color (of_hostval h) color.
Proof.
  unfold stored_color. destruct (truthy (of_hostval h)); [|by eexists].
  destruct (convertColor_hostval h) as [c Hc]. by exists c.
Qed.

(** The snapshot of an active session, entry by entry. *)
Lemma getCommandState_exact (this : EditableBase) (w : World) d n ds :
  doc this = Some d -> node this = Some n -> read_doc d w = Some ds ->
  exists color,
    stored_color (of_hostval (queryCommandValue ds "forecolor")) color
    /\ let a := [("bold", VBool (queryCommandState ds "bold"));
                 ("italic", VBool (queryCommandState ds "italic"));
                 ("underline", VBool (queryCommandState ds "underline"));
                 ("fontname", of_hostval (queryCommandValue ds "fontname"));
                 ("fontsize", of_hostval (queryCommandValue ds "fontsize"));
                 ("forecolor", color)] in
       getCommandState this w = Ret (States a) this (add_trace (map state_line a) w).
Proof.
  intros Hdoc Hnode Hd.
  destruct (stored_color_hostval (queryCommandValue ds "forecolor")) as [color Hcolor].
  exists color. split; [done|]. cbv zeta.
  unfold getCommandState. unfold bind at 1. unfold get_this. rewrite Hdoc, Hnode.
  erewrite bind_Ret; [reflexivity|].
  unfold commands. cbn [for_each].
  do 5 (erewrite bind_Ret;
        [|by apply (getCommandState_step_plain d ds)]; cbv zeta).
  erewrite bind_Ret; [|by apply (getCommandState_step_color d ds)].
  cbn [String.eqb Ascii.eqb Bool.eqb]. cbv iota.
  unfold ret, emit. by rewrite !add_trace_app.
Qed.

(** X4. On an active session [getCommandState] returns the six commands
    of the catalog in its order: the three boolean states and the font
    name and size as the document answers them, and the colour as
    [stored_color] says: canonical when the answer is truthy, untouched when
    it is falsy. It writes one console line for each entry, changes nothing
    else, and does not touch the session. *)
Theorem getCommandState_snapshot (this : EditableBase) (w : World) d n ds :
  doc this = Some d -> node this = Some n -> read_doc d w = Some ds ->
  exists color,
    stored_color (of_hostval (queryCommandValue ds "forecolor")) color
    /\ let a := [("bold", VBool (queryCommandState ds "bold"));
                 ("italic", VBool (queryCommandState ds "italic"));
                 ("underline", VBool (queryCommandState ds "underline"));
                 ("fontname", of_hostval (queryCommandValue ds "fontname"));
                 ("fontsize", of_hostval (queryCommandValue ds "fontsize"));
                 ("forecolor", color)] in
       getCommandState this w = Ret (States a) this (add_trace (map state_line a) w).
Proof. apply getCommandState_exact. Qed.

Lemma getCommandState_snapshot_witness :
  exists color,
    stored_color (of_hostval (queryCommandValue (toy_doc false 0) "forecolor")) color
    /\ let a := [("bold", VBool (queryCommandState (toy_doc false 0) "bold"));
                 ("italic", VBool (queryCommandState (toy_doc false 0) "italic"));
                 ("underline", VBool (queryCommandState (toy_doc false 0) "underline"));
                 ("fontname", of_hostval (queryCommandValue (toy_doc false 0) "fontname"));
                 ("fontsize", of_hostval (queryCommandValue (toy_doc false 0) "fontsize"));
                 ("forecolor", color)] in
       getCommandState silent_base (page Style.empty)
       = Ret (States a) silent_base (add_trace (map state_line a) (page Style.empty)).
Proof.
  apply (getCommandState_snapshot silent_base (page Style.empty) TopDocument 1%nat
           (toy_doc false 0)); reflexivity.
Defined.

Lemma rgb_text_truthy (r g b : Z) : truthy (VStr (rgb_text r g b)) = true.
Proof. unfold rgb_text. by rewrite append_cons. Qed.

Lemma rgb_text_prefix (r g b : Z) :
  String.eqb (String.substring 0 3 (rgb_text r g b)) "rgb" = true.
Proof. unfold rgb_text. by rewrite !append_cons. Qed.

(** X5. The colour entry of the snapshot, by what the document answers
    for "forecolor". The number 0, a packed black, is falsy and stays the
    number 0, while the text [rgb(0, 0, 0)] becomes "#000000"; any other
    packed colour and every [rgb] text of three bytes become "#" and the
    three bytes in hexadecimal; the empty string stays; a text that starts
    with neither "rgb" nor "#", a colour name for one, is stored as
    [null]. *)
Theorem getCommandState_forecolor (this : EditableBase) (w : World) d n ds :
  doc this = Some d -> node this = Some n -> read_doc d w = Some ds ->
  exists a w',
    getCommandState this w = Ret (States a) this w'
    /\ (queryCommandValue ds "forecolor" = HNum 0 -> snapshot_get a "forecolor" = VNum 0)
    /\ (queryCommandValue ds "forecolor" = HStr "" -> snapshot_get a "forecolor" = VStr "")
    /\ (forall r g b,
          0 <= r < 256 -> 0 <= g < 256 -> 0 <= b < 256 ->
          queryCommandValue ds "forecolor" = HStr (rgb_text r g b)
          \/ (queryCommandValue ds "forecolor" = HNum (r + 256 * g + 65536 * b)
              /\ r + 256 * g + 65536 * b <> 0) ->
          snapshot_get a "forecolor" = VStr ("#" ++ hex r ++ hex g ++ hex b))
    /\ (forall s,
          queryCommandValue ds "forecolor" = HStr s -> s <> "" ->
          String.eqb (String.substring 0 3 s) "rgb" = false ->
          String.eqb (String.substring 0 1 s) "#" = false ->
          snapshot_get a "forecolor" = VNull).
Proof.
  intros Hdoc Hnode Hd.
  destruct (getCommandState_exact this w d n ds Hdoc Hnode Hd) as (color & Hcolor & Hrun).
  cbv zeta in Hrun. eexists _, _. split; [exact Hrun|].
  change (snapshot_get _ "forecolor") with color.
  unfold stored_color in Hcolor.
  split; [|split; [|split]].
  - intros Hq. by rewrite Hq in Hcolor.
  - intros Hq. by rewrite Hq in Hcolor.
  - intros r g b Hr Hg Hb [Hq|[Hq Hnz]]; rewrite Hq in Hcolor; cbn [of_hostval] in Hcolor.
    + rewrite rgb_text_truthy, convertColor_rgb_groups in Hcolor by lia. congruence.
    + cbn [truthy] in Hcolor. apply Z.eqb_neq in Hnz. rewrite Hnz in Hcolor.
      cbn [negb] in Hcolor. rewrite convertColor_packed in Hcolor by lia.
      assert (convertColor (VNum (r + 256 * g + 65536 * b))
              = inr (VStr ("#" ++ hex r ++ hex g ++ hex b))) as Hpacked.
      { by rewrite (convertColor_packed_bytes r g b Hr Hg Hb), convertColor_rgb_groups by lia. }
      rewrite convertColor_packed in Hpacked by lia. congruence.
  - intros s Hq Hne Hrgb Hhash. rewrite Hq in Hcolor. cbn [of_hostval truthy] in Hcolor.
    apply String.eqb_neq in Hne. rewrite Hne in Hcolor. cbn [negb] in Hcolor.
    unfold convertColor in Hcolor. rewrite Hrgb, Hhash in Hcolor. congruence.
Qed.

Lemma getCommandState_forecolor_witness :
  exists a w',
    getCommandState silent_base (page Style.empty) = Ret (States a) silent_base w'
    /\ snapshot_get a "forecolor" = VStr ("#" ++ hex 255 ++ hex 0 ++ hex 0).
Proof.
  destruct (getCommandState_forecolor silent_base (page Style.empty) TopDocument 1%nat
              (toy_doc false 0) eq_refl eq_refl eq_refl) as (a & w' & Hrun & _ & _ & Hcol & _).
  exists a, w'. split; [exact Hrun|].
  apply (Hcol 255 0 0); [lia|lia|lia|]. right. split; [reflexivity|lia].
Defined.

(** ** [checkCommandState] on an inactive session *)

Lemma checkCommandState_inactive_once this w f :
  doc this = None \/ node this = None ->
  stateChangeCallback this = Some f ->
  cachedCommandArray this = None \/ cachedCommandArray this = Some NoState ->
  checkCommandState this w
  = Ret (VBool true) (set_cachedCommandArray (Some NoState) this)
      (add_trace [ConsoleLog "checkCommandState()"; StateChangeCallback f NoState] w).
Proof.
  intros Hoff Hf Hcache.
  rewrite (checkCommandState_first this w NoState _ Hcache
             (getCommandState_inactive this _ Hoff)).
  rewrite Hf. unfold emit. by rewrite add_trace_app.
Qed.

(** X6. On a session that is not active, with a change callback and no
    snapshot cached yet, [checkCommandState] never throws, however often it
    is called: every call logs one line, calls the callback with [false]
    and caches [false], so the next call is again a first observation. *)
Theorem checkCommandState_inactive_fires (this : EditableBase) (w : World) f (k : nat) :
  doc this = None \/ node this = None ->
  stateChangeCallback this = Some f ->
  cachedCommandArray this = None \/ cachedCommandArray this = Some NoState ->
  repeat_call (S k) checkCommandState this w
  = Ret tt (set_cachedCommandArray (Some NoState) this)
      (add_trace
         (concat (replicate (S k)
                    [ConsoleLog "checkCommandState()"; StateChangeCallback f NoState])) w).
Proof.
  intros Hoff Hf Hcache. revert this w Hoff Hf Hcache.
  induction k as [|k IH]; intros this w Hoff Hf Hcache.
  - cbn [repeat_call]. erewrite bind_Ret by by apply checkCommandState_inactive_once.
    cbn [replicate concat]. by rewrite app_nil_r.
  - change (repeat_call (S (S k)) checkCommandState)
      with (checkCommandState;; repeat_call (S k) checkCommandState).
    erewrite bind_Ret by by apply checkCommandState_inactive_once.
    rewrite IH; [|by destruct this|done|by right].
    rewrite add_trace_app. by destruct this.
Qed.

Lemma checkCommandState_inactive_fires_witness :
  repeat_call 3 checkCommandState
    (mkEditableBase 7 None None None (Some 5%nat)) (page Style.empty)
  = Ret tt (mkEditableBase 7 None None (Some NoState) (Some 5%nat))
      (add_trace
         (concat (replicate 3
                    [ConsoleLog "checkCommandState()"; StateChangeCallback 5%nat NoState]))
         (page Style.empty)).
Proof.
  apply (checkCommandState_inactive_fires
           (mkEditableBase 7 None None None (Some 5%nat)) (page Style.empty) 5%nat 2%nat);
    [by left|reflexivity|by left].
Defined.

(** ** Capturing and restoring the selection *)

(** X7. The WebKit strategy restores what it captured: after
    [cacheSelection], whatever selection the window has by then,
    [highlightSelection] calls [setBaseAndExtent] with the four values
    captured and the window has the captured selection again; the base
    fields of the session are not touched. *)
Theorem webkit_selection_round_trip (this : EditableWebkit) (w : World) (lost : Selection) :
  let s := window_selection w in
  (Webkit.cacheSelection;; set_world (set_window_selection lost);;
   Webkit.highlightSelection) this w
  = Ret tt
      (mkEditableWebkit (webkit_base this) (sel_baseNode s) (sel_baseOffset s)
         (sel_extentNode s) (sel_extentOffset s))
      (emit (SetBaseAndExtent (sel_baseNode s) (sel_baseOffset s)
               (sel_extentNode s) (sel_extentOffset s)) w).
Proof.
  cbv zeta. unfold Webkit.cacheSelection, Webkit.highlightSelection.
  unfold bind, get_world, set_world, set_this, get_this.
  cbn [baseNode baseOffset extentNode extentOffset].
  reflexivity.
Qed.

(** X8. The Trident strategy on an active session whose node is in the
    heap. When the document has a selection, capturing it and restoring it
    at once selects the captured range as it is, without moving its start,
    and the session holds the range and the text of the node. When the
    document has no selection object, [cacheSelection] does nothing at
    all. *)
Theorem ie_selection_round_trip (this : EditableIE) (w : World) (n : ref) (e : Element) :
  doc (base this) = Some TopDocument -> node (base this) = Some n ->
  heap w !! n = Some e ->
  (forall range,
      document_selection w = Some range ->
      (IE.cacheSelection;; IE.highlightSelection) this w
      = Ret tt (mkEditableIE (ie_base this) (Some range) (Some (innerText e)))
          (emit (RangeSelect range) w))
  /\ (document_selection w = None -> IE.cacheSelection this w = Ret tt this w).
Proof.
  intros Hdoc Hnode He. simpl in Hdoc, Hnode. split.
  - intros range Hsel.
    unfold IE.cacheSelection, IE.highlightSelection.
    erewrite bind_Ret; cycle 1.
    { step. rewrite Hsel. step. cbn [base EditableIE_Extends]. rewrite Hdoc.
      step. step. cbn [base EditableIE_Extends ie_base]. rewrite Hnode.
      step. erewrite bind_Ret by (by apply deref_Ret). reflexivity. }
    step. cbn [base EditableIE_Extends ie_base]. rewrite Hnode.
    step. erewrite bind_Ret by (by apply deref_Ret).
    cbn [cachedRange cachedInnerText text_differs].
    rewrite String.eqb_refl. cbn [negb andb].
    step. step. reflexivity.
  - intros Hsel. unfold IE.cacheSelection. step. by rewrite Hsel.
Qed.

Lemma ie_selection_round_trip_witness :
  (IE.cacheSelection;; IE.highlightSelection) drifted (page Style.empty)
  = Ret tt (mkEditableIE (ie_base drifted) (Some (mkRange 0 "hello")) (Some "hello world"))
      (emit (RangeSelect (mkRange 0 "hello")) (page Style.empty)).
Proof.
  apply (proj1 (ie_selection_round_trip drifted (page Style.empty) 1%nat
                  (toy_div Style.empty) eq_refl eq_refl eq_refl)).
  reflexivity.
Defined.

(** ** Activation and deactivation in place *)

Lemma remove_listener_middle (l : listener) (ls rest : list listener) :
  l ∉ ls -> remove_listener l (ls ++ l :: rest) = (ls ++ rest)%list.
Proof.
  induction ls as [|l' ls IH]; intros Hnot; simpl.
  - by rewrite bool_decide_eq_true_2.
  - apply not_elem_of_cons in Hnot as [Hne Hnot].
    rewrite bool_decide_eq_false_2 by done. by rewrite IH.
Qed.

Lemma listeners_put_back (k m : listener) (ls : list listener) :
  k <> m -> k ∉ ls -> m ∉ ls ->
  remove_listener m (remove_listener k (add_listener m (add_listener k ls))) = ls.
Proof.
  intros Hkm Hk Hm. unfold add_listener.
  rewrite (bool_decide_eq_false_2 (k ∈ ls)) by done.
  rewrite bool_decide_eq_false_2.
  2:{ rewrite elem_of_app, list_elem_of_singleton. intros [?|?]; [done|]. by subst. }
  rewrite <- app_assoc. simpl.
  rewrite remove_listener_middle by done.
  rewrite remove_listener_middle by done. apply app_nil_r.
Qed.

Lemma attached_put_back (k m : listener) (ls : list listener) :
  k ∉ ls -> m ∉ ls ->
  remove_listener m (remove_listener k ((ls ++ [k]) ++ [m])) = ls.
Proof.
  intros Hk Hm. rewrite <- app_assoc. simpl.
  rewrite remove_listener_middle by done.
  rewrite remove_listener_middle by done. apply app_nil_r.
Qed.

Lemma set_listeners_twice (f g : list listener -> list listener) (e : Element) :
  set_listeners g (set_listeners f e) = set_listeners (fun ls => g (f ls)) e.
Proof. reflexivity. Qed.

Lemma element_listeners_back (f : list listener -> list listener) (v v' : value)
    (e : Element) :
  f (listeners e) = listeners e ->
  set_contentEditable v (set_listeners f (set_contentEditable v' e))
  = set_contentEditable v e.
Proof.
  intros Hf. destruct e. cbn in Hf.
  unfold set_contentEditable, set_listeners. cbn. by rewrite Hf.
Qed.

Lemma Ret_eq {T A} (a : A) (this this' : T) (w w' : World) :
  this = this' -> w = w' -> Ret a this w = Ret a this' w'.
Proof. by intros -> ->. Qed.

(** The in-place strategies on an element, and on a session with its
    node: what each call leaves. *)
Lemma webkit_editableOn_exact (this : EditableWebkit) w r e :
  heap w !! r = Some e -> nodeType e = ELEMENT_NODE ->
  Webkit.editableOn (Some r) this w
  = Ret VUndef
      (with_base (set_doc (Some TopDocument) (set_node (Some r) (base this))) this)
      (set_editableWebkitRef (Some (self (base this)))
         (set_heap
            (insert r
               (set_listeners
                  (fun ls =>
                     add_listener (Listening "mouseup" webkitCacheSelection true)
                       (add_listener (Listening "keypress" webkitCacheSelection true) ls))
                  (set_contentEditable (VBool true) e)))
            w)).
Proof.
  intros He Hty. unfold Webkit.editableOn.
  erewrite bind_Ret
    by (apply inherited_Ret, checkNodeType_element; by exists r, e).
  cbn [negb]. step. step.
  step_heap He. step_heap He. step_heap He.
  step. step. step. unfold ret.
  apply Ret_eq; [by destruct this as [[] ? ? ? ?]|].
  cbv [set_heap set_editableWebkitRef heap engine next_ref document styleElements
       styleSheets document_selection window_selection EditableGeckoRef editableWebkitRef
       editableIERef trace].
  rewrite !insert_insert_eq. by destruct this as [[] ? ? ? ?].
Qed.

Lemma webkit_editableOff_exact (this : EditableWebkit) w r e :
  node (base this) = Some r -> heap w !! r = Some e ->
  Webkit.editableOff this w
  = Ret VUndef
      (with_base (set_doc None (set_node None (base this))) this)
      (set_heap
         (insert r
            (set_contentEditable (VBool false)
               (set_listeners
                  (fun ls =>
                     remove_listener (Listening "mouseup" webkitCacheSelection true)
                       (remove_listener (Listening "keypress" webkitCacheSelection true) ls))
                  e)))
         w).
Proof.
  intros Hnode He. unfold Webkit.editableOff. step. rewrite Hnode. step.
  step_heap He. step_heap He. step_heap He.
  step. step. unfold ret.
  apply Ret_eq; [by destruct this as [[] ? ? ? ?]|].
  cbv [set_heap heap engine next_ref document styleElements
       styleSheets document_selection window_selection EditableGeckoRef editableWebkitRef
       editableIERef trace].
  by rewrite !insert_insert_eq.
Qed.

Lemma ie_editableOn_exact (this : EditableIE) w r e :
  heap w !! r = Some e -> nodeType e = ELEMENT_NODE ->
  IE.editableOn (Some r) this w
  = Ret VUndef
      (with_base (set_doc (Some TopDocument) (set_node (Some r) (base this))) this)
      (set_editableIERef (Some (self (base this)))
         (set_heap
            (insert r
               (set_listeners
                  (fun ls => ((ls ++ [Attached "onkeypress" iECacheSelection])
                              ++ [Attached "onmouseup" iECacheSelection])%list)
                  (set_contentEditable (VBool true) e)))
            w)).
Proof.
  intros He Hty. unfold IE.editableOn.
  erewrite bind_Ret
    by (apply inherited_Ret, checkNodeType_element; by exists r, e).
  cbn [negb]. step. step.
  step_heap He. step_heap He. step_heap He.
  step. step. step. unfold ret.
  apply Ret_eq; [by destruct this as [[] ? ?]|].
  cbv [set_heap set_editableIERef heap engine next_ref document styleElements
       styleSheets document_selection window_selection EditableGeckoRef editableWebkitRef
       editableIERef trace].
  rewrite !insert_insert_eq. by destruct this as [[] ? ?].
Qed.

Lemma ie_editableOff_exact (this : EditableIE) w r e :
  node (base this) = Some r -> heap w !! r = Some e ->
  IE.editableOff this w
  = Ret VUndef
      (with_base (set_doc None (set_node None (base this))) this)
      (set_heap
         (insert r
            (set_contentEditable (VBool false)
               (set_listeners
                  (fun ls =>
                     remove_listener (Attached "onmouseup" iECacheSelection)
                       (remove_listener (Attached "onkeypress" iECacheSelection) ls))
                  e)))
         w).
Proof.
  intros Hnode He. unfold IE.editableOff. step. rewrite Hnode. step.
  step_heap He. step_heap He. step_heap He.
  step. step. unfold ret.
  apply Ret_eq; [by destruct this as [[] ? ?]|].
  cbv [set_heap heap engine next_ref document styleElements
       styleSheets document_selection window_selection EditableGeckoRef editableWebkitRef
       editableIERef trace].
  by rewrite !insert_insert_eq.
Qed.

(** X9. Activating and then deactivating the WebKit strategy on an
    element whose listeners do not hold the two registrations of the
    strategy already: both calls return [undefined]; the session has its
    node and document [null] again and is otherwise as before; the element
    has its listeners back, but [contentEditable] is [false], whatever it
    was; and the global [editableWebkitRef] still names the session. The
    rest of the page and the trace are untouched. *)
Theorem webkit_round_trip (this : EditableWebkit) (w : World) (r : ref) (e : Element) :
  heap w !! r = Some e -> nodeType e = ELEMENT_NODE ->
  Listening "keypress" webkitCacheSelection true ∉ listeners e ->
  Listening "mouseup" webkitCacheSelection true ∉ listeners e ->
  (Webkit.editableOn (Some r);; Webkit.editableOff) this w
  = Ret VUndef
      (with_base (set_doc None (set_node None (base this))) this)
      (set_editableWebkitRef (Some (self (base this)))
         (set_heap (insert r (set_contentEditable (VBool false) e)) w)).
Proof.
  intros He Hty Hk Hm.
  erewrite bind_Ret by (by apply webkit_editableOn_exact).
  erewrite webkit_editableOff_exact;
    [|reflexivity|cbn [heap set_heap set_editableWebkitRef]; apply lookup_insert_eq].
  apply Ret_eq; [by destruct this as [[] ? ? ? ?]|].
  cbv [set_heap set_editableWebkitRef heap engine next_ref document styleElements
       styleSheets document_selection window_selection EditableGeckoRef editableWebkitRef
       editableIERef trace].
  rewrite !insert_insert_eq, !set_listeners_twice.
  rewrite element_listeners_back; [done|].
  by apply listeners_put_back.
Qed.

Lemma webkit_round_trip_witness :
  (Webkit.editableOn (Some 1%nat);; Webkit.editableOff) (new_EditableWebkit 7) (page boxed)
  = Ret VUndef (new_EditableWebkit 7)
      (set_editableWebkitRef (Some 7%nat)
         (set_heap (insert 1%nat (set_contentEditable (VBool false) (toy_div boxed)))
            (page boxed))).
Proof.
  apply (webkit_round_trip (new_EditableWebkit 7) (page boxed) 1%nat (toy_div boxed));
    [reflexivity|reflexivity| |]; cbn [listeners toy_div]; apply not_elem_of_nil.
Defined.

(** X10. The same for the Trident strategy, whose registrations are made
    with [attachEvent]: after activation and deactivation the element has
    its listeners back and [contentEditable] [false], the session has no
    node and no document, and [editableIERef] still names the session. *)
Theorem ie_round_trip (this : EditableIE) (w : World) (r : ref) (e : Element) :
  heap w !! r = Some e -> nodeType e = ELEMENT_NODE ->
  Attached "onkeypress" iECacheSelection ∉ listeners e ->
  Attached "onmouseup" iECacheSelection ∉ listeners e ->
  (IE.editableOn (Some r);; IE.editableOff) this w
  = Ret VUndef
      (with_base (set_doc None (set_node None (base this))) this)
      (set_editableIERef (Some (self (base this)))
         (set_heap (insert r (set_contentEditable (VBool false) e)) w)).
Proof.
  intros He Hty Hk Hm.
  erewrite bind_Ret by (by apply ie_editableOn_exact).
  erewrite ie_editableOff_exact;
    [|reflexivity|cbn [heap set_heap set_editableIERef]; apply lookup_insert_eq].
  apply Ret_eq; [by destruct this as [[] ? ?]|].
  cbv [set_heap set_editableIERef heap engine next_ref document styleElements
       styleSheets document_selection window_selection EditableGeckoRef editableWebkitRef
       editableIERef trace].
  rewrite !insert_insert_eq, !set_listeners_twice.
  rewrite element_listeners_back; [done|].
  by apply attached_put_back.
Qed.

Lemma ie_round_trip_witness :
  (IE.editableOn (Some 1%nat);; IE.editableOff) (new_EditableIE 7) (page boxed)
  = Ret VUndef (new_EditableIE 7)
      (set_editableIERef (Some 7%nat)
         (set_heap (insert 1%nat (set_contentEditable (VBool false) (toy_div boxed)))
            (page boxed))).
Proof.
  apply (ie_round_trip (new_EditableIE 7) (page boxed) 1%nat (toy_div boxed));
    [reflexivity|reflexivity| |]; cbn [listeners toy_div]; apply not_elem_of_nil.
Defined.

(** ** Activating twice *)

Lemma add_listener_elem (l : listener) (ls : list listener) : l ∈ add_listener l ls.
Proof.
  unfold add_listener. case_bool_decide; [done|].
  apply elem_of_app. right. by apply list_elem_of_singleton.
Qed.

Lemma add_listener_present (l : listener) (ls : list listener) :
  l ∈ ls -> add_listener l ls = ls.
Proof. intros Hl. unfold add_listener. by rewrite bool_decide_eq_true_2. Qed.

Lemma add_listener_keeps (l l' : listener) (ls : list listener) :
  l ∈ ls -> l ∈ add_listener l' ls.
Proof.
  intros Hl. unfold add_listener. case_bool_decide; [done|].
  apply elem_of_app. by left.
Qed.

Lemma listeners_added_twice (k m : listener) (ls : list listener) :
  add_listener m (add_listener k (add_listener m (add_listener k ls)))
  = add_listener m (add_listener k ls).
Proof.
  rewrite (add_listener_present k).
  - apply add_listener_present, add_listener_elem.
  - apply add_listener_keeps, add_listener_elem.
Qed.

Lemma attached_twice (k m : listener) (ls : list listener) :
  k <> m -> k ∉ ls -> m ∉ ls ->
  remove_listener m (remove_listener k ((((ls ++ [k]) ++ [m]) ++ [k]) ++ [m]))
  = (ls ++ [k; m])%list.
Proof.
  intros Hkm Hk Hm. rewrite <- !app_assoc. cbn [app].
  rewrite remove_listener_middle by done.
  by rewrite remove_listener_middle by done.
Qed.

Lemma webkit_editableOff_no_node (this : EditableWebkit) w :
  node (base this) = None ->
  Webkit.editableOff this w = Throw (TypeError "this.node is null") this w.
Proof. intros Hnode. unfold Webkit.editableOff. step. by rewrite Hnode. Qed.

Lemma ie_editableOff_no_node (this : EditableIE) w :
  node (base this) = None ->
  IE.editableOff this w = Throw (TypeError "this.node is null") this w.
Proof. intros Hnode. unfold IE.editableOff. step. by rewrite Hnode. Qed.

Lemma set_contentEditable_listeners (f : list listener -> list listener) (v : value)
    (e : Element) :
  set_contentEditable v (set_listeners f e) = set_listeners f (set_contentEditable v e).
Proof. reflexivity. Qed.

Lemma set_contentEditable_twice (v v' : value) (e : Element) :
  set_contentEditable v (set_contentEditable v' e) = set_contentEditable v e.
Proof. reflexivity. Qed.

Lemma set_listeners_ext (f g : list listener -> list listener) (e : Element) :
  f (listeners e) = g (listeners e) -> set_listeners f e = set_listeners g e.
Proof. unfold set_listeners. by intros ->. Qed.

Lemma element_twice (f g h : list listener -> list listener) (v v' v'' : value)
    (e : Element) :
  h (f (f (listeners e))) = g (listeners e) ->
  set_contentEditable v
    (set_listeners h
       (set_listeners f (set_contentEditable v' (set_listeners f (set_contentEditable v'' e)))))
  = set_listeners g (set_contentEditable v e).
Proof.
  intros Hf.
  rewrite !set_contentEditable_listeners, !set_contentEditable_twice, !set_listeners_twice.
  by apply set_listeners_ext.
Qed.

(** X11. A session of an in-place strategy that is activated on a second
    element before it is deactivated loses the first one. [editableOff]
    then undoes the second activation only: the first element stays
    editable with both registrations, and since the session has no node
    any more, a further [editableOff] throws instead of reaching it. *)
Theorem second_activation_leaks (w : World) (r1 r2 : ref) (e1 e2 : Element) :
  r1 <> r2 ->
  heap w !! r1 = Some e1 -> nodeType e1 = ELEMENT_NODE ->
  heap w !! r2 = Some e2 -> nodeType e2 = ELEMENT_NODE ->
  (forall this : EditableWebkit,
      Listening "keypress" webkitCacheSelection true ∉ listeners e2 ->
      Listening "mouseup" webkitCacheSelection true ∉ listeners e2 ->
      let this' := with_base (set_doc None (set_node None (base this))) this in
      let w' :=
        set_editableWebkitRef (Some (self (base this)))
          (set_heap
             (fun h =>
                <[r2 := set_contentEditable (VBool false) e2]>
                  (<[r1 := set_listeners
                             (fun ls =>
                                add_listener (Listening "mouseup" webkitCacheSelection true)
                                  (add_listener
                                     (Listening "keypress" webkitCacheSelection true) ls))
                             (set_contentEditable (VBool true) e1)]> h))
             w) in
      (Webkit.editableOn (Some r1);; Webkit.editableOn (Some r2);; Webkit.editableOff) this w
      = Ret VUndef this' w'
      /\ Webkit.editableOff this' w' = Throw (TypeError "this.node is null") this' w')
  /\ (forall this : EditableIE,
      Attached "onkeypress" iECacheSelection ∉ listeners e2 ->
      Attached "onmouseup" iECacheSelection ∉ listeners e2 ->
      let this' := with_base (set_doc None (set_node None (base this))) this in
      let w' :=
        set_editableIERef (Some (self (base this)))
          (set_heap
             (fun h =>
                <[r2 := set_contentEditable (VBool false) e2]>
                  (<[r1 := set_listeners
                             (fun ls => ((ls ++ [Attached "onkeypress" iECacheSelection])
                                         ++ [Attached "onmouseup" iECacheSelection])%list)
                             (set_contentEditable (VBool true) e1)]> h))
             w) in
      (IE.editableOn (Some r1);; IE.editableOn (Some r2);; IE.editableOff) this w
      = Ret VUndef this' w'
      /\ IE.editableOff this' w' = Throw (TypeError "this.node is null") this' w').
Proof.
  intros Hr He1 Hty1 He2 Hty2. split.
  - intros this Hk Hm. cbv zeta.
    split; [|apply webkit_editableOff_no_node; by destruct this as [[] ? ? ? ?]].
    erewrite bind_Ret by (by apply webkit_editableOn_exact).
    erewrite bind_Ret.
    2:{ apply (webkit_editableOn_exact _ _ r2 e2); [|done].
        cbn [heap set_heap set_editableWebkitRef]. by rewrite lookup_insert_ne by done. }
    erewrite webkit_editableOff_exact;
      [|by destruct this as [[] ? ? ? ?]
       |cbn [heap set_heap set_editableWebkitRef]; apply lookup_insert_eq].
    apply Ret_eq; [by destruct this as [[] ? ? ? ?]|].
    cbv [set_heap set_editableWebkitRef heap engine next_ref document styleElements
         styleSheets document_selection window_selection EditableGeckoRef editableWebkitRef
         editableIERef trace].
    rewrite !insert_insert_eq, !set_listeners_twice.
    rewrite element_listeners_back by (by apply listeners_put_back).
    by destruct this as [[] ? ? ? ?].
  - intros this Hk Hm. cbv zeta.
    split; [|apply ie_editableOff_no_node; by destruct this as [[] ? ?]].
    erewrite bind_Ret by (by apply ie_editableOn_exact).
    erewrite bind_Ret.
    2:{ apply (ie_editableOn_exact _ _ r2 e2); [|done].
        cbn [heap set_heap set_editableIERef]. by rewrite lookup_insert_ne by done. }
    erewrite ie_editableOff_exact;
      [|by destruct this as [[] ? ?]
       |cbn [heap set_heap set_editableIERef]; apply lookup_insert_eq].
    apply Ret_eq; [by destruct this as [[] ? ?]|].
    cbv [set_heap set_editableIERef heap engine next_ref document styleElements
         styleSheets document_selection window_selection EditableGeckoRef editableWebkitRef
         editableIERef trace].
    rewrite !insert_insert_eq, !set_listeners_twice.
    rewrite element_listeners_back by (by apply attached_put_back).
    by destruct this as [[] ? ?].
Qed.

Lemma second_activation_leaks_witness :
  (Webkit.editableOn (Some 0%nat);; Webkit.editableOn (Some 1%nat);; Webkit.editableOff)
    (new_EditableWebkit 7) (page boxed)
  = Ret VUndef (new_EditableWebkit 7)
      (set_editableWebkitRef (Some 7%nat)
         (set_heap
            (fun h =>
               <[1%nat := set_contentEditable (VBool false) (toy_div boxed)]>
                 (<[0%nat := set_listeners
                               (fun _ => [Listening "keypress" webkitCacheSelection true;
                                          Listening "mouseup" webkitCacheSelection true])
                               (set_contentEditable (VBool true) toy_body)]> h))
            (page boxed))).
Proof.
  apply (proj1 (second_activation_leaks (page boxed) 0%nat 1%nat toy_body (toy_div boxed)
                  ltac:(lia) eq_refl eq_refl eq_refl eq_refl)
           (new_EditableWebkit 7)); cbn [listeners toy_div]; apply not_elem_of_nil.
Defined.

(** X12. Activating a session twice on the same element, then
    deactivating it once. [addEventListener] does not register a handler
    twice, so the WebKit strategy ends as after one activation, with the
    listeners of the element put back. [attachEvent] does, so the Trident
    strategy leaves one registration of each of its two handlers on the
    element of a session that is no longer active. *)
Theorem double_activation (w : World) (r : ref) (e : Element) :
  heap w !! r = Some e -> nodeType e = ELEMENT_NODE ->
  (forall this : EditableWebkit,
      Listening "keypress" webkitCacheSelection true ∉ listeners e ->
      Listening "mouseup" webkitCacheSelection true ∉ listeners e ->
      (Webkit.editableOn (Some r);; Webkit.editableOn (Some r);; Webkit.editableOff) this w
      = Ret VUndef
          (with_base (set_doc None (set_node None (base this))) this)
          (set_editableWebkitRef (Some (self (base this)))
             (set_heap (insert r (set_contentEditable (VBool false) e)) w)))
  /\ (forall this : EditableIE,
      Attached "onkeypress" iECacheSelection ∉ listeners e ->
      Attached "onmouseup" iECacheSelection ∉ listeners e ->
      (IE.editableOn (Some r);; IE.editableOn (Some r);; IE.editableOff) this w
      = Ret VUndef
          (with_base (set_doc None (set_node None (base this))) this)
          (set_editableIERef (Some (self (base this)))
             (set_heap
                (insert r
                   (set_listeners
                      (fun ls => (ls ++ [Attached "onkeypress" iECacheSelection;
                                         Attached "onmouseup" iECacheSelection])%list)
                      (set_contentEditable (VBool false) e)))
                w))).
Proof.
  intros He Hty. split.
  - intros this Hk Hm.
    erewrite bind_Ret by (by apply webkit_editableOn_exact).
    erewrite bind_Ret.
    2:{ eapply webkit_editableOn_exact;
          [cbn [heap set_heap set_editableWebkitRef]; apply lookup_insert_eq|exact Hty]. }
    erewrite webkit_editableOff_exact;
      [|by destruct this as [[] ? ? ? ?]
       |cbn [heap set_heap set_editableWebkitRef]; apply lookup_insert_eq].
    apply Ret_eq; [by destruct this as [[] ? ? ? ?]|].
    cbv [set_heap set_editableWebkitRef heap engine next_ref document styleElements
         styleSheets document_selection window_selection EditableGeckoRef editableWebkitRef
         editableIERef trace].
    rewrite !insert_insert_eq.
    rewrite (element_twice _ (fun ls => ls)).
    2:{ rewrite listeners_added_twice. by apply listeners_put_back. }
    by destruct this as [[] ? ? ? ?].
  - intros this Hk Hm.
    erewrite bind_Ret by (by apply ie_editableOn_exact).
    erewrite bind_Ret.
    2:{ eapply ie_editableOn_exact;
          [cbn [heap set_heap set_editableIERef]; apply lookup_insert_eq|exact Hty]. }
    erewrite ie_editableOff_exact;
      [|by destruct this as [[] ? ?]
       |cbn [heap set_heap set_editableIERef]; apply lookup_insert_eq].
    apply Ret_eq; [by destruct this as [[] ? ?]|].
    cbv [set_heap set_editableIERef heap engine next_ref document styleElements
         styleSheets document_selection window_selection EditableGeckoRef editableWebkitRef
         editableIERef trace].
    rewrite !insert_insert_eq.
    rewrite (element_twice _
               (fun ls => (ls ++ [Attached "onkeypress" iECacheSelection;
                                  Attached "onmouseup" iECacheSelection])%list)).
    2:{ by apply attached_twice. }
    by destruct this as [[] ? ?].
Qed.

Lemma double_activation_witness :
  (IE.editableOn (Some 1%nat);; IE.editableOn (Some 1%nat);; IE.editableOff)
    (new_EditableIE 7) (page boxed)
  = Ret VUndef (new_EditableIE 7)
      (set_editableIERef (Some 7%nat)
         (set_heap
            (insert 1%nat
               (set_listeners
                  (fun _ => [Attached "onkeypress" iECacheSelection;
                             Attached "onmouseup" iECacheSelection])
                  (set_contentEditable (VBool false) (toy_div boxed))))
            (page boxed))).
Proof.
  apply (proj2 (double_activation (page boxed) 1%nat (toy_div boxed) eq_refl eq_refl)
           (new_EditableIE 7)); cbn [listeners toy_div]; apply not_elem_of_nil.
Defined.

(** ** [execCommand] without a change callback *)

(** Without callback and without cached entries the check writes console
    lines and nothing else. *)
Lemma checkCommandState_silent (this : EditableBase) (w : World) :
  doc_ok this w -> stateChangeCallback this = None ->
  cachedCommandArray this = None \/ cachedCommandArray this = Some NoState ->
  exists messages,
    checkCommandState this w = Ret (VBool true) this (add_trace (ConsoleLog <$> messages) w).
Proof.
  intros Hok Hf Hcache.
  destruct (checkCommandState_prefix this w Hok) as (st & w1 & Hget & [msgs ->] & _).
  exists msgs. rewrite (checkCommandState_first this w st _ Hcache Hget). by rewrite Hf.
Qed.

(** The host's command on a document that is there, with what it returns. *)
Lemma doc_execCommand_top_exact {T} (this : T) w command :
  doc_execCommand TopDocument command this w
  = Ret (fst (engine_execCommand (engine w) command (document w))) this
      (emit (ExecCommand TopDocument command (VBool false) (VBool false)
               (fst (engine_execCommand (engine w) command (document w))))
         (edit_page command
            (set_document (snd (engine_execCommand (engine w) command (document w))) w))).
Proof.
  unfold doc_execCommand. step. step.
  by destruct (engine_execCommand (engine w) command (document w)).
Qed.

Lemma doc_execCommand_frame_exact {T} (this : T) w fr ef win command :
  heap w !! fr = Some ef -> contentWindow ef = Some win ->
  doc_execCommand (FrameDocument fr) command this w
  = Ret (fst (engine_execCommand (engine w) command (frame_doc win))) this
      (emit (ExecCommand (FrameDocument fr) command (VBool false) (VBool false)
               (fst (engine_execCommand (engine w) command (frame_doc win))))
         (set_heap
            (insert fr
               (set_contentWindow
                  (Some (set_frame_doc
                           (snd (engine_execCommand (engine w) command (frame_doc win))) win))
                  ef)) w)).
Proof.
  intros Hef Hwin. unfold doc_execCommand.
  erewrite bind_Ret by (apply doc_state_read; simpl; rewrite Hef; simpl; by rewrite Hwin).
  step.
  destruct (engine_execCommand (engine w) command (frame_doc win)) as [r ds].
  erewrite bind_Ret by (by apply modify_Ret). cbv beta. rewrite Hwin. reflexivity.
Qed.

(** X13. The WebKit strategy, on an active session that has cached a
    selection, without a change callback and with no command state
    cached: [execCommand] returns the boolean that the document's own
    [execCommand] returned, for every command. It first puts the cached
    selection back with [setBaseAndExtent], then runs the command with
    [false, false] on the page with that selection, then only writes to
    the console. The session ends with the selection cached anew: the four
    values of the selection as the command left it. *)
Theorem webkit_execCommand_returns (this : EditableWebkit) (w : World) (n : ref)
    (command : string) (bn en : ref) (bo eo : Z) :
  doc (base this) = Some TopDocument -> node (base this) = Some n ->
  stateChangeCallback (base this) = None ->
  cachedCommandArray (base this) = None \/ cachedCommandArray (base this) = Some NoState ->
  baseNode this = Some bn -> baseOffset this = Some bo ->
  extentNode this = Some en -> extentOffset this = Some eo ->
  let r := fst (engine_execCommand (engine w) command (document w)) in
  let ds := snd (engine_execCommand (engine w) command (document w)) in
  let restored :=
    mkSelection (baseNode this) (baseOffset this) (extentNode this) (extentOffset this) in
  let left := engine_select (engine w) command restored in
  exists messages,
    execCommand command this w
    = Ret (VBool r)
        (mkEditableWebkit (webkit_base this) (sel_baseNode left) (sel_baseOffset left)
           (sel_extentNode left) (sel_extentOffset left))
        (add_trace
           (ExecCommand TopDocument command (VBool false) (VBool false) r
            :: (ConsoleLog <$> messages))
           (edit_page command
              (set_document ds
                 (emit (SetBaseAndExtent (baseNode this) (baseOffset this)
                          (extentNode this) (extentOffset this)) w)))).
Proof.
  intros Hdoc Hnode Hf Hcache _ _ _ _. simpl in Hdoc, Hnode, Hf, Hcache. cbv zeta.
  unfold execCommand. step. cbv beta.
  cbn [base Editable_Extends EditableWebkit_Editable EditableWebkit_Extends webkit_base].
  rewrite Hdoc.
  step. step. cbv beta.
  cbn [base Editable_Extends EditableWebkit_Editable EditableWebkit_Extends webkit_base].
  rewrite Hdoc. step.
  rewrite (bind_Ret _ _ _ _ _ _ _ (doc_execCommand_top_exact _ _ _)).
  cbn [engine document emit add_trace].
  destruct (engine_execCommand (engine w) command (document w)) as [r ds]. cbn [fst snd].
  match goal with
  | |- context [bind postExecCommand _ this ?W] =>
      destruct (checkCommandState_silent (webkit_base this) W) as (m1 & Hcheck1);
        [unfold doc_ok; rewrite Hdoc; by eexists|done|done|]
  end.
  erewrite bind_Ret; cycle 1.
  { change (@postExecCommand EditableWebkit _) with Webkit.update.
    unfold Webkit.update, Webkit.cacheSelection.
    erewrite bind_Ret by (erewrite bind_Ret by reflexivity; reflexivity).
    erewrite bind_Ret.
    2:{ apply inherited_Ret. cbn [base EditableWebkit_Extends webkit_base]. exact Hcheck1. }
    reflexivity. }
  match goal with
  | |- context [bind (inherited checkCommandState) _ ?t ?W] =>
      destruct (checkCommandState_silent (webkit_base this) W) as (m2 & Hcheck2);
        [unfold doc_ok; rewrite Hdoc; by eexists|done|done|]
  end.
  erewrite bind_Ret.
  2:{ apply inherited_Ret. cbn [base EditableWebkit_Extends webkit_base with_base].
      exact Hcheck2. }
  exists (m1 ++ m2)%list. unfold ret.
  apply Ret_eq.
  - reflexivity.
  - rewrite fmap_app, !add_trace_app. apply (add_trace_app [_]).
Qed.

Lemma webkit_execCommand_returns_witness :
  exists messages,
    execCommand "delete"
      (mkEditableWebkit silent_base (Some 2%nat) (Some 1) (Some 2%nat) (Some 4))
      (page Style.empty)
    = Ret (VBool true)
        (mkEditableWebkit silent_base (Some 2%nat) (Some 1) (Some 2%nat) (Some 1))
        (add_trace
           (ExecCommand TopDocument "delete" (VBool false) (VBool false) true
            :: (ConsoleLog <$> messages))
           (edit_page "delete"
              (set_document (toy_doc false 0)
                 (emit (SetBaseAndExtent (Some 2%nat) (Some 1) (Some 2%nat) (Some 4))
                    (page Style.empty))))).
Proof.
  apply (webkit_execCommand_returns
           (mkEditableWebkit silent_base (Some 2%nat) (Some 1) (Some 2%nat) (Some 4))
           (page Style.empty) 1%nat "delete" 2%nat 2%nat 1 4);
    first [reflexivity | by left].
Defined.

Lemma ie_cacheSelection_exact (this : EditableIE) w n e :
  doc (base this) = Some TopDocument -> node (base this) = Some n -> heap w !! n = Some e ->
  IE.cacheSelection this w
  = Ret tt
      (match document_selection w with
       | Some range => mkEditableIE (ie_base this) (Some range) (Some (innerText e))
       | None => this
       end) w.
Proof.
  intros Hdoc Hnode He. simpl in Hdoc, Hnode. unfold IE.cacheSelection.
  step. destruct (document_selection w) as [range|]; [|done].
  step. cbn [base EditableIE_Extends]. rewrite Hdoc. step. cbv beta iota.
  step. cbn [base EditableIE_Extends ie_base]. rewrite Hnode.
  step. erewrite bind_Ret by (by apply deref_Ret). reflexivity.
Qed.

(** What the restore of the Trident strategy leaves selected. *)
Lemma ie_highlightSelection_exact (this : EditableIE) w n e :
  node (base this) = Some n -> heap w !! n = Some e ->
  let reselected :=
    match cachedRange this with
    | Some range =>
        Some (if text_differs (cachedInnerText this) (innerText e)
                 && (0 <=? string_length (text range))
              then engine_moveStart (engine w) "character" (string_length (text range)) range
              else range)
    | None => None
    end in
  exists es,
    IE.highlightSelection this w
    = Ret tt (mkEditableIE (ie_base this) reselected (cachedInnerText this)) (add_trace es w)
    /\ document_selection (add_trace es w)
       = match reselected with
         | Some range => Some range
         | None => document_selection w
         end.
Proof.
  intros Hnode He. cbv zeta. unfold IE.highlightSelection.
  step. rewrite Hnode. step. erewrite bind_Ret by (by apply deref_Ret).
  destruct this as [b [range|] cached]; cbn [cachedRange cachedInnerText ie_base].
  - destruct (text_differs cached (innerText e) && (0 <=? string_length (text range))).
    + eexists [_; _]. unfold bind, IE.range_moveStart, IE.set_cachedRange, get_world,
        set_world, set_this, get_this, ret, emit.
      simpl. rewrite add_trace_app. by split.
    + by eexists [_].
  - exists []. rewrite add_trace_nil. by split.
Qed.

(** X14. The Trident strategy, on an active session without a change
    callback and with nothing cached: [execCommand] returns the boolean
    that the document's [execCommand] returned and leaves the new state of
    the document and the nodes with the text the command gave them. The
    command runs on the range the session selected again (the cached one,
    moved when the text of the node changed), or on the document's own
    selection when the session has none cached; when there is such a
    range, the session ends with the range as the command left it and the
    text of its node after the command cached anew, and is unchanged
    otherwise. *)
Theorem ie_execCommand_returns (this : EditableIE) (w : World) (n : ref) (e : Element)
    (command : string) :
  doc (base this) = Some TopDocument -> node (base this) = Some n ->
  heap w !! n = Some e ->
  stateChangeCallback (base this) = None ->
  cachedCommandArray (base this) = None \/ cachedCommandArray (base this) = Some NoState ->
  let r := fst (engine_execCommand (engine w) command (document w)) in
  let ds := snd (engine_execCommand (engine w) command (document w)) in
  let restored :=
    match cachedRange this with
    | Some range =>
        Some (if text_differs (cachedInnerText this) (innerText e)
                 && (0 <=? string_length (text range))
              then engine_moveStart (engine w) "character" (string_length (text range)) range
              else range)
    | None => document_selection w
    end in
  exists w',
    execCommand command this w
    = Ret (VBool r)
        (match restored with
         | Some range =>
             mkEditableIE (ie_base this) (Some (engine_range (engine w) command range))
               (Some (engine_text (engine w) command n (innerText e)))
         | None => this
         end) w'
    /\ document w' = ds
    /\ heap w' = heap (edit_page command w)
    /\ document_selection w' = engine_range (engine w) command <$> restored
    /\ In (ExecCommand TopDocument command (VBool false) (VBool false) r) (trace w').
Proof.
  intros Hdoc Hnode He Hf Hcache. pose proof Hdoc as Hdoc0. pose proof Hnode as Hnode0.
  simpl in Hdoc, Hnode, Hf, Hcache. cbv zeta.
  unfold execCommand. step. cbv beta.
  cbn [base Editable_Extends EditableIE_Editable EditableIE_Extends ie_base]. rewrite Hdoc.
  destruct (ie_highlightSelection_exact this w n e Hnode0 He) as (es & Hpre & Hsel).
  cbv zeta in Hpre, Hsel.
  erewrite bind_Ret by exact Hpre.
  step. cbv beta.
  cbn [base Editable_Extends EditableIE_Editable EditableIE_Extends ie_base].
  rewrite Hdoc. step.
  rewrite (bind_Ret _ _ _ _ _ _ _ (doc_execCommand_top_exact _ _ _)).
  cbn [engine document emit add_trace].
  destruct (engine_execCommand (engine w) command (document w)) as [r ds]. cbn [fst snd].
  pose proof (heap_edit_page command (set_document ds (add_trace es w)) n e He) as He'.
  match goal with
  | |- context [bind postExecCommand _ ?t ?W] =>
      pose proof (ie_cacheSelection_exact t W n _ Hdoc Hnode He') as Hcs;
      destruct (checkCommandState_silent (ie_base this) W) as (m1 & Hcheck1);
        [unfold doc_ok; rewrite Hdoc; by eexists|done|done|];
      assert (document_selection W
              = engine_range (engine w) command <$> document_selection (add_trace es w))
        as Hafter by reflexivity
  end.
  rewrite Hsel in Hafter. rewrite Hafter in Hcs. clear Hsel.
  erewrite bind_Ret; cycle 1.
  { change (@postExecCommand EditableIE _) with IE.update. unfold IE.update.
    erewrite bind_Ret by exact Hcs.
    erewrite bind_Ret.
    2:{ apply inherited_Ret.
        match goal with
        | |- checkCommandState (base ?t) _ = _ =>
            replace (base t) with (ie_base this) by (by destruct (_ <$> _))
        end.
        exact Hcheck1. }
    reflexivity. }
  match goal with
  | |- context [bind (inherited checkCommandState) _ ?t ?W] =>
      destruct (checkCommandState_silent (ie_base this) W) as (m2 & Hcheck2);
        [unfold doc_ok; rewrite Hdoc; by eexists|done|done|]
  end.
  erewrite bind_Ret.
  2:{ apply inherited_Ret.
      match goal with
      | |- checkCommandState (base ?t) _ = _ =>
          replace (base t) with (ie_base this)
            by (cbn [with_base base EditableIE_Extends ie_base]; reflexivity)
      end.
      exact Hcheck2. }
  eexists. split; [apply Ret_eq; [|reflexivity]|].
  - cbn [with_base base EditableIE_Extends ie_base cachedRange cachedInnerText engine
           set_document add_trace].
    destruct this as [b [range|] cached]; cbn [cachedRange cachedInnerText ie_base fmap
      option_fmap option_map innerText set_innerText]; [reflexivity|].
    by destruct (document_selection w).
  - split; [done|]. split; [done|]. split.
    + cbn [document_selection add_trace emit range_after fold_left].
      rewrite !range_after_logs.
      etransitivity; [exact Hafter|]. by destruct (cachedRange this).
    + cbn [trace add_trace emit set_document put_doc_state edit_page]. rewrite !in_app_iff.
      left. left. right. by left.
Qed.

Lemma ie_execCommand_returns_witness :
  exists w',
    execCommand "delete" (mkEditableIE silent_base (Some (mkRange 0 "hello")) (Some "hello world"))
      (page Style.empty)
    = Ret (VBool true) (mkEditableIE silent_base (Some (mkRange 0 "")) (Some "")) w'
    /\ document w' = toy_doc false 0
    /\ heap w' = heap (edit_page "delete" (page Style.empty))
    /\ document_selection w' = Some (mkRange 0 "").
Proof.
  destruct (ie_execCommand_returns
              (mkEditableIE silent_base (Some (mkRange 0 "hello")) (Some "hello world"))
              (page Style.empty)
              1%nat (toy_div Style.empty) "delete" eq_refl eq_refl eq_refl eq_refl
              (or_introl eq_refl))
    as (w' & Hrun & Hdoc & Hheap & Hsel & _).
  exists w'. split; [exact Hrun|]. split; [exact Hdoc|]. split; [exact Hheap|exact Hsel].
Defined.

(** The heap and the trace are set independently. *)
Lemma set_heap_add_trace f es w : set_heap f (add_trace es w) = add_trace es (set_heap f w).
Proof. reflexivity. Qed.

Lemma set_heap_twice f g w : set_heap f (set_heap g w) = set_heap (fun h => f (g h)) w.
Proof. reflexivity. Qed.

(** X15. The Gecko strategy, on an active session (it holds its frame, and
    the frame has its window) without a change callback and with nothing
    cached: [execCommand] first gives the focus to the window of the frame,
    runs the command on the document of the frame, and returns the boolean
    that this returned. Afterwards the frame is as high as the body of its
    document after the command, in pixels; the session is as before. *)
Theorem gecko_execCommand_returns (this : EditableGecko) (w : World) (fr n : ref)
    (ef : Element) (win : Frame) (command : string) :
  iframe this = Some fr -> doc (base this) = Some (FrameDocument fr) ->
  node (base this) = Some n ->
  heap w !! fr = Some ef -> contentWindow ef = Some win ->
  stateChangeCallback (base this) = None ->
  cachedCommandArray (base this) = None \/ cachedCommandArray (base this) = Some NoState ->
  let r := fst (engine_execCommand (engine w) command (frame_doc win)) in
  let ds := snd (engine_execCommand (engine w) command (frame_doc win)) in
  exists messages,
    execCommand command this w
    = Ret (VBool r) this
        (add_trace
           (WindowFocus fr
            :: ExecCommand (FrameDocument fr) command (VBool false) (VBool false) r
            :: (ConsoleLog <$> messages))
           (set_heap
              (insert fr
                 (set_style
                    (Style.set_height (number_toString 10 (body_offsetHeight ds) ++ "px"))
                    (set_contentWindow (Some (set_frame_doc ds win)) ef)))
              w)).
Proof.
  intros Hframe Hdoc Hnode Hef Hwin Hf Hcache. simpl in Hdoc, Hnode, Hf, Hcache. cbv zeta.
  unfold execCommand. step. cbv beta.
  cbn [base Editable_Extends EditableGecko_Editable EditableGecko_Extends gecko_base].
  rewrite Hdoc.
  erewrite bind_Ret; cycle 1.
  { change (@preExecCommand EditableGecko _) with Gecko.preExecCommand.
    unfold Gecko.preExecCommand. step. rewrite Hframe.
    erewrite bind_Ret by (by eapply window_of_Ret). reflexivity. }
  step. cbv beta.
  cbn [base Editable_Extends EditableGecko_Editable EditableGecko_Extends gecko_base].
  rewrite Hdoc. step.
  rewrite (bind_Ret _ _ _ _ _ _ _
             (doc_execCommand_frame_exact _ (emit (WindowFocus fr) w) fr ef win _ Hef Hwin)).
  cbn [engine emit add_trace].
  destruct (engine_execCommand (engine w) command (frame_doc win)) as [r ds]. cbn [fst snd].
  match goal with
  | |- context [bind postExecCommand _ this ?W] =>
      destruct (checkCommandState_silent (gecko_base this) W) as (m1 & Hcheck1);
        [unfold doc_ok; rewrite Hdoc; cbn [read_doc]; world_nf;
         rewrite lookup_insert_eq; by eexists|done|done|]
  end.
  erewrite bind_Ret; cycle 1.
  { change (@postExecCommand EditableGecko _) with Gecko.update. unfold Gecko.update.
    erewrite bind_Ret by (apply inherited_Ret; exact Hcheck1).
    rewrite gecko_with_base. step. rewrite Hframe. step.
    cbn [base EditableGecko_Extends]. rewrite Hdoc. step.
    erewrite bind_Ret
      by (apply doc_state_read; cbn [read_doc]; world_nf; rewrite lookup_insert_eq;
          reflexivity).
    apply modify_Ret. world_nf. apply lookup_insert_eq. }
  match goal with
  | |- context [bind (inherited checkCommandState) _ ?t ?W] =>
      destruct (checkCommandState_silent (gecko_base this) W) as (m2 & Hcheck2);
        [unfold doc_ok; rewrite Hdoc; cbn [read_doc]; world_nf;
         rewrite lookup_insert_eq; by eexists|done|done|]
  end.
  erewrite bind_Ret by (apply inherited_Ret; exact Hcheck2).
  rewrite gecko_with_base.
  exists (m1 ++ m2)%list. unfold ret.
  match goal with
  | |- Ret _ _ ?W = Ret _ _ ?W' => replace W with W'; [reflexivity|]
  end.
  rewrite fmap_app. unfold emit.
  rewrite !set_heap_add_trace, !add_trace_app, set_heap_twice.
  cbn [app]. f_equal.
  unfold set_heap. by rewrite insert_insert_eq.
Qed.

Lemma gecko_execCommand_returns_witness :
  exists messages,
    execCommand "bold" (this_of (gecko_activated boxed)) (world_of (gecko_activated boxed))
    = Ret (VBool true) (this_of (gecko_activated boxed))
        (add_trace
           (WindowFocus 3%nat
            :: ExecCommand (FrameDocument 3%nat) "bold" (VBool false) (VBool false) true
            :: (ConsoleLog <$> messages))
           (set_heap
              (insert 3%nat
                 (set_style (Style.set_height "18px")
                    (set_contentWindow
                       (Some (set_frame_doc
                                (snd (engine_execCommand toy_engine "bold" (toy_doc false 18)))
                                (window_at (world_of (gecko_activated boxed)) 3%nat)))
                       (heap_at (world_of (gecko_activated boxed)) 3%nat))))
              (world_of (gecko_activated boxed)))).
Proof.
  apply (gecko_execCommand_returns (this_of (gecko_activated boxed))
           (world_of (gecko_activated boxed)) 3%nat 4%nat
           (heap_at (world_of (gecko_activated boxed)) 3%nat)
           (window_at (world_of (gecko_activated boxed)) 3%nat) "bold");
    first [ vm_compute; reflexivity | left; vm_compute; reflexivity ].
Defined.

(** ** Activation of the Gecko strategy *)

Lemma set_heap_ext (f g : gmap ref Element -> gmap ref Element) (w : World) :
  f (heap w) = g (heap w) -> set_heap f w = set_heap g w.
Proof. unfold set_heap. by intros ->. Qed.






(** ** Deactivation of the Gecko strategy *)








(** ** The event handlers *)

Lemma call_on_Ret {T A} (id : nat) (m : M T A) (objects : gmap nat T) w this a this' w' :
  objects !! id = Some this -> m this w = Ret a this' w' ->
  call_on id m objects w = Ret a (<[id := this']> objects) w'.
Proof. intros Hid Hm. unfold call_on. by rewrite Hid, Hm. Qed.


(** X18. The handler [webkitCacheSelection] reaches the session that was
    activated last, whichever node the event comes from. With two sessions
    [a] and [b] without change callback, [a] activated on one element and
    then [b] on another, a call of the handler stores the selection of the
    window in [b] and leaves [a] as its activation left it; before any
    activation the handler does nothing. *)
Theorem webkitCacheSelection_last_activated (objects : gmap nat EditableWebkit) (w : World)
    (a b : nat) (A B : EditableWebkit) (r1 r2 : ref) (e1 e2 : Element) :
  a <> b -> objects !! a = Some A -> objects !! b = Some B ->
  self (base A) = a -> self (base B) = b ->
  r1 <> r2 ->
  heap w !! r1 = Some e1 -> nodeType e1 = ELEMENT_NODE ->
  heap w !! r2 = Some e2 -> nodeType e2 = ELEMENT_NODE ->
  stateChangeCallback (base B) = None ->
  cachedCommandArray (base B) = None \/ cachedCommandArray (base B) = Some NoState ->
  (editableWebkitRef w = None -> Window.webkitCacheSelection objects w = Ret tt objects w)
  /\ exists objects' w',
       (call_on a (Webkit.editableOn (Some r1));;
        call_on b (Webkit.editableOn (Some r2));;
        Window.webkitCacheSelection) objects w
       = Ret tt objects' w'
       /\ editableWebkitRef w' = Some b
       /\ objects' !! a
          = Some (with_base (set_doc (Some TopDocument) (set_node (Some r1) (base A))) A)
       /\ objects' !! b
          = Some (mkEditableWebkit
                    (set_doc (Some TopDocument) (set_node (Some r2) (base B)))
                    (sel_baseNode (window_selection w)) (sel_baseOffset (window_selection w))
                    (sel_extentNode (window_selection w))
                    (sel_extentOffset (window_selection w)))
       /\ logs_only
            (set_editableWebkitRef (Some b)
               (set_heap
                  (fun h =>
                     <[r2 := set_listeners
                               (fun ls =>
                                  add_listener (Listening "mouseup" webkitCacheSelection true)
                                    (add_listener
                                       (Listening "keypress" webkitCacheSelection true) ls))
                               (set_contentEditable (VBool true) e2)]>
                       (<[r1 := set_listeners
                                  (fun ls =>
                                     add_listener
                                       (Listening "mouseup" webkitCacheSelection true)
                                       (add_listener
                                          (Listening "keypress" webkitCacheSelection true) ls))
                                  (set_contentEditable (VBool true) e1)]> h))
                  w))
            w'.
Proof.
  intros Hab HA HB HsA HsB Hr He1 Hty1 He2 Hty2 Hf Hcache. split.
  { intros Href. unfold Window.webkitCacheSelection. step. by rewrite Href. }
  erewrite bind_Ret
    by (eapply call_on_Ret; [exact HA|by apply webkit_editableOn_exact]).
  erewrite bind_Ret.
  2:{ eapply call_on_Ret; [by rewrite lookup_insert_ne by done|].
      apply (webkit_editableOn_exact B _ r2 e2); [|done].
      cbn [heap set_heap set_editableWebkitRef]. by rewrite lookup_insert_ne by done. }
  unfold Window.webkitCacheSelection. step.
  cbn [editableWebkitRef set_editableWebkitRef set_heap]. rewrite HsB.
  match goal with
  | |- context [call_on b Webkit.update _ ?W] =>
      destruct (checkCommandState_silent
                  (set_doc (Some TopDocument) (set_node (Some r2) (webkit_base B))) W)
        as (msgs & Hcheck); [by eexists|done|done|]
  end.
  eexists _, _. split.
  { eapply call_on_Ret; [apply lookup_insert_eq|].
    unfold Webkit.update, Webkit.cacheSelection.
    erewrite bind_Ret by (erewrite bind_Ret by reflexivity; reflexivity).
    erewrite bind_Ret by (apply inherited_Ret; exact Hcheck).
    reflexivity. }
  split; [reflexivity|].
  split; [by rewrite !lookup_insert_ne by done; rewrite lookup_insert_eq|].
  split; [by rewrite lookup_insert_eq|].
  exists msgs. by rewrite HsA.
Qed.


Lemma webkitCacheSelection_last_activated_witness :
  exists objects' w',
    (call_on 7%nat (Webkit.editableOn (Some 0%nat));;
     call_on 8%nat (Webkit.editableOn (Some 1%nat));;
     Window.webkitCacheSelection)
      (<[8%nat := new_EditableWebkit 8]> {[7%nat := new_EditableWebkit 7]}) (page boxed)
    = Ret tt objects' w'
    /\ editableWebkitRef w' = Some 8%nat
    /\ objects' !! 7%nat
       = Some (mkEditableWebkit
                 (set_doc (Some TopDocument) (set_node (Some 0%nat) (new_EditableBase 7)))
                 None None None None)
    /\ objects' !! 8%nat
       = Some (mkEditableWebkit
                 (set_doc (Some TopDocument) (set_node (Some 1%nat) (new_EditableBase 8)))
                 None None None None).
Proof.
  destruct (proj2 (webkitCacheSelection_last_activated
                     (<[8%nat := new_EditableWebkit 8]> {[7%nat := new_EditableWebkit 7]})
                     (page boxed) 7%nat 8%nat (new_EditableWebkit 7) (new_EditableWebkit 8)
                     0%nat 1%nat toy_body (toy_div boxed)
                     ltac:(lia) eq_refl eq_refl eq_refl eq_refl ltac:(lia)
                     eq_refl eq_refl eq_refl eq_refl eq_refl (or_introl eq_refl)))
    as (objects' & w' & Hrun & Href & Ha & Hb & _).
  exists objects', w'. split; [exact Hrun|]. split; [exact Href|]. split; [exact Ha|exact Hb].
Defined.



(** ** The base class on its own *)

Lemma base_editableOn_refuses (node : option ref) (this : EditableBase) (w : World) :
  is_element w node \/ non_element w node ->
  exists message,
    Base.editableOn node this w = Ret (VBool false) this (emit (ConsoleLog message) w).
Proof.
  intros [Hnode|Hnode]; unfold Base.editableOn.
  - erewrite bind_Ret by (by apply checkNodeType_element). cbn [negb].
    eexists. step. reflexivity.
  - erewrite bind_Ret by (by apply checkNodeType_non_element). cbn [negb].
    by eexists.
Qed.

Lemma node_known_logs (w w' : World) (node : option ref) :
  logs_only w w' ->
  is_element w node \/ non_element w node -> is_element w' node \/ non_element w' node.
Proof. by intros [msgs ->]. Qed.

(** X20. An object of the base class never becomes active. Whatever
    nodes its [editableOn] is called with, elements or not, every call
    returns [false] and writes one line to the console, the session stays
    as it was, and an [execCommand] after them returns [false] without the
    document being asked to run anything: the whole run only writes to the
    console. *)
Theorem base_class_inert (nodes : list (option ref)) (command : string)
    (this : EditableBase) (w : World) :
  doc this = None ->
  Forall (fun node => is_element w node \/ non_element w node) nodes ->
  (forall node, In node nodes ->
     exists message,
       editableOn node this w = Ret (VBool false) this (emit (ConsoleLog message) w))
  /\ exists w',
       (for_each nodes tt (fun _ node => editableOn node;; ret tt);;
        execCommand command) this w
       = Ret (VBool false) this w'
       /\ logs_only w w'.
Proof.
  intros Hdoc Hnodes. split.
  { intros node Hin. apply base_editableOn_refuses.
    rewrite List.Forall_forall in Hnodes. by apply Hnodes. }
  assert (forall w0, logs_only w w0 ->
            exists w1, for_each nodes tt (fun _ node => editableOn node;; ret tt) this w0
                       = Ret tt this w1 /\ logs_only w w1) as Hloop.
  { induction Hnodes as [|node nodes Hnode _ IH]; intros w0 Hlogs; cbn [for_each].
    - by exists w0.
    - destruct (base_editableOn_refuses node this w0 (node_known_logs _ _ _ Hlogs Hnode))
        as [msg Hon].
      erewrite bind_Ret by (erewrite bind_Ret by exact Hon; reflexivity).
      apply IH. eapply logs_only_trans; [exact Hlogs|apply logs_only_emit]. }
  destruct (Hloop w (logs_only_refl w)) as (w1 & Hrun & Hlogs).
  exists w1. split; [|done].
  erewrite bind_Ret by exact Hrun.
  unfold execCommand. step. cbn [base Editable_Extends EditableBase_Editable
                                   EditableBase_Extends].
  by rewrite Hdoc.
Qed.

Lemma base_class_inert_witness :
  exists w',
    (for_each [Some 1%nat; None; Some 2%nat] tt (fun _ node => editableOn node;; ret tt);;
     execCommand "bold") (new_EditableBase 7) (page boxed)
    = Ret (VBool false) (new_EditableBase 7) w'
    /\ logs_only (page boxed) w'.
Proof.
  apply (proj2 (base_class_inert [Some 1%nat; None; Some 2%nat] "bold"
                  (new_EditableBase 7) (page boxed) eq_refl
                  ltac:(apply List.Forall_cons;
                          [left; exists 1%nat, (toy_div boxed); by vm_compute|];
                        apply List.Forall_cons; [right; by left|];
                        apply List.Forall_cons;
                          [right; right; exists 2%nat, toy_text; by vm_compute|];
                        apply List.Forall_nil))).
Defined.

(** ** Activation of the Gecko strategy that fails *)

(** X21. The Gecko strategy on an element that hangs nowhere.
    [editableOn] throws when it reads the parent of the element, after the
    session took the new frame and the snapshot and after the element was
    made static: the session holds a frame that is in no document, and no
    node and document. [editableOff] sees the frame and throws as well,
    at the window the frame does not have, so the session cannot be
    cleared. *)
Theorem gecko_editableOn_detached (this : EditableGecko) (w : World) (r : ref)
    (e : Element) :
  heap w !! r = Some e -> nodeType e = ELEMENT_NODE -> parentNode e = Detached ->
  (r < next_ref w)%nat ->
  let this' :=
    mkEditableGecko (gecko_base this) (Some (next_ref w)) (Some (S (S (next_ref w)))) in
  exists w',
    Gecko.editableOn (Some r) this w = Throw (TypeError "node.parentNode is null") this' w'
    /\ heap w' !! r = Some (made_static e)
    /\ contentWindow <$> heap w' !! next_ref w = Some None
    /\ trace w' = trace w
    /\ Gecko.editableOff this' w' = Throw (TypeError "contentWindow is null") this' w'.
Proof.
  intros He Hty Hparent Hfresh. cbv zeta.
  destruct (truthy (VStr (Style.position (style e)))) eqn:Hpos.
  all: eexists; split;
         [ unfold Gecko.editableOn;
           erewrite bind_Ret
             by (apply inherited_Ret, checkNodeType_element; by exists r, e);
           cbv beta; change (negb true) with false; cbv iota;
           rewrite gecko_with_base;
           do 8 (erewrite bind_Ret by run_step; cbv beta; world_nf);
           rewrite Hpos;
           do 9 (erewrite bind_Ret by run_step; cbv beta; world_nf);
           cbn [parentNode set_style]; rewrite Hparent;
           erewrite bind_Throw by reflexivity; reflexivity
         | ].
  all: unfold made_static; rewrite Hpos.
  all: split;
         [ world_nf; rewrite ?lookup_insert_ne by lia;
           first [ by rewrite lookup_insert_eq | exact He ]
         | ].
  all: split;
         [ world_nf; rewrite ?lookup_insert_ne by lia; by rewrite lookup_insert_eq | ].
  all: split; [reflexivity|].
  all: unfold Gecko.editableOff; step; cbn [iframe].
  all: erewrite bind_Throw; [reflexivity|].
  all: unfold modify_window; erewrite bind_Throw; [reflexivity|].
  all: unfold window_of.
  all: erewrite bind_Ret
         by (apply deref_Ret; world_nf; rewrite ?lookup_insert_ne by lia;
             apply lookup_insert_eq).
  all: reflexivity.
Qed.

Lemma gecko_editableOn_detached_witness :
  let w := set_next_ref 4%nat (set_heap (insert 3%nat (blank_element "div")) (page boxed)) in
  exists w',
    Gecko.editableOn (Some 3%nat) (new_EditableGecko 7) w
    = Throw (TypeError "node.parentNode is null")
        (mkEditableGecko (new_EditableBase 7) (Some 4%nat) (Some 6%nat)) w'
    /\ heap w' !! 3%nat = Some (made_static (blank_element "div"))
    /\ contentWindow <$> heap w' !! 4%nat = Some None
    /\ trace w' = trace w
    /\ Gecko.editableOff (mkEditableGecko (new_EditableBase 7) (Some 4%nat) (Some 6%nat)) w'
       = Throw (TypeError "contentWindow is null")
           (mkEditableGecko (new_EditableBase 7) (Some 4%nat) (Some 6%nat)) w'.
Proof.
  apply (gecko_editableOn_detached (new_EditableGecko 7)
           (set_next_ref 4%nat (set_heap (insert 3%nat (blank_element "div")) (page boxed)))
           3%nat (blank_element "div")); [vm_compute; reflexivity|reflexivity|reflexivity|].
  cbn [next_ref set_next_ref]. lia.
Defined.

(** X22. The Gecko strategy on a page without a [style] element outside
    the element: the page has none at all, or all of them are inside the
    element, whose parent is in the page's own document. [editableOn]
    throws where it reads the first [style] element, and by then it has put
    the frame in the place of the element and opened the document of the
    frame: the element is out of the tree (static when it had a position),
    an empty frame with its window stands where it stood, and the session,
    fresh before, holds the frame and the snapshot but no node and no
    document. [editableOff] then throws at the missing node, before it
    swaps anything back. *)
Theorem gecko_editableOn_without_style (this : EditableGecko) (w : World) (r : ref)
    (e : Element) :
  heap w !! r = Some e -> nodeType e = ELEMENT_NODE ->
  allocated w -> in_page w (parentNode e) = true ->
  List.Forall (fun s => inside w r (fst s) = true) (styleElements w) ->
  node (base this) = None ->
  let this' :=
    mkEditableGecko (gecko_base this) (Some (next_ref w)) (Some (S (S (next_ref w)))) in
  exists w',
    Gecko.editableOn (Some r) this w
    = Throw (TypeError "document.getElementsByTagName('style')[0] is undefined") this' w'
    /\ heap w' !! r = Some (set_parentNode Detached (set_contentWindow None (made_static e)))
    /\ (exists ef win,
          heap w' !! next_ref w = Some ef /\ parentNode ef = parentNode e
          /\ contentWindow ef = Some win /\ written win = [] /\ designMode win = "off")
    /\ trace w' = (trace w ++ [DocumentOpen (next_ref w)])%list
    /\ exists w'',
         Gecko.editableOff this' w' = Throw (TypeError "this.node is null") this' w''
         /\ heap w'' !! r = heap w' !! r.
Proof.
  intros He Hty Hw Hparent Hstyle Hnode. cbv zeta.
  pose proof (Hw _ _ He) as Hfresh.
  cbn [base EditableGecko_Extends] in Hnode.
  destruct (truthy (VStr (Style.position (style e)))) eqn:Hpos.
  all: eexists; split;
         [ unfold Gecko.editableOn;
           erewrite bind_Ret
             by (apply inherited_Ret, checkNodeType_element; by exists r, e);
           cbv beta; change (negb true) with false; cbv iota;
           rewrite gecko_with_base;
           do 8 (erewrite bind_Ret by run_step; cbv beta; world_nf);
           rewrite Hpos;
           do 9 (erewrite bind_Ret by run_step; cbv beta; world_nf);
           cbn [parentNode set_style];
           rewrite attached_match by (by apply (in_page_attached w));
           erewrite bind_Ret by run_step; cbv beta; world_nf;
           rewrite (browsing_kept w _ (parentNode e) Hparent);
             [ | kept He Hw | world_nf; lia ];
           do 4 (erewrite bind_Ret by run_step; cbv beta; world_nf);
           match goal with
           | |- context [live ?W (styleElements _)] =>
               erewrite (live_inside w W r _ (styleElements w));
                 [ | kept He Hw
                   | world_nf; rewrite ?lookup_insert_ne by lia; apply lookup_insert_eq
                   | reflexivity
                   | exact Hstyle ]
           end;
           erewrite bind_Throw by reflexivity; reflexivity
         | ].
  all: unfold made_static; rewrite Hpos.
  all: split;
         [ world_nf; rewrite ?lookup_insert_ne by lia; by rewrite lookup_insert_eq | ].
  all: split;
         [ eexists _, _; split;
             [world_nf; rewrite ?lookup_insert_ne by lia; apply lookup_insert_eq|];
           split; [reflexivity|]; split; [reflexivity|]; split; reflexivity
         | ].
  all: split; [reflexivity|].
  all: eexists; split;
         [ unfold Gecko.editableOff; step; cbn [iframe];
           do 4 (erewrite bind_Ret by run_step; cbv beta; world_nf);
           cbn [base EditableGecko_Extends gecko_base]; rewrite Hnode;
           erewrite bind_Throw by reflexivity; reflexivity
         | ].
  all: world_nf; by rewrite !lookup_insert_ne by lia.
Qed.

Lemma gecko_editableOn_without_style_witness :
  let w := mkWorld toy_engine (heap (page boxed)) 3%nat (toy_doc false 0)
             [(Under 1%nat, "p { margin:0 }")]
             [(InDocument, Some "main.css"); (Under 1%nat, None)] (Some (mkRange 0 "hello"))
             (mkSelection None None None None) None None None [] in
  exists w',
    Gecko.editableOn (Some 1%nat) (new_EditableGecko 7) w
    = Throw (TypeError "document.getElementsByTagName('style')[0] is undefined")
        (mkEditableGecko (new_EditableBase 7) (Some 3%nat) (Some 5%nat)) w'
    /\ heap w' !! 1%nat
       = Some (set_parentNode Detached (set_contentWindow None (made_static (toy_div boxed))))
    /\ trace w' = [DocumentOpen 3%nat].
Proof.
  destruct (gecko_editableOn_without_style (new_EditableGecko 7)
              (mkWorld toy_engine (heap (page boxed)) 3%nat (toy_doc false 0)
                 [(Under 1%nat, "p { margin:0 }")]
                 [(InDocument, Some "main.css"); (Under 1%nat, None)]
                 (Some (mkRange 0 "hello"))
                 (mkSelection None None None None) None None None [])
              1%nat (toy_div boxed) eq_refl eq_refl (page_allocated boxed) eq_refl
              ltac:(apply List.Forall_cons; [reflexivity|apply List.Forall_nil]) eq_refl)
    as (w' & Hrun & Hr & _ & Htrace & _).
  exists w'. split; [exact Hrun|]. split; [exact Hr|exact Htrace].
Defined.

(** ** Activation of the Gecko strategy outside a document *)

Lemma allocated_insert (w : World) (k : ref) (x : Element) :
  allocated w -> (k < next_ref w)%nat -> allocated (set_heap (insert k x) w).
Proof.
  intros Hw Hk j e. cbn [heap next_ref set_heap].
  destruct (decide (j = k)) as [->|Hne]; [done|].
  rewrite lookup_insert_ne by done. apply Hw.
Qed.

(** X23. The Gecko strategy on an element whose parent hangs nowhere, so
    that neither is in a document. [editableOn] swaps the frame in and
    throws at the window that the frame does not have, before it opens any
    document: the element is out of the tree (static when it had a
    position), the frame hangs under the parent without a window, and the
    session holds the frame and the snapshot, but no node and no
    document. *)
Theorem gecko_editableOn_outside_document (this : EditableGecko) (w : World) (r p : ref)
    (e ep : Element) :
  heap w !! r = Some e -> nodeType e = ELEMENT_NODE -> allocated w ->
  parentNode e = Under p -> heap w !! p = Some ep -> parentNode ep = Detached ->
  let this' :=
    mkEditableGecko (gecko_base this) (Some (next_ref w)) (Some (S (S (next_ref w)))) in
  exists w',
    Gecko.editableOn (Some r) this w = Throw (TypeError "contentWindow is null") this' w'
    /\ heap w' !! r = Some (set_parentNode Detached (set_contentWindow None (made_static e)))
    /\ (exists ef,
          heap w' !! next_ref w = Some ef /\ tagName ef = "iframe"
          /\ parentNode ef = Under p /\ contentWindow ef = None)
    /\ trace w' = trace w.
Proof.
  intros He Hty Hw Hparent Hp Hep. cbv zeta.
  pose proof (Hw _ _ He) as Hfresh. pose proof (Hw _ _ Hp) as Hfreshp.
  assert (p <> r) as Hpr.
  { intros ->. rewrite He in Hp. injection Hp as <-. by rewrite Hparent in Hep. }
  destruct (truthy (VStr (Style.position (style e)))) eqn:Hpos.
  all: eexists; split;
         [ unfold Gecko.editableOn;
           erewrite bind_Ret
             by (apply inherited_Ret, checkNodeType_element; by exists r, e);
           cbv beta; change (negb true) with false; cbv iota;
           rewrite gecko_with_base;
           do 8 (erewrite bind_Ret by run_step; cbv beta; world_nf);
           rewrite Hpos;
           do 9 (erewrite bind_Ret by run_step; cbv beta; world_nf);
           cbn [parentNode set_style]; rewrite Hparent; cbv iota;
           erewrite bind_Ret by run_step; cbv beta; world_nf;
           cbn [parentNode set_style]; rewrite ?Hparent;
           match goal with
           | |- context [browsing ?W (Under ?q)] =>
               assert (browsing W (Under q) = false) as ->
                 by (unfold browsing, document_of, owner; world_nf; cbn [climb];
                     rewrite !lookup_insert_ne by lia; by rewrite Hp, Hep)
           end;
           rewrite andb_false_r;
           erewrite bind_Throw; [reflexivity|];
           unfold window_of;
           erewrite bind_Ret
             by (apply deref_Ret; world_nf; rewrite ?lookup_insert_ne by lia;
                 apply lookup_insert_eq);
           reflexivity
         | ].
  all: unfold made_static; rewrite Hpos.
  all: split;
         [ world_nf; rewrite ?lookup_insert_ne by lia; by rewrite lookup_insert_eq | ].
  all: split;
         [ eexists; split;
             [world_nf; rewrite ?lookup_insert_ne by lia; apply lookup_insert_eq|];
           split; [reflexivity|]; split; reflexivity
         | ].
  all: reflexivity.
Qed.

Lemma gecko_editableOn_outside_document_witness :
  let w := set_heap (insert 0%nat (blank_element "body")) (page boxed) in
  exists w',
    Gecko.editableOn (Some 1%nat) (new_EditableGecko 7) w
    = Throw (TypeError "contentWindow is null")
        (mkEditableGecko (new_EditableBase 7) (Some 3%nat) (Some 5%nat)) w'
    /\ heap w' !! 1%nat
       = Some (set_parentNode Detached (set_contentWindow None (made_static (toy_div boxed))))
    /\ trace w' = [].
Proof.
  intros w.
  assert (heap w !! 1%nat = Some (toy_div boxed)) as He by (vm_compute; reflexivity).
  assert (heap w !! 0%nat = Some (blank_element "body")) as Hp by (vm_compute; reflexivity).
  assert (allocated w) as Hw.
  { apply allocated_insert; [apply page_allocated|]. simpl. lia. }
  destruct (gecko_editableOn_outside_document (new_EditableGecko 7) w
              1%nat 0%nat (toy_div boxed) (blank_element "body")
              He eq_refl Hw eq_refl Hp eq_refl)
    as (w' & Hrun & Hr & _ & Htrace).
  exists w'. split; [exact Hrun|]. split; [exact Hr|exact Htrace].
Defined.
